(** * Dynamic Energy Cost: the rate sensor and the utility meters

  A shallow embedding of
  [custom_components/dynamic_energy_cost/power_based_sensors.py]:
  [RealTimeCostSensor.handle_state_change] (the rate calculator) and
  [UtilityMeterSensor] (the resettable accumulator), together with the
  parts of the Python runtime they rest on: exceptions and name lookup,
  [float], [decimal.Decimal] under the default context, and [datetime];
  then the names of the entities, [async_setup_entry], and the user step
  of [config_flow.py]. *)

From Stdlib Require Import ZArith NArith QArith Qabs Qpower Qfield.
From Stdlib Require Import List String Ascii Bool Lia Lqa Floats.SpecFloat.
Import ListNotations.

Local Open Scope string_scope.
Local Open Scope list_scope.
Local Open Scope Z_scope.

(** ** Python exceptions and name lookup *)
Module Py.

(** The exception classes that the modelled code can meet. *)
Inductive exn : Type :=
| ValueError
| TypeError
| AttributeError
| NameError
| OverflowError
| InvalidOperation   (* decimal.InvalidOperation *)
| DivisionByZero     (* decimal.DivisionByZero *)
| Overflow.          (* decimal.Overflow *)

Definition exn_eqb (a b : exn) : bool :=
  match a, b with
  | ValueError, ValueError | TypeError, TypeError
  | AttributeError, AttributeError | NameError, NameError
  | OverflowError, OverflowError | InvalidOperation, InvalidOperation
  | DivisionByZero, DivisionByZero | Overflow, Overflow => true
  | _, _ => false
  end.

(** A computation either returns or raises. *)
Inductive result (A : Type) : Type :=
| Ok (a : A)
| Raise (e : exn).
Arguments Ok {A} a.
Arguments Raise {A} e.

Definition bind {A B} (r : result A) (k : A -> result B) : result B :=
  match r with
  | Ok a => k a
  | Raise e => Raise e
  end.

(** Names bound in the module namespace of [power_based_sensors.py]: its
    imports (lines 1-23), [_LOGGER] and its three top-level definitions.
    [from decimal import Decimal] binds [Decimal] and nothing else of the
    [decimal] module. *)
Definition module_globals : list string :=
  [ "logging"; "Decimal"; "SensorEntity"; "SensorDeviceClass";
    "SensorStateClass"; "RestoreEntity"; "callback";
    "async_track_state_change_event"; "async_track_time_interval";
    "async_track_point_in_time"; "now"; "timedelta"; "DOMAIN";
    "ELECTRICITY_PRICE_SENSOR"; "ENERGY_SENSOR"; "POWER_SENSOR";
    "SERVICE_RESET_COST"; "_LOGGER"; "RealTimeCostSensor";
    "async_setup_entry"; "UtilityMeterSensor" ].

(** The exception classes of the [builtins] namespace used here. *)
Definition builtins : list (string * exn) :=
  [ ("ValueError", ValueError); ("TypeError", TypeError);
    ("AttributeError", AttributeError); ("NameError", NameError);
    ("OverflowError", OverflowError) ].

Fixpoint assoc {A} (k : string) (l : list (string * A)) : option A :=
  match l with
  | [] => None
  | (k', v) :: l' => if String.eqb k k' then Some v else assoc k l'
  end.

Definition mem (k : string) (l : list string) : bool :=
  existsb (String.eqb k) l.

(** Evaluating a name in an [except] clause: module globals first, then
    builtins; a name bound in neither raises [NameError]. *)
Definition lookup_exception (name : string) : result exn :=
  if mem name module_globals then
    (* none of the module's globals is an exception class *)
    Raise TypeError
  else
    match assoc name builtins with
    | Some c => Ok c
    | None => Raise NameError
    end.

Fixpoint lookup_exceptions (names : list string) : result (list exn) :=
  match names with
  | [] => Ok []
  | n :: ns =>
      bind (lookup_exception n) (fun c =>
      bind (lookup_exceptions ns) (fun cs => Ok (c :: cs)))
  end.

End Py.

Export Py.

Declare Scope py_scope.
Delimit Scope py_scope with py.
Notation "x <- c ;; k" := (Py.bind c (fun x => k))
(at level 61, c at next level, right associativity) : py_scope.

(** ** [decimal.Decimal] under the default context

  The default context: 28 significant digits, [ROUND_HALF_EVEN],
  [Emax = 999999], [Emin = -999999], and the traps [InvalidOperation],
  [DivisionByZero] and [Overflow] enabled (a trapped signal raises).
  Operations follow the General Decimal Arithmetic rules that the
  [decimal] module implements; NaN payloads are not represented. *)
Module Decimal.

Inductive decimal : Type :=
| Finite (sign : bool) (coeff : N) (exp : Z)
| Infinity (sign : bool)
| NaN (sign : bool) (signaling : bool).

Definition prec : Z := 28.
Definition Emax : Z := 999999.
Definition Emin : Z := -999999.
Definition Etiny : Z := Emin - prec + 1.
Definition Etop : Z := Emax - prec + 1.

Definition pow10 (k : Z) : N := (10 ^ Z.to_N k)%N.

Fixpoint ndigits_fuel (fuel : nat) (n : N) : Z :=
  match fuel with
  | O => 0
  | S f => if (n =? 0)%N then 0 else 1 + ndigits_fuel f (n / 10)%N
  end.

(** [len(self._int)]: the number of decimal digits, 1 for zero. *)
Definition ndigits (n : N) : Z :=
  if (n =? 0)%N then 1 else ndigits_fuel (S (N.size_nat n)) n.

(** Drop the last [k] digits of [c], rounding half to even.  With more
    digits to drop than [c] has, [c] stands below a tenth of the last kept
    place and rounds to zero (the module's [digits < 0] case). *)
Definition round_half_even (c : N) (k : Z) : N :=
  if ndigits c <? k then 0%N
  else
    let p := pow10 k in
    let q := (c / p)%N in
    let r := (c mod p)%N in
    match (2 * r ?= p)%N with
    | Lt => q
    | Eq => if N.even q then q else (q + 1)%N
    | Gt => (q + 1)%N
    end.

(** [Decimal._rescale(exp, ROUND_HALF_EVEN)] on a finite number. *)
Definition rescale (c : N) (e : Z) (target : Z) : N :=
  if (c =? 0)%N then 0%N
  else if e >=? target then (c * pow10 (e - target))%N
  else round_half_even c (target - e).

(** [Decimal._fix(context)]: round a finite result to the context. *)
Definition fix_finite (s : bool) (c : N) (e : Z) : result decimal :=
  if (c =? 0)%N then Ok (Finite s 0 (Z.min (Z.max e Etiny) Emax))
  else
    let exp_min := ndigits c + e - prec in
    if exp_min >? Etop then Raise Overflow
    else
      let exp_min := Z.max exp_min Etiny in
      if e <? exp_min then
        let c1 := round_half_even c (exp_min - e) in
        let '(c2, e2) :=
          if ndigits c1 >? prec then ((c1 / 10)%N, exp_min + 1)
          else (c1, exp_min) in
        if e2 >? Etop then Raise Overflow else Ok (Finite s c2 e2)
      else Ok (Finite s c e).

(** [Decimal._check_nans]: a signaling NaN raises, a quiet one is the
    result; [None] when neither operand is a NaN. *)
Definition check_nans (a b : decimal) : option (result decimal) :=
  match a, b with
  | NaN _ true, _ => Some (Raise InvalidOperation)
  | _, NaN _ true => Some (Raise InvalidOperation)
  | NaN s false, _ => Some (Ok (NaN s false))
  | _, NaN s false => Some (Ok (NaN s false))
  | _, _ => None
  end.

(** [Decimal.__mul__] *)
Definition mul (a b : decimal) : result decimal :=
  match check_nans a b with
  | Some r => r
  | None =>
      match a, b with
      | Finite s1 c1 e1, Finite s2 c2 e2 =>
          fix_finite (xorb s1 s2) (c1 * c2) (e1 + e2)
      | Infinity s1, Finite s2 c2 _ =>
          if (c2 =? 0)%N then Raise InvalidOperation
          else Ok (Infinity (xorb s1 s2))
      | Finite s1 c1 _, Infinity s2 =>
          if (c1 =? 0)%N then Raise InvalidOperation
          else Ok (Infinity (xorb s1 s2))
      | Infinity s1, Infinity s2 => Ok (Infinity (xorb s1 s2))
      | _, _ => Raise InvalidOperation
      end
  end.

Fixpoint strip_zeros (fuel : nat) (c : N) (e ideal : Z) : N * Z :=
  match fuel with
  | O => (c, e)
  | S f =>
      if (e <? ideal) && (c mod 10 =? 0)%N
      then strip_zeros f (c / 10)%N (e + 1) ideal
      else (c, e)
  end.

(** [Decimal.__truediv__] *)
Definition truediv (a b : decimal) : result decimal :=
  match check_nans a b with
  | Some r => r
  | None =>
      match a, b with
      | Infinity _, Infinity _ => Raise InvalidOperation
      | Infinity s1, Finite s2 _ _ => Ok (Infinity (xorb s1 s2))
      | Finite s1 _ _, Infinity s2 => Ok (Finite (xorb s1 s2) 0 Etiny)
      | Finite s1 c1 e1, Finite s2 c2 e2 =>
          let s := xorb s1 s2 in
          if (c2 =? 0)%N then
            if (c1 =? 0)%N then Raise InvalidOperation
            else Raise DivisionByZero
          else if (c1 =? 0)%N then fix_finite s 0 (e1 - e2)
          else
            let shift := ndigits c2 - ndigits c1 + prec + 1 in
            let e := e1 - e2 - shift in
            let '(q, r) :=
              if shift >=? 0 then N.div_eucl (c1 * pow10 shift) c2
              else N.div_eucl c1 (c2 * pow10 (- shift)) in
            if (r =? 0)%N then
              let '(q', e') :=
                strip_zeros (Z.to_nat (e1 - e2 - e)) q e (e1 - e2) in
              fix_finite s q' e'
            else
              fix_finite s (if (q mod 5 =? 0)%N then q + 1 else q)%N e
      | _, _ => Raise InvalidOperation
      end
  end.

(** [Decimal.__add__]: the exact sum at the smaller exponent, then rounded
    to the context. *)
Definition add (a b : decimal) : result decimal :=
  match check_nans a b with
  | Some r => r
  | None =>
      match a, b with
      | Infinity s1, Infinity s2 =>
          if Bool.eqb s1 s2 then Ok (Infinity s1) else Raise InvalidOperation
      | Infinity s1, _ => Ok (Infinity s1)
      | _, Infinity s2 => Ok (Infinity s2)
      | Finite s1 c1 e1, Finite s2 c2 e2 =>
          let e := Z.min e1 e2 in
          let z1 := Z.of_N (c1 * pow10 (e1 - e)) in
          let z2 := Z.of_N (c2 * pow10 (e2 - e)) in
          let z := (if s1 then - z1 else z1) + (if s2 then - z2 else z2) in
          let s :=
            if z <? 0 then true
            else if 0 <? z then false
            else if (c1 =? 0)%N && (c2 =? 0)%N then s1 && s2
            else if (c1 =? 0)%N then s2
            else if (c2 =? 0)%N then s1
            else false in
          fix_finite s (Z.abs_N z) e
      | _, _ => Raise InvalidOperation
      end
  end.

(** [Decimal.quantize(exp)] for a finite [exp] operand with exponent
    [target]. *)
Definition quantize (a : decimal) (target : Z) : result decimal :=
  match a with
  | NaN _ true => Raise InvalidOperation
  | NaN s false => Ok (NaN s false)
  | Infinity _ => Raise InvalidOperation
  | Finite s c e =>
      if negb ((Etiny <=? target) && (target <=? Emax))
      then Raise InvalidOperation
      else if (c =? 0)%N then fix_finite s 0 target
      else
        let adjusted := e + ndigits c - 1 in
        if adjusted >? Emax then Raise InvalidOperation
        else if adjusted - target + 1 >? prec then Raise InvalidOperation
        else
          let c' := rescale c e target in
          if target + ndigits c' - 1 >? Emax then Raise InvalidOperation
          else if ndigits c' >? prec then Raise InvalidOperation
          else fix_finite s c' target
  end.

End Decimal.

(** ** Numeric literals in strings

  [float(s)] and [Decimal(s)] read the same decimal numerals: an optional
  sign, digits with an optional fractional part (at least one digit in
  all), an optional exponent; or an infinity or a NaN, in any letter case.
  Characters are bytes; non-ASCII digits and spaces are not represented. *)
Module Literal.

Inductive literal : Type :=
| LNum (neg : bool) (coeff : N) (exp : Z)
| LInf (neg : bool)
| LNaN (neg : bool) (signaling : bool) (payload : bool).

Definition is_space (a : ascii) : bool :=
  let n := N_of_ascii a in
  (((9 <=? n) && (n <=? 13)) || ((28 <=? n) && (n <=? 32)))%N.

Fixpoint lstrip (l : list ascii) : list ascii :=
  match l with
  | a :: l' => if is_space a then lstrip l' else l
  | [] => []
  end.

(** [str.strip()] *)
Definition strip (l : list ascii) : list ascii :=
  rev (lstrip (rev (lstrip l))).

(** [Py_ISSPACE], the white space of the C locale: what [float] strips
    from an ASCII string.  The separators 28 to 31, which [str.strip] and
    [Decimal] take for spaces, are not among them. *)
Definition is_c_space (a : ascii) : bool :=
  let n := N_of_ascii a in
  (((9 <=? n) && (n <=? 13)) || (n =? 32))%N.

Fixpoint lstrip_c (l : list ascii) : list ascii :=
  match l with
  | a :: l' => if is_c_space a then lstrip_c l' else l
  | [] => []
  end.

Definition strip_c (l : list ascii) : list ascii :=
  rev (lstrip_c (rev (lstrip_c l))).

Definition lower (a : ascii) : ascii :=
  let n := N_of_ascii a in
  if ((65 <=? n) && (n <=? 90))%N then ascii_of_N (n + 32) else a.

Definition digit_of (a : ascii) : option N :=
  let n := N_of_ascii a in
  if ((48 <=? n) && (n <=? 57))%N then Some (n - 48)%N else None.

Definition is_digit (a : ascii) : bool :=
  match digit_of a with Some _ => true | None => false end.

Fixpoint take_digits (l : list ascii) : list N * list ascii :=
  match l with
  | a :: l' =>
      match digit_of a with
      | Some d => let '(ds, r) := take_digits l' in (d :: ds, r)
      | None => ([], l)
      end
  | [] => ([], [])
  end.

Definition digits_value (ds : list N) : N :=
  fold_left (fun acc d => (acc * 10 + d)%N) ds 0%N.

Definition take_sign (l : list ascii) : bool * list ascii :=
  match l with
  | "-"%char :: l' => (true, l')
  | "+"%char :: l' => (false, l')
  | _ => (false, l)
  end.

(** The exponent part: [e] or [E], an optional sign, at least one digit,
    then the end of the input.  No exponent part reads as 0. *)
Definition parse_exponent (l : list ascii) : option Z :=
  match l with
  | [] => Some 0
  | a :: l' =>
      if Ascii.eqb (lower a) "e"%char then
        let '(neg, l1) := take_sign l' in
        match take_digits l1 with
        | (d :: ds, []) =>
            let v := Z.of_N (digits_value (d :: ds)) in
            Some (if neg then - v else v)
        | _ => None
        end
      else None
  end.

Definition parse_number (neg : bool) (l : list ascii) : option literal :=
  let '(ip, l1) := take_digits l in
  let '(fp, l2) :=
    match l1 with
    | "."%char :: l1' => take_digits l1'
    | _ => ([], l1)
    end in
  match ip ++ fp with
  | [] => None
  | ds =>
      match parse_exponent l2 with
      | Some e =>
          Some (LNum neg (digits_value ds) (e - Z.of_nat (List.length fp)))
      | None => None
      end
  end.

Definition word (l : list ascii) : string :=
  string_of_list_ascii (map lower l).

Definition parse_special (neg : bool) (l : list ascii) : option literal :=
  let w := word l in
  if String.eqb w "inf" || String.eqb w "infinity" then Some (LInf neg)
  else
    match map lower l with
    | "n"%char :: "a"%char :: "n"%char :: r =>
        if forallb is_digit r
        then Some (LNaN neg false (negb (Nat.eqb (List.length r) 0)))
        else None
    | "s"%char :: "n"%char :: "a"%char :: "n"%char :: r =>
        if forallb is_digit r
        then Some (LNaN neg true (negb (Nat.eqb (List.length r) 0)))
        else None
    | _ => None
    end.

(** A whole literal, with nothing before or after it. *)
Definition parse (l : list ascii) : option literal :=
  let '(neg, l1) := take_sign l in
  match parse_number neg l1 with
  | Some x => Some x
  | None => parse_special neg l1
  end.

(** [float] accepts an underscore only between two digits. *)
Fixpoint strip_underscores (prev : ascii) (l : list ascii)
    : option (list ascii) :=
  match l with
  | [] => if Ascii.eqb prev "_"%char then None else Some []
  | a :: l' =>
      if Ascii.eqb a "_"%char then
        if is_digit prev then strip_underscores a l' else None
      else if Ascii.eqb prev "_"%char && negb (is_digit a) then None
      else option_map (cons a) (strip_underscores a l')
  end.

End Literal.

(** ** Python [float] as IEEE 754 binary64 *)
Module Float.

Definition float : Type := spec_float.

Definition fprec : Z := 53.
Definition femax : Z := 1024.

(** The double nearest to the integer [z] (ties to even). *)
Definition of_Z (z : Z) : float := binary_normalize fprec femax z 0 false.

(** The double nearest to [num / den], for positive [num] and [den]. *)
Definition of_ratio (neg : bool) (num den : positive) : float :=
  SFdiv fprec femax (S754_finite neg num 0) (S754_finite false den 0).

Definition mul : float -> float -> float := SFmul fprec femax.
Definition div : float -> float -> float := SFdiv fprec femax.

(** [float(s)] for a string [s]: [ValueError] unless [s], stripped of C
    white space, is a numeral, an infinity or a plain NaN; the value is
    correctly rounded. *)
Definition of_string (s : string) : result float :=
  match Literal.strip_underscores " "%char
          (Literal.strip_c (list_ascii_of_string s)) with
  | None => Raise ValueError
  | Some l =>
      match Literal.parse l with
      | Some (Literal.LNum neg c e) =>
          match c with
          | N0 => Ok (S754_zero neg)
          | Npos p =>
              if e >=? 0 then
                let z := Z.of_N (c * Decimal.pow10 e) in
                Ok (binary_normalize fprec femax
                      (if neg then - z else z) 0 neg)
              else
                match Decimal.pow10 (- e) with
                | Npos d => Ok (of_ratio neg p d)
                | N0 => Raise ValueError
                end
          end
      | Some (Literal.LInf neg) => Ok (S754_infinity neg)
      | Some (Literal.LNaN _ false false) => Ok S754_nan
      | _ => Raise ValueError
      end
  end.

(** Divide [num] by [den], rounding half to even. *)
Definition div_half_even (num den : N) : N :=
  let q := (num / den)%N in
  let r := (num mod den)%N in
  match (2 * r ?= den)%N with
  | Lt => q
  | Eq => if N.even q then q else (q + 1)%N
  | Gt => (q + 1)%N
  end.

(** [round(x, 2)] on a float: the exact binary value is rounded half to
    even at two decimals and the decimal result is read back as the
    nearest double; infinities, NaN and integers round to themselves. *)
Definition round2 (x : float) : float :=
  match x with
  | S754_finite s m e =>
      if e >=? 0 then x
      else
        match div_half_even (Npos m * 100) (2 ^ Z.to_N (- e)) with
        | N0 => S754_zero s
        | Npos q => of_ratio s q 100
        end
  | _ => x
  end.

(** The absolute value of a finite float, as a rational: [m * 2^e]. *)
Definition magnitude (f : float) : Q :=
  match f with
  | S754_finite _ m e => (inject_Z (Zpos m) * 2 ^ e)%Q
  | _ => 0%Q
  end.

(** [y] lies within [tol] of [x]. *)
Definition within (x tol y : Q) : Prop :=
  (x - tol <= y /\ y <= x + tol)%Q.

(** The unit roundoff of binary64, [2^-53]. *)
Definition u : Q := 1 # (2 ^ 53).

(** A zero, or a finite float with a full mantissa of 53 bits and an
    exponent between -500 and 400: in absolute value from [2^-448] up to
    [2^453], far inside the normal range. *)
Definition moderate (f : float) : bool :=
  match f with
  | S754_zero _ => true
  | S754_finite _ m e =>
      (Zpos (digits2_pos m) =? 53) && (-500 <=? e) && (e <=? 400)
  | _ => false
  end.

(** A shift record [r] stands at the integer part of [N / D], and its two
    bits place the remainder of the division against the half. *)
Definition rec_ok (N D : Z) (r : shr_record) : Prop :=
  shr_m r = N / D /\
  shr_r r = (D <=? 2 * (N mod D)) /\
  shr_s r = negb (N mod D =? 0) && negb (2 * (N mod D) =? D).

(** The float is a zero, a finite number or an infinity of sign [s]. *)
Definition has_sign (s : bool) (f : Float.float) : Prop :=
  match f with
  | S754_zero s' | S754_infinity s' | S754_finite s' _ _ => s' = s
  | S754_nan => False
  end.

End Float.

(** ** Constructing and comparing decimals *)
Module DecimalConv.
Import Decimal.

(** [Decimal(s)] for a string: surrounding whitespace is stripped and every
    underscore removed; a malformed string signals [ConversionSyntax],
    which the default context raises as [InvalidOperation].  The
    constructor does not round. *)
Definition of_string (s : string) : result decimal :=
  let l := filter (fun a => negb (Ascii.eqb a "_"%char))
             (Literal.strip (list_ascii_of_string s)) in
  match Literal.parse l with
  | Some (Literal.LNum neg c e) => Ok (Finite neg c e)
  | Some (Literal.LInf neg) => Ok (Infinity neg)
  | Some (Literal.LNaN neg sig _) => Ok (NaN neg sig)
  | None => Raise InvalidOperation
  end.

(** [Decimal(n)] for an [int]. *)
Definition of_Z (z : Z) : decimal := Finite (z <? 0) (Z.abs_N z) 0.

Fixpoint ctz (p : positive) : Z :=
  match p with
  | xO p' => 1 + ctz p'
  | _ => 0
  end.

(** [Decimal(f)] for a [float]: the exact value of the double, from its
    integer ratio [n / 2^k] in lowest terms as [n * 5^k] with exponent
    [-k]. *)
Definition of_float (f : Float.float) : decimal :=
  match f with
  | S754_zero s => Finite s 0 0
  | S754_infinity s => Infinity s
  | S754_nan => NaN false false
  | S754_finite s m e =>
      if e >=? 0 then Finite s (Npos m * 2 ^ Z.to_N e) 0
      else
        let t := Z.min (ctz m) (- e) in
        let k := - e - t in
        Finite s (N.shiftr (Npos m) (Z.to_N t) * 5 ^ Z.to_N k) (- k)
  end.

(** The value of a finite decimal as an integer multiple of [10^e]. *)
Definition scaled (s : bool) (c : N) (e e0 : Z) : Z :=
  let z := Z.of_N (c * pow10 (e - e0)) in
  if s then - z else z.

(** Numeric comparison; [None] when an operand is a NaN. *)
Definition compare (a b : decimal) : option comparison :=
  match a, b with
  | NaN _ _, _ | _, NaN _ _ => None
  | Infinity s1, Infinity s2 =>
      Some (if s1 then if s2 then Eq else Lt else if s2 then Gt else Eq)
  | Infinity s1, Finite _ _ _ => Some (if s1 then Lt else Gt)
  | Finite _ _ _, Infinity s2 => Some (if s2 then Gt else Lt)
  | Finite s1 c1 e1, Finite s2 c2 e2 =>
      let e0 := Z.min e1 e2 in
      Some (scaled s1 c1 e1 e0 ?= scaled s2 c2 e2 e0)
  end.

Definition has_snan (a b : decimal) : bool :=
  match a, b with
  | NaN _ true, _ | _, NaN _ true => true
  | _, _ => false
  end.

(** [a == b]: a signaling NaN raises, a quiet NaN equals nothing. *)
Definition eqb (a b : decimal) : result bool :=
  if has_snan a b then Raise InvalidOperation
  else Ok match compare a b with Some Eq => true | _ => false end.

(** [f != d] for a float [f] and a decimal [d]: [float.__ne__] does not
    know [Decimal], so the reflected [Decimal.__eq__] decides, on the exact
    value of the float. *)
Definition float_ne (f : Float.float) (d : decimal) : result bool :=
  (b <- eqb d (of_float f) ;; Ok (negb b))%py.

(** A signaling NaN, which comparisons refuse. *)
Definition is_snan (d : decimal) : bool :=
  match d with NaN _ true => true | _ => false end.

(** [d >= 0] read as a predicate on states: true for finite numbers whose
    value is not negative and for plus infinity. *)
Definition nonneg (d : decimal) : bool :=
  match d with
  | Finite s c _ => negb s || (c =? 0)%N
  | Infinity s => negb s
  | NaN _ _ => false
  end.

End DecimalConv.

(** ** [datetime] on the proleptic Gregorian calendar

  Every reading of [now()] carries the same time zone object, so Python
  subtracts, adds to and replaces in the wall-clock fields alone. *)
Module Datetime.

Record datetime : Type := mkdt {
  year : Z;
  month : Z;
  day : Z;
  hour : Z;
  minute : Z;
  second : Z;
  microsecond : Z
}.

Definition MINYEAR : Z := 1.
Definition MAXYEAR : Z := 9999.

Definition is_leap (y : Z) : bool :=
  (y mod 4 =? 0) && (negb (y mod 100 =? 0) || (y mod 400 =? 0)).

Definition days_in_month (y m : Z) : Z :=
  if m =? 2 then (if is_leap y then 29 else 28)
  else if (m =? 4) || (m =? 6) || (m =? 9) || (m =? 11) then 30
  else 31.

Definition valid (t : datetime) : bool :=
  (MINYEAR <=? year t) && (year t <=? MAXYEAR) &&
  (1 <=? month t) && (month t <=? 12) &&
  (1 <=? day t) && (day t <=? days_in_month (year t) (month t)) &&
  (0 <=? hour t) && (hour t <? 24) &&
  (0 <=? minute t) && (minute t <? 60) &&
  (0 <=? second t) && (second t <? 60) &&
  (0 <=? microsecond t) && (microsecond t <? 1000000).

Definition days_before_year (y : Z) : Z :=
  let p := y - 1 in p * 365 + p / 4 - p / 100 + p / 400.

Fixpoint days_before_month_nat (y : Z) (m : nat) : Z :=
  match m with
  | O => 0
  | S m' => days_before_month_nat y m' + days_in_month y (Z.of_nat m)
  end.

Definition days_before_month (y m : Z) : Z :=
  days_before_month_nat y (Z.to_nat (m - 1)).

(** [date.toordinal()]: 1 for 0001-01-01. *)
Definition toordinal (t : datetime) : Z :=
  days_before_year (year t) + days_before_month (year t) (month t) + day t.

(** Microseconds from 0001-01-01 00:00:00 to [t] on the wall clock. *)
Definition to_microseconds (t : datetime) : Z :=
  ((((toordinal t - 1) * 24 + hour t) * 60 + minute t) * 60 + second t)
    * 1000000 + microsecond t.

(** A [timedelta], in microseconds. *)
Definition timedelta : Type := Z.

(** [a - b] *)
Definition sub (a b : datetime) : timedelta :=
  to_microseconds a - to_microseconds b.

(** [timedelta.total_seconds()]: the integer count of microseconds truly
    divided by [10**6], correctly rounded to a float. *)
Definition total_seconds (d : timedelta) : Float.float :=
  match d with
  | Z0 => S754_zero false
  | Zpos p => Float.of_ratio false p 1000000
  | Zneg p => Float.of_ratio true p 1000000
  end.

(** The day after a calendar date. *)
Definition next_day (t : datetime) : datetime :=
  if day t <? days_in_month (year t) (month t) then
    mkdt (year t) (month t) (day t + 1)
         (hour t) (minute t) (second t) (microsecond t)
  else if month t <? 12 then
    mkdt (year t) (month t + 1) 1
         (hour t) (minute t) (second t) (microsecond t)
  else
    mkdt (year t + 1) 1 1 (hour t) (minute t) (second t) (microsecond t).

Fixpoint iter_days (n : nat) (t : datetime) : datetime :=
  match n with
  | O => t
  | S n' => iter_days n' (next_day t)
  end.

(** [t + timedelta(days=n)] for [n >= 0]: the same wall-clock time [n]
    days later; [OverflowError] past year 9999. *)
Definition add_days (t : datetime) (n : nat) : result datetime :=
  let t' := iter_days n t in
  if year t' >? MAXYEAR then Raise OverflowError else Ok t'.

(** [t.replace(day=d)] for a day that every month has. *)
Definition replace_day (t : datetime) (d : Z) : datetime :=
  mkdt (year t) (month t) d (hour t) (minute t) (second t) (microsecond t).

(** [t.replace(hour=0, minute=0, second=0, microsecond=0)] *)
Definition replace_midnight (t : datetime) : datetime :=
  mkdt (year t) (month t) (day t) 0 0 0 0.

(** [t.replace(year=y, month=1, day=1, hour=0, minute=0, second=0,
    microsecond=0)]: [ValueError] when [y] is out of range. *)
Definition replace_new_year (t : datetime) (y : Z) : result datetime :=
  if (MINYEAR <=? y) && (y <=? MAXYEAR) then Ok (mkdt y 1 1 0 0 0 0)
  else Raise ValueError.

(** The first day of the month after [t]'s, at midnight. *)
Definition first_of_next_month (t : datetime) : datetime :=
  if month t =? 12 then mkdt (year t + 1) 1 1 0 0 0 0
  else mkdt (year t) (month t + 1) 1 0 0 0 0.

End Datetime.

(** ** State and exceptions together

  A method runs on a world (the object and the host) and either returns
  or raises; what it wrote before raising stays written. *)
Module Eff.

Definition M (W A : Type) : Type := W -> result A * W.

Definition ret {W A} (a : A) : M W A := fun w => (Ok a, w).

Definition bind {W A B} (c : M W A) (k : A -> M W B) : M W B :=
  fun w =>
    match c w with
    | (Ok a, w') => k a w'
    | (Raise e, w') => (Raise e, w')
    end.

Definition raise {W A} (e : exn) : M W A := fun w => (Raise e, w).

Definition lift {W A} (r : result A) : M W A := fun w => (r, w).

(** [try: body / except (names): handler].  The names of the clause are
    evaluated only once the body has raised; when that evaluation raises,
    the new exception replaces the one being handled. *)
Definition try_except {W A} (body : M W A) (names : list string)
    (handler : exn -> M W A) : M W A :=
  fun w =>
    match body w with
    | (Ok a, w') => (Ok a, w')
    | (Raise e, w') =>
        match Py.lookup_exceptions names with
        | Raise e' => (Raise e', w')
        | Ok classes =>
            if existsb (exn_eqb e) classes then handler e w'
            else (Raise e, w')
        end
    end.

End Eff.

Declare Scope eff_scope.
Notation "x <- c ;; k" := (Eff.bind c (fun x => k))
(at level 61, c at next level, right associativity) : eff_scope.
Notation "c ;; k" := (Eff.bind c (fun _ => k))
(at level 61, right associativity) : eff_scope.
Delimit Scope eff_scope with eff.

(** ** The host: logger, state machine writes, timers and tasks *)
Module Host.
Import Datetime.

Inductive level : Type := DEBUG | INFO | ERROR.

Definition handle : Type := nat.

(** What line 243 means to hand to [hass.async_create_task]: the removal
    of the timer with this handle.  The host has no [async_remove_job]
    (see [attributes]), so no such job is ever made. *)
Inductive job : Type := RemoveJob (h : handle).

Record hass : Type := mkhass {
  log : list (level * string);        (* records of [_LOGGER], oldest first *)
  writes : nat;                       (* calls of [async_write_ha_state] *)
  pending : list (handle * datetime); (* point-in-time timers still armed *)
  tasks : list job;                   (* tasks created, not yet run *)
  next_handle : handle;
  listeners : nat                     (* state-change subscriptions *)
}.

Definition empty : hass := mkhass [] 0%nat [] [] 0%nat 0%nat.

Definition add_log (l : level) (msg : string) (h : hass) : hass :=
  mkhass (log h ++ [(l, msg)]) (writes h) (pending h) (tasks h)
         (next_handle h) (listeners h).

Definition add_write (h : hass) : hass :=
  mkhass (log h) (S (writes h)) (pending h) (tasks h)
         (next_handle h) (listeners h).

(** [hass.async_create_task(job)]: the task is created; the event loop
    runs it after the running callback has returned to it. *)
Definition create_task (j : job) (h : hass) : hass :=
  mkhass (log h) (writes h) (pending h) (tasks h ++ [j])
         (next_handle h) (listeners h).

(** [async_track_point_in_time(hass, action, t)]: arms a one-shot timer
    and returns its handle. *)
Definition track_point_in_time (t : datetime) (h : hass) : handle * hass :=
  (next_handle h,
   mkhass (log h) (writes h) (pending h ++ [(next_handle h, t)]) (tasks h)
          (S (next_handle h)) (listeners h)).

Definition add_listener (h : hass) : hass :=
  mkhass (log h) (writes h) (pending h) (tasks h)
         (next_handle h) (S (listeners h)).

(** The attributes of the [HomeAssistant] object that the component
    names and the class has.  It has no [async_remove_job]. *)
Definition attributes : list string := [ "states"; "async_create_task" ].

(** [hass.name]: [AttributeError] for a name the object does not have. *)
Definition getattr (name : string) : result unit :=
  if Py.mem name attributes then Ok tt else Raise AttributeError.

End Host.

(** A Python object together with the host it lives in. *)
Module World.
Import Eff Host.

Definition world (O : Type) : Type := (O * hass)%type.

Definition self {O} : M (world O) O := fun w => (Ok (fst w), w).

Definition set_self {O} (o : O) : M (world O) unit :=
  fun w => (Ok tt, (o, snd w)).

Definition on_host {O} (f : hass -> hass) : M (world O) unit :=
  fun w => (Ok tt, (fst w, f (snd w))).

Definition logger {O} (l : level) (msg : string) : M (world O) unit :=
  on_host (add_log l msg).

Definition async_write_ha_state {O} : M (world O) unit :=
  on_host add_write.

(** Membership in [["unknown", "unavailable"]]. *)
Definition unavailable (s : string) : bool :=
  String.eqb s "unknown" || String.eqb s "unavailable".

(** [x.state] for the result [x] of a lookup that may be [None]. *)
Definition attr_state {W} (x : option string) : M W string :=
  match x with
  | Some s => ret s
  | None => raise AttributeError
  end.

End World.

(** ** [RealTimeCostSensor]: the rate calculator *)
Module RealTimeCostSensor.
Import Eff Host World Decimal.
Local Open Scope eff_scope.

Record t : Type := mk { _state : decimal }.

(** [__init__]: [self._state = Decimal(0)] *)
Definition init : t := mk (DecimalConv.of_Z 0).

(** Line 117: [round(electricity_price * (power_usage / 1000), 2)] *)
Definition calculated_cost (electricity_price power_usage : Float.float)
    : Float.float :=
  Float.round2
    (Float.mul electricity_price (Float.div power_usage (Float.of_Z 1000))).

(** Lines 105-110: the test that skips the update. *)
Definition skip (electricity_price power_usage : string) : bool :=
  String.eqb electricity_price "" || String.eqb power_usage ""
  || unavailable electricity_price || unavailable power_usage.

(** Lines 114-121, the body of the [try]. *)
Definition update (electricity_price power_usage : string)
    : M (world t) unit :=
  electricity_price <- lift (Float.of_string electricity_price) ;;
  power_usage <- lift (Float.of_string power_usage) ;;
  let cost := calculated_cost electricity_price power_usage in
  me <- self ;;
  changed <- lift (DecimalConv.float_ne cost (_state me)) ;;
  if changed : bool then
    set_self (mk (DecimalConv.of_float cost)) ;;
    async_write_ha_state ;;
    logger DEBUG "Updated Real Time Energy Cost"
  else ret tt.

(** [handle_state_change(event)], lines 88-123.  [new_state] is
    [event.data.get("new_state")], [None] or the state string of the
    entity that changed; [price] and [power] are what [hass.states.get]
    returns for the two configured entities. *)
Definition handle_state_change (new_state price power : option string)
    : M (world t) unit :=
  match new_state with
  | None =>
      (* the log message reads [new_state.state] *)
      raise AttributeError
  | Some s =>
      if unavailable s then logger INFO "State is unavailable, skipping update."
      else
        electricity_price <- attr_state price ;;
        power_usage <- attr_state power ;;
        if skip electricity_price power_usage then
          logger INFO
            "One or more sensor values are unavailable, skipping update."
        else
          try_except (update electricity_price power_usage)
            ["ValueError"]
            (fun _ => logger ERROR "Error converting sensor data to float")
  end.

End RealTimeCostSensor.

(** ** [UtilityMeterSensor]: the accumulator *)
Module UtilityMeterSensor.
Import Eff Host World Decimal Datetime.
Local Open Scope eff_scope.

(** The members of [intervals] in [async_setup_entry]. *)
Inductive interval : Type := daily | monthly | yearly.

(** [self._state] holds a [Decimal], or the [int] that [async_reset]
    stores. *)
Inductive number : Type :=
| Int (z : Z)
| Dec (d : decimal).

Record t : Type := mk {
  _interval : interval;
  _state : number;
  _last_update : datetime;
  _reset_timer : option handle   (* [None]: the attribute is not set *)
}.

(** [Decimal("0.00")] *)
Definition zero_cents : decimal := Finite false 0 (-2).

(** [__init__], with [now] the clock reading of line 169. *)
Definition init (i : interval) (now : datetime) : t :=
  mk i (Dec zero_cents) now None.

Definition set_state (v : number) : M (world t) unit :=
  me <- self ;;
  set_self (mk (_interval me) v (_last_update me) (_reset_timer me)).

Definition set_last_update (d : datetime) : M (world t) unit :=
  me <- self ;;
  set_self (mk (_interval me) (_state me) d (_reset_timer me)).

Definition set_reset_timer (h : handle) : M (world t) unit :=
  me <- self ;;
  set_self (mk (_interval me) (_state me) (_last_update me) (Some h)).

(** [calculate_next_reset_time], lines 201-227, on the reading
    [current_time] of [now()]. *)
Definition next_reset (i : interval) (current_time : datetime)
    : result datetime :=
  match i with
  | daily =>
      (d <- add_days current_time 1 ;; Ok (replace_midnight d))%py
  | monthly =>
      (d <- add_days (replace_day current_time 1) 32 ;;
       Ok (replace_midnight (replace_day d 1)))%py
  | yearly => replace_new_year current_time (year current_time + 1)
  end.

Definition calculate_next_reset_time (current_time : datetime)
    : M (world t) datetime :=
  me <- self ;;
  r <- lift (next_reset (_interval me) current_time) ;;
  logger DEBUG "Calculated next reset time" ;;
  ret r.

(** [async_reset], lines 229-234. *)
Definition async_reset : M (world t) unit :=
  logger DEBUG "Resetting cost" ;;
  set_state (Int 0) ;;
  async_write_ha_state.

(** [schedule_next_reset], lines 236-252, on one reading of [now()].
    With a handle held, line 243 looks up [async_create_task] and then,
    for the argument, [async_remove_job], which the host does not have:
    [AttributeError] leaves the method before anything is cancelled or
    armed, and the rest of the line is never run. *)
Definition schedule_next_reset (now : datetime) : M (world t) unit :=
  next_reset_time <- calculate_next_reset_time now ;;
  me <- self ;;
  match _reset_timer me with
  | Some old =>
      lift (getattr "async_create_task") ;;
      lift (getattr "async_remove_job") ;;
      on_host (create_task (RemoveJob old))
  | None => ret tt
  end ;;
  logger DEBUG "Scheduling next reset" ;;
  h <- (fun w => let '(h, hs) := track_point_in_time next_reset_time (snd w)
                 in (Ok h, (fst w, hs))) ;;
  set_reset_timer h ;;
  logger DEBUG "Next reset scheduled successfully.".

(** [_reset_meter], lines 254-260: [now1] is the reading of line 257,
    [now2] the one taken inside [schedule_next_reset]. *)
Definition _reset_meter (now1 now2 : datetime) : M (world t) unit :=
  set_state (Dec zero_cents) ;;
  set_last_update now1 ;;
  async_write_ha_state ;;
  schedule_next_reset now2 ;;
  logger DEBUG "Meter reset. Next reset scheduled.".

(** [self._state += q] for a [Decimal] [q]; on an [int] the reflected
    [Decimal.__radd__] converts it. *)
Definition iadd (v : number) (q : decimal) : result decimal :=
  match v with
  | Dec d => Decimal.add d q
  | Int z => Decimal.add q (DecimalConv.of_Z z)
  end.

(** Lines 276-279: the hours between [last] and the reading [now]. *)
Definition hours_passed (now last : datetime) : result decimal :=
  Decimal.truediv
    (DecimalConv.of_float (total_seconds (sub now last)))
    (DecimalConv.of_Z 3600).

(** Line 284: [(current_cost * hours_passed).quantize(Decimal("0.01"))] *)
Definition increment (current_cost hours : decimal) : result decimal :=
  (p <- Decimal.mul current_cost hours ;; Decimal.quantize p (-2))%py.

(** Lines 271-289, the body of the [try]: [now1] is the reading of line
    276, [now2] the reading of line 285. *)
Definition accumulate (state : string) (now1 now2 : datetime)
    : M (world t) unit :=
  current_cost <- lift (DecimalConv.of_string state) ;;
  logger DEBUG "Current cost retrieved from state" ;;
  me <- self ;;
  hours <- lift (hours_passed now1 (_last_update me)) ;;
  logger DEBUG "Time difference calculated" ;;
  q <- lift (increment current_cost hours) ;;
  v <- lift (iadd (_state me) q) ;;
  set_state (Dec v) ;;
  set_last_update now2 ;;
  async_write_ha_state ;;
  logger DEBUG "Updated state".

(** [_handle_real_time_cost_update(event)], lines 262-291. *)
Definition _handle_real_time_cost_update (new_state : option string)
    (now1 now2 : datetime) : M (world t) unit :=
  match new_state with
  | None => logger DEBUG "Skipping update due to unavailable state"
  | Some s =>
      if unavailable s
      then logger DEBUG "Skipping update due to unavailable state"
      else
        try_except (accumulate s now1 now2)
          ["InvalidOperation"; "TypeError"]
          (fun _ => logger ERROR "Error updating cumulative cost")
  end.

(** Lines 179-186 of [async_added_to_hass]: [last_state] is what
    [async_get_last_state()] returns, [None] or a stored state string. *)
Definition restore (last_state : option string) : M (world t) unit :=
  match last_state with
  | None => ret tt
  | Some s =>
      if unavailable s then ret tt
      else
        try_except
          (d <- lift (DecimalConv.of_string s) ;; set_state (Dec d))
          ["InvalidOperation"]
          (fun _ => logger ERROR "Invalid state value for restoration")
  end.

(** [async_added_to_hass], lines 175-199.  The call of the base class is
    the host's; the subscription of lines 192-199 is taken not to raise. *)
Definition async_added_to_hass (last_state : option string)
    (now : datetime) : M (world t) unit :=
  restore last_state ;;
  schedule_next_reset now ;;
  logger DEBUG "Registering state change event" ;;
  on_host add_listener.

End UtilityMeterSensor.

(** ** Runs of an accumulator *)
Module Runs.
Import Eff Host World Decimal Datetime UtilityMeterSensor.

(** Clock readings used in the examples. *)
Definition t0 : datetime := mkdt 2024 3 15 10 0 0 0.
Definition t0_30min : datetime := mkdt 2024 3 15 10 30 0 0.

(** [value >= 0] for what [self._state] can hold. *)
Definition value_nonneg (v : number) : bool :=
  match v with
  | Int z => 0 <=? z
  | Dec d => DecimalConv.nonneg d
  end.

(** The state string, when there is one that [Decimal] reads, reads as a
    number that is not negative. *)
Definition reads_nonneg (state : option string) : bool :=
  match state with
  | Some s =>
      match DecimalConv.of_string s with
      | Ok d => DecimalConv.nonneg d
      | Raise _ => true
      end
  | None => true
  end.

(** The states an accumulator goes through when every restored value and
    every rate reads as a number that is not negative and the clock is
    never read earlier than the stored timestamp. *)
Inductive reachable (i : interval) (now0 : datetime) (h0 : hass)
    : world t -> Prop :=
| reach_init : reachable i now0 h0 (init i now0, h0)
| reach_startup w last_state now :
    reachable i now0 h0 w ->
    reads_nonneg last_state = true ->
    reachable i now0 h0 (snd (async_added_to_hass last_state now w))
| reach_update w new_state now1 now2 :
    reachable i now0 h0 w ->
    reads_nonneg new_state = true ->
    to_microseconds (_last_update (fst w)) <= to_microseconds now1 ->
    reachable i now0 h0
      (snd (_handle_real_time_cost_update new_state now1 now2 w))
| reach_reset_meter w now1 now2 :
    reachable i now0 h0 w ->
    reachable i now0 h0 (snd (_reset_meter now1 now2 w))
| reach_async_reset w :
    reachable i now0 h0 w ->
    reachable i now0 h0 (snd (async_reset w))
| reach_schedule w now :
    reachable i now0 h0 w ->
    reachable i now0 h0 (snd (schedule_next_reset now w)).

(** The event loop, as far as the timers go: a pending timer fires once
    and calls [_reset_meter]; a created task runs and removes the timer
    whose handle it was given. *)
Definition set_pending (p : list (handle * datetime)) (h : hass) : hass :=
  mkhass (log h) (writes h) p (tasks h) (next_handle h) (listeners h).

Definition fire (now1 now2 : datetime) (w : world t) : world t :=
  match pending (snd w) with
  | [] => w
  | _ :: rest =>
      snd (_reset_meter now1 now2 (fst w, set_pending rest (snd w)))
  end.

Definition run_task (w : world t) : world t :=
  match tasks (snd w) with
  | [] => w
  | RemoveJob old :: rest =>
      (fst w,
       mkhass (log (snd w)) (writes (snd w))
         (filter (fun p => negb (Nat.eqb (fst p) old)) (pending (snd w)))
         rest (next_handle (snd w)) (listeners (snd w)))
  end.

(** The calls the component itself makes: start-up once, then timer
    firings, rate updates and tasks, in any order. *)
Inductive runs (i : interval) (now0 : datetime) : world t -> Prop :=
| runs_startup last_state now :
    runs i now0
      (snd (async_added_to_hass last_state now (init i now0, Host.empty)))
| runs_fire w now1 now2 :
    runs i now0 w -> runs i now0 (fire now1 now2 w)
| runs_update w new_state now1 now2 :
    runs i now0 w ->
    runs i now0 (snd (_handle_real_time_cost_update new_state now1 now2 w))
| runs_task w :
    runs i now0 w -> runs i now0 (run_task w).

(** The timers over a whole run.  Either start-up armed no timer, and
    then none is ever armed; or it armed one, the object holds its handle
    for good, and that timer is the only one ever armed.  No task is ever
    created. *)
Definition timers_ok (w : world t) : Prop :=
  tasks (snd w) = [] /\
  ((_reset_timer (fst w) = None /\ pending (snd w) = []
    /\ next_handle (snd w) = 0%nat)
   \/ (_reset_timer (fst w) = Some 0%nat
       /\ (List.length (pending (snd w)) <= 1)%nat
       /\ next_handle (snd w) = 1%nat)).

End Runs.

(** ** Values met on the way *)
Module Values.
Import Decimal UtilityMeterSensor.

(** What [async_added_to_hass] leaves in [self._state] when the restore
    returns: the stored string as a decimal, or the value held before when
    nothing usable is stored. *)
Definition restored_value (last_state : option string) (held : number)
    : result number :=
  match last_state with
  | None => Ok held
  | Some s =>
      if World.unavailable s then Ok held
      else (d <- DecimalConv.of_string s ;; Ok (Dec d))%py
  end.

(** The sum of a zero total and [q]: [q] itself, a negative zero turning
    into a positive one. *)
Definition onto_zero (q : decimal) : decimal :=
  match q with
  | Finite s c e => if (c =? 0)%N then Finite false 0 e else q
  | _ => q
  end.

Definition is_nan (v : number) : bool :=
  match v with
  | Dec (NaN _ _) => true
  | _ => false
  end.

(** The rate handler meets a [None] where it reads [.state]: the event
    carries no new state, or the event is usable and the host knows no
    state for the price or the power entity. *)
Definition missing_state (new_state price power : option string) : bool :=
  match new_state with
  | None => true
  | Some s =>
      if World.unavailable s then false
      else
        match price, power with
        | Some _, Some _ => false
        | _, _ => true
        end
  end.

End Values.

(** ** Python [str] methods used for names

    Characters are bytes: the methods are modelled on ASCII, where entity
    ids live. *)
Module Text.
Import Literal.

Definition is_lower (a : ascii) : bool :=
  let n := N_of_ascii a in ((97 <=? n) && (n <=? 122))%N.

Definition is_upper (a : ascii) : bool :=
  let n := N_of_ascii a in ((65 <=? n) && (n <=? 90))%N.

Definition upper (a : ascii) : ascii :=
  if is_lower a then ascii_of_N (N_of_ascii a - 32) else a.

(** [s.lower()] *)
Definition lower_all (l : list ascii) : list ascii := map lower l.

(** [s.title()]: a letter that follows a letter is lowered, every other
    letter is raised. *)
Fixpoint title_from (previous_is_cased : bool) (l : list ascii)
    : list ascii :=
  match l with
  | [] => []
  | a :: l' =>
      if is_lower a then
        (if previous_is_cased then a else upper a) :: title_from true l'
      else if is_upper a then
        (if previous_is_cased then lower a else a) :: title_from true l'
      else a :: title_from false l'
  end.

Definition title (l : list ascii) : list ascii := title_from false l.

(** [s.split(".")[-1]]: what follows the last dot. *)
Fixpoint last_component_from (cur l : list ascii) : list ascii :=
  match l with
  | [] => rev cur
  | a :: l' =>
      if Ascii.eqb a "."%char then last_component_from [] l'
      else last_component_from (a :: cur) l'
  end.

Definition last_component (l : list ascii) : list ascii :=
  last_component_from [] l.

(** [s.replace("_", " ")] *)
Definition underscores_to_spaces (l : list ascii) : list ascii :=
  map (fun a => if Ascii.eqb a "_"%char then " "%char else a) l.

(** [s.split()]: the maximal runs of characters that are not spaces. *)
Fixpoint words_from (cur l : list ascii) : list (list ascii) :=
  match l with
  | [] => match cur with [] => [] | _ => [rev cur] end
  | a :: l' =>
      if is_space a then
        match cur with
        | [] => words_from [] l'
        | _ => rev cur :: words_from [] l'
        end
      else words_from (a :: cur) l'
  end.

Definition words (l : list ascii) : list (list ascii) := words_from [] l.

(** [" ".join(ws)] *)
Fixpoint join (ws : list (list ascii)) : list ascii :=
  match ws with
  | [] => []
  | [w] => w
  | w :: ws' => w ++ " "%char :: join ws'
  end.

Fixpoint prefix (p l : list ascii) : bool :=
  match p, l with
  | [], _ => true
  | a :: p', b :: l' => Ascii.eqb a b && prefix p' l'
  | _ :: _, [] => false
  end.

(** [s.replace(old, "")] for a non-empty [old]: the occurrences of [old]
    are found from the left, without overlap, and dropped. *)
Fixpoint remove_from (fuel : nat) (old l : list ascii) : list ascii :=
  match fuel with
  | O => l
  | S f =>
      match l with
      | [] => []
      | a :: l' =>
          if prefix old l then remove_from f old (skipn (List.length old) l)
          else a :: remove_from f old l'
      end
  end.

Definition remove (old l : list ascii) : list ascii :=
  remove_from (S (List.length l)) old l.

(** [old] starts at none of the first [List.length f] places of
    [f ++ old]. *)
Definition only_at_end (old f : list ascii) : bool :=
  forallb (fun k => negb (prefix old (skipn k (f ++ old))))
    (seq 0 (List.length f)).

(** The first character, if there is one, is no space. *)
Definition head_ok (l : list ascii) : Prop :=
  match l with
  | [] => True
  | a :: _ => is_space a = false
  end.

(** A word as [split] gives them: not empty, and free of spaces. *)
Definition good (w : list ascii) : Prop :=
  w <> [] /\ Forall (fun a => is_space a = false) w.

End Text.

(** ** The entities and their names *)
Module Entities.
Import Datetime Text.

(** [RealTimeCostSensor.__init__], lines 45-57: the friendly name made
    from the power sensor's entity id. *)
Definition friendly_name (power_sensor_id : string) : string :=
  let base_part := last_component (list_ascii_of_string power_sensor_id) in
  let parts := words (underscores_to_spaces base_part) in
  let parts :=
    filter (fun word =>
              negb (String.eqb (string_of_list_ascii (lower_all word))
                      "power")) parts in
  string_of_list_ascii (title (join parts)).

Record rate_entity : Type := mkrate {
  rate_sensor : RealTimeCostSensor.t;
  entry_id : string;
  _electricity_price_sensor_id : option string;
  _power_sensor_id : string;
  _base_name : string;
  _device_name : string
}.

(** [RealTimeCostSensor.__init__]: [power_sensor_id.split(".")] raises
    [AttributeError] on [None].  The debug record of line 41 goes to the
    module's logger and is left out. *)
Definition rate_init (entry : string) (price power : option string)
    : result rate_entity :=
  match power with
  | None => Raise AttributeError
  | Some p =>
      let friendly := friendly_name p in
      Ok (mkrate RealTimeCostSensor.init entry price p
            (friendly ++ " Real Time Energy Cost")
            (friendly ++ " Dynamic Energy Cost"))
  end.

(** [RealTimeCostSensor.unique_id] *)
Definition rate_unique_id (r : rate_entity) : string :=
  entry_id r ++ "_" ++ _power_sensor_id r ++ "_real_time_cost".

Definition interval_name (i : UtilityMeterSensor.interval) : string :=
  match i with
  | UtilityMeterSensor.daily => "daily"
  | UtilityMeterSensor.monthly => "monthly"
  | UtilityMeterSensor.yearly => "yearly"
  end.

Record meter_entity : Type := mkmeter {
  meter : UtilityMeterSensor.t;
  _real_time_cost_sensor : rate_entity;
  _name : string
}.

Definition phrase : string := " Real Time Energy Cost".

(** [UtilityMeterSensor.__init__], lines 170-173. *)
Definition meter_name (rate_name : string)
    (i : UtilityMeterSensor.interval) : string :=
  let base_name :=
    string_of_list_ascii
      (Literal.strip
         (remove (list_ascii_of_string phrase)
            (list_ascii_of_string rate_name))) in
  base_name ++ " "
    ++ string_of_list_ascii (title (list_ascii_of_string (interval_name i)))
    ++ " Energy Cost".

(** [UtilityMeterSensor.__init__], with [now] the clock reading. *)
Definition meter_init (r : rate_entity) (i : UtilityMeterSensor.interval)
    (now : datetime) : meter_entity :=
  mkmeter (UtilityMeterSensor.init i now) r (meter_name (_base_name r) i).

(** [UtilityMeterSensor.unique_id] *)
Definition meter_unique_id (m : meter_entity) : string :=
  rate_unique_id (_real_time_cost_sensor m) ++ "_"
    ++ interval_name (UtilityMeterSensor._interval (meter m)).

(** [async_setup_entry], lines 137-156: [data] is [config_entry.data]; the
    three readings are those of the meters' constructors, in order.  The
    result is what is handed to [async_add_entities]. *)
Definition async_setup_entry (entry : string)
    (data : list (string * option string)) (now_d now_m now_y : datetime)
    : result (rate_entity * list meter_entity) :=
  let get k := match Py.assoc k data with Some v => v | None => None end in
  (r <- rate_init entry (get "electricity_price_sensor")
          (get "power_sensor") ;;
   Ok (r, [ meter_init r UtilityMeterSensor.daily now_d;
            meter_init r UtilityMeterSensor.monthly now_m;
            meter_init r UtilityMeterSensor.yearly now_y ]))%py.

End Entities.

(** ** The configuration flow, [config_flow.py] *)
Module ConfigFlow.

(** Names bound in the module namespace of [config_flow.py]: its imports
    (lines 1-7), [_LOGGER] and its two classes. *)
Definition module_globals : list string :=
  [ "logging"; "vol"; "config_entries"; "data_entry_flow"; "callback";
    "cv"; "selector"; "DOMAIN"; "ELECTRICITY_PRICE_SENSOR"; "POWER_SENSOR";
    "ENERGY_SENSOR"; "_LOGGER"; "DynamicEnergyCostConfigFlow";
    "DynamicEnergyCostOptionsFlow" ].

(** What the step can raise: [vol.Invalid], [KeyError], or a builtin
    exception. *)
Inductive exc : Type :=
| Invalid
| KeyError
| Other (e : exn).

Inductive level : Type := DEBUG | INFO | WARNING | ERROR.

(** A value of the submitted form: [None] or a [str]. *)
Definition value : Type := option string.

Definition user_input : Type := list (string * value).

(** What the step hands back to the host.  The schema and the description
    placeholders of the form are constants and are left out. *)
Inductive flow_result : Type :=
| create_entry (title : string) (data : user_input)
| show_form (step_id : string) (errors : list (string * string)).

(** Log records so far, and a returned value or a raised exception. *)
Definition M (A : Type) : Type := list (level * string) * (A + exc).

Definition ret {A} (a : A) : M A := ([], inl a).

Definition raise {A} (e : exc) : M A := ([], inr e).

Definition log (l : level) (msg : string) : M unit := ([(l, msg)], inl tt).

Definition bind {A B} (c : M A) (k : A -> M B) : M B :=
  match c with
  | (w, inl a) => let '(w', r) := k a in (w ++ w', r)
  | (w, inr e) => (w, inr e)
  end.

Declare Scope flow_scope.
Delimit Scope flow_scope with flow.
Notation "x <- c ;; k" := (bind c (fun x => k))
(at level 61, c at next level, right associativity) : flow_scope.
Notation "c ;; k" := (bind c (fun _ => k))
(at level 61, right associativity) : flow_scope.

Definition truthy (v : value) : bool :=
  match v with
  | Some s => negb (String.eqb s "")
  | None => false
  end.

(** [user_input.get(k)] *)
Definition get (u : user_input) (k : string) : value :=
  match Py.assoc k u with
  | Some v => v
  | None => None
  end.

(** [user_input[k]] *)
Definition item (u : user_input) (k : string) : M value :=
  match Py.assoc k u with
  | Some v => ret v
  | None => raise KeyError
  end.

(** [raise name.attr(...)]: the name is evaluated first, and an unbound
    one raises [NameError]. *)
Definition raise_from (name : string) (attr : exc) : M unit :=
  if Py.mem name module_globals then raise attr
  else raise (Other NameError).

Section Flow.

(** [cv.entity_id] of the host: it returns for the values it accepts and
    raises [vol.Invalid] for the others. *)
Variable accepts : value -> bool.

Definition entity_id (v : value) : M unit :=
  if accepts v then ret tt else raise Invalid.

(** Lines 27-54, the body of the [try]. *)
Definition validate (u : user_input) : M flow_result :=
  (price <- item u "electricity_price_sensor" ;;
   entity_id price ;;
   (if truthy (get u "power_sensor")
    then (v <- item u "power_sensor" ;; entity_id v) else ret tt) ;;
   (if truthy (get u "energy_sensor")
    then (v <- item u "energy_sensor" ;; entity_id v) else ret tt) ;;
   (if negb (truthy (get u "power_sensor"))
         && negb (truthy (get u "energy_sensor"))
    then log WARNING "Neither power nor energy sensor was provided." ;;
         raise_from "exceptions" Invalid
    else ret tt) ;;
   (if truthy (get u "power_sensor") && truthy (get u "energy_sensor")
    then log WARNING "Both power and energy sensors were provided." ;;
         raise_from "exceptions" Invalid
    else ret tt) ;;
   price' <- item u "electricity_price_sensor" ;;
   let config :=
     [ ("electricity_price_sensor", price');
       ("power_sensor", get u "power_sensor");
       ("energy_sensor", get u "energy_sensor") ] in
   log INFO "Config entry created successfully." ;;
   ret (create_entry "Dynamic Energy Cost" config))%flow.

(** [DynamicEnergyCostConfigFlow.async_step_user], lines 18-87:
    [except vol.Invalid] catches [vol.Invalid] and nothing else. *)
Definition async_step_user (input : option user_input) : M flow_result :=
  (log DEBUG "Initiating config flow for user." ;;
   match input with
   | None => ret (show_form "user" [])
   | Some u =>
       log INFO "Received user input: %s" ;;
       match validate u with
       | (w, inl r) => (w, inl r)
       | (w, inr Invalid) =>
           (w, inl tt) ;;
           log ERROR "Validation error: %s" ;;
           ret (show_form "user" [("base", "invalid_entity")])
       | (w, inr e) => (w, inr e)
       end
   end)%flow.

(** Every value that the step hands to [cv.entity_id] is accepted. *)
Definition all_accepted (u : user_input) (price : value) : bool :=
  accepts price
  && (negb (truthy (get u "power_sensor")) || accepts (get u "power_sensor"))
  && (negb (truthy (get u "energy_sensor"))
      || accepts (get u "energy_sensor")).

End Flow.

(** The entry that the step creates from an input with this price
    sensor. *)
Definition entry_of (u : user_input) (price : value) : flow_result :=
  create_entry "Dynamic Energy Cost"
    [ ("electricity_price_sensor", price);
      ("power_sensor", get u "power_sensor");
      ("energy_sensor", get u "energy_sensor") ].

(** [DynamicEnergyCostOptionsFlow.async_step_user], lines 109-145: the
    form again, whatever was submitted. *)
Definition options_step_user (input : option user_input) : flow_result :=
  show_form "user" [].

(** [DynamicEnergyCostOptionsFlow.async_step_init] *)
Definition options_step_init (input : option user_input) : flow_result :=
  options_step_user input.

End ConfigFlow.

(** * Properties *)

(** ** Binary rounding: the error of [float] arithmetic *)
Module BinaryRounding.

Lemma div_twice (N D : Z) : 0 < D -> 0 <= N -> N / (2 * D) = N / D / 2.
Proof. intros. Z.div_mod_to_equations. nia. Qed.

Lemma mod_twice (N D : Z) :
  0 < D -> 0 <= N -> N mod (2 * D) = N mod D + D * ((N / D) mod 2).
Proof.
  intros HD HN.
  pose proof (Z.div_mod N (2 * D) ltac:(lia)) as H1.
  rewrite (div_twice N D HD HN) in H1.
  pose proof (Z.div_mod N D ltac:(lia)) as H2.
  pose proof (Z.div_mod (N / D) 2 ltac:(lia)) as H3.
  nia.
Qed.

Lemma digits2_bounds (p : positive) :
  2 ^ (Zpos (digits2_pos p) - 1) <= Zpos p < 2 ^ Zpos (digits2_pos p).
Proof.
  induction p as [p IH|p IH|]; cbn [digits2_pos]; [| |cbn; lia];
    rewrite Pos2Z.inj_succ;
    replace (Z.succ (Zpos (digits2_pos p)) - 1)
      with (Z.succ (Zpos (digits2_pos p) - 1)) by lia;
    rewrite !Z.pow_succ_r by lia; lia.
Qed.

Lemma shr_1_eq (m : Z) (rb sb : bool) :
  0 <= m ->
  shr_1 (Build_shr_record m rb sb)
  = Build_shr_record (m / 2) (Z.odd m) (rb || sb).
Proof.
  intros Hm. destruct m as [|[p|p|]|p]; cbn [shr_1]; try lia.
  - reflexivity.
  - f_equal. Z.div_mod_to_equations. lia.
  - f_equal. Z.div_mod_to_equations. lia.
  - reflexivity.
Qed.

Lemma shr_1_ok (N D : Z) (r : shr_record) :
  0 < D -> 0 <= N -> Float.rec_ok N D r -> Float.rec_ok N (2 * D) (shr_1 r).
Proof.
  intros HD HN. destruct r as [m rb sb]. unfold Float.rec_ok.
  cbn [shr_m shr_r shr_s]. intros (Hm & Hr & Hs).
  assert (H0 : 0 <= m) by (rewrite Hm; apply Z.div_pos; lia).
  rewrite (shr_1_eq m rb sb H0). cbn [shr_m shr_r shr_s].
  rewrite (mod_twice N D HD HN), (div_twice N D HD HN), <- Hm.
  pose proof (Z.mod_pos_bound N D HD) as Hb.
  rewrite Hr, Hs. rewrite Zodd_mod.
  assert (Hc : m mod 2 = 0 \/ m mod 2 = 1)
    by (Z.div_mod_to_equations; lia).
  split; [reflexivity|].
  destruct Hc as [-> | ->]; cbn [Z.eqb];
    repeat match goal with
    | |- context [?a <=? ?b] => destruct (Z.leb_spec a b)
    | |- context [?a =? ?b] => destruct (Z.eqb_spec a b)
    end; cbn; split; try reflexivity; try lia.
Qed.

Lemma pow2_xO (p : positive) : 2 ^ Zpos p~0 = 2 ^ Zpos p * 2 ^ Zpos p.
Proof.
  replace (Zpos p~0) with (Zpos p + Zpos p) by lia.
  apply Z.pow_add_r; lia.
Qed.

Lemma pow2_xI (p : positive) :
  2 ^ Zpos p~1 = 2 * (2 ^ Zpos p * 2 ^ Zpos p).
Proof.
  replace (Zpos p~1) with (Z.succ (Zpos p + Zpos p)) by lia.
  rewrite Z.pow_succ_r, Z.pow_add_r by lia. reflexivity.
Qed.

Lemma iter_shr_1_ok (p : positive) (N D : Z) (r : shr_record) :
  0 < D -> 0 <= N -> Float.rec_ok N D r ->
  Float.rec_ok N (D * 2 ^ Zpos p) (iter_pos shr_1 p r).
Proof.
  revert D r. induction p as [p IH|p IH|]; intros D r HD HN H;
    cbn [iter_pos].
  - replace (D * 2 ^ Zpos p~1) with (2 * D * 2 ^ Zpos p * 2 ^ Zpos p)
      by (rewrite pow2_xI; ring).
    pose proof (Z.pow_pos_nonneg 2 (Zpos p) eq_refl ltac:(lia)) as Hp.
    apply IH; [nia|exact HN|].
    apply IH; [lia|exact HN|]. apply shr_1_ok; assumption.
  - replace (D * 2 ^ Zpos p~0) with (D * 2 ^ Zpos p * 2 ^ Zpos p)
      by (rewrite pow2_xO; ring).
    pose proof (Z.pow_pos_nonneg 2 (Zpos p) eq_refl ltac:(lia)) as Hp.
    apply IH; [nia|exact HN|].
    apply IH; assumption.
  - rewrite Z.pow_1_r, Z.mul_comm. apply shr_1_ok; assumption.
Qed.

Lemma record_of_loc_ok (N D m : Z) (l : location) :
  0 < D -> 0 <= N -> m = N / D ->
  l = (if N mod D =? 0 then loc_Exact
       else loc_Inexact (2 * (N mod D) ?= D)) ->
  Float.rec_ok N D (shr_record_of_loc m l).
Proof.
  intros HD HN -> ->. unfold Float.rec_ok.
  pose proof (Z.mod_pos_bound N D HD) as Hb.
  destruct (Z.eqb_spec (N mod D) 0) as [E|E].
  - cbn [shr_record_of_loc shr_m shr_r shr_s]. repeat split.
    symmetry. apply Z.leb_gt. lia.
  - destruct (Z.compare_spec (2 * (N mod D)) D);
      cbn [shr_record_of_loc shr_m shr_r shr_s];
      repeat split;
      repeat match goal with
      | |- context [?a <=? ?b] => destruct (Z.leb_spec a b)
      | |- context [?a =? ?b] => destruct (Z.eqb_spec a b)
      end; cbn [negb andb]; try reflexivity; try lia.
Qed.

(** Rounding to nearest with ties to even, from the record. *)
Lemma round_record (N D : Z) (r : shr_record) :
  0 < D -> 0 <= N -> Float.rec_ok N D r ->
  let m := round_nearest_even (shr_m r) (loc_of_shr_record r) in
  2 * Z.abs (m * D - N) <= D /\
  N / D <= m <= N / D + 1 /\
  (N mod D = 0 -> m = N / D).
Proof.
  intros HD HN. destruct r as [m rb sb]. unfold Float.rec_ok.
  cbn [shr_m shr_r shr_s]. intros (Hm & Hr & Hs).
  pose proof (Z.mod_pos_bound N D HD) as Hb.
  pose proof (Z.div_mod N D ltac:(lia)) as Hd.
  rewrite <- Hm in *.
  destruct rb, sb; cbn [loc_of_shr_record round_nearest_even];
    symmetry in Hr, Hs;
    repeat match goal with
    | H : (_ <=? _) = true |- _ => apply Z.leb_le in H
    | H : (_ <=? _) = false |- _ => apply Z.leb_gt in H
    | H : _ && _ = true |- _ => apply andb_true_iff in H; destruct H
    | H : _ && _ = false |- _ => apply andb_false_iff in H
    | H : negb _ = true |- _ => apply negb_true_iff in H
    | H : negb _ = false |- _ => apply negb_false_iff in H
    | H : (_ =? _) = true |- _ => apply Z.eqb_eq in H
    | H : (_ =? _) = false |- _ => apply Z.eqb_neq in H
    end.
  - repeat split; nia.
  - destruct Hs as [Hs|Hs];
      repeat match goal with
      | H : negb _ = false |- _ => apply negb_false_iff in H
      | H : (_ =? _) = true |- _ => apply Z.eqb_eq in H
      end; [lia|].
    destruct (Z.even m); repeat split; nia.
  - repeat split; nia.
  - destruct Hs as [Hs|Hs];
      repeat match goal with
      | H : negb _ = false |- _ => apply negb_false_iff in H
      | H : (_ =? _) = true |- _ => apply Z.eqb_eq in H
      end; [|lia].
    repeat split; nia.
Qed.

Lemma Zdigits2_small (prec m : Z) :
  0 < m -> m < 2 ^ prec -> 0 <= prec -> Zdigits2 m <= prec.
Proof.
  intros Hm Hlt Hp. destruct m as [|p|p]; try lia. cbn [Zdigits2].
  pose proof (digits2_bounds p) as [Hl _].
  destruct (Z.le_gt_cases (Zpos (digits2_pos p)) prec) as [H|H]; [exact H|].
  exfalso.
  assert (2 ^ prec <= 2 ^ (Zpos (digits2_pos p) - 1))
    by (apply Z.pow_le_mono_r; lia).
  lia.
Qed.

Lemma Zdigits2_pow (prec : Z) :
  0 <= prec -> Zdigits2 (2 ^ prec) = prec + 1.
Proof.
  intros Hp.
  pose proof (Z.pow_pos_nonneg 2 prec eq_refl Hp) as Hpos.
  destruct (2 ^ prec) as [|p|p] eqn:E; try lia. cbn [Zdigits2].
  pose proof (digits2_bounds p) as [Hl Hu]. rewrite <- E in Hl, Hu.
  apply Z.pow_le_mono_r_iff in Hl; [|lia|lia].
  apply Z.pow_lt_mono_r_iff in Hu; [|lia|lia].
  lia.
Qed.

Section Aux.
Variables prec emax : Z.
Hypothesis Hprec : 0 < prec.

Lemma shr_fexp_ok (mx ex N D : Z) (lx : location) :
  0 < D -> 0 <= N -> mx = N / D ->
  lx = (if N mod D =? 0 then loc_Exact
        else loc_Inexact (2 * (N mod D) ?= D)) ->
  let k := Z.max 0 (fexp prec emax (Zdigits2 mx + ex) - ex) in
  exists r, shr_fexp prec emax mx ex lx = (r, ex + k)
            /\ Float.rec_ok N (D * 2 ^ k) r.
Proof.
  intros HD HN Hm Hl k. unfold shr_fexp, shr.
  pose proof (record_of_loc_ok N D mx lx HD HN Hm Hl) as H0.
  subst k.
  destruct (fexp prec emax (Zdigits2 mx + ex) - ex) as [|p|p] eqn:E.
  - exists (shr_record_of_loc mx lx). cbn [Z.max Z.compare].
    rewrite Z.add_0_r, Z.mul_1_r. auto.
  - exists (iter_pos shr_1 p (shr_record_of_loc mx lx)).
    replace (Z.max 0 (Zpos p)) with (Zpos p) by lia.
    split; [reflexivity|]. apply iter_shr_1_ok; assumption.
  - exists (shr_record_of_loc mx lx).
    replace (Z.max 0 (Zneg p)) with 0 by lia.
    rewrite Z.add_0_r, Z.mul_1_r. auto.
Qed.

Lemma binary_round_aux_normal (sx : bool) (mx ex N D : Z) (lx : location) :
  0 < D -> 0 <= N -> 0 < mx -> mx = N / D ->
  lx = (if N mod D =? 0 then loc_Exact
        else loc_Inexact (2 * (N mod D) ?= D)) ->
  emin prec emax <= Zdigits2 mx + ex - prec ->
  let kr := Z.max 0 (Zdigits2 mx - prec) in
  exists m k,
    binary_round_aux prec emax sx mx ex lx
    = (if ex + k <=? emax - prec then S754_finite sx m (ex + k)
       else S754_infinity sx)
    /\ kr <= k <= kr + 1
    /\ Zpos m < 2 ^ prec
    /\ (prec <= Zdigits2 mx -> 2 ^ (prec - 1) <= Zpos m)
    /\ 2 * Z.abs (Zpos m * 2 ^ k * D - N) <= 2 ^ kr * D
    /\ (N mod D = 0 -> Zdigits2 mx <= prec -> Zpos m = mx /\ k = 0).
Proof.
  intros HD HN Hmx Hm Hl Hnorm kr.
  assert (Hf : fexp prec emax (Zdigits2 mx + ex) - ex = Zdigits2 mx - prec)
    by (unfold fexp; lia).
  destruct (shr_fexp_ok mx ex N D lx HD HN Hm Hl) as (r1 & E1 & Hr1).
  rewrite Hf in E1, Hr1. fold kr in E1, Hr1.
  assert (Hkr : 0 <= kr) by (unfold kr; lia).
  pose proof (Z.pow_pos_nonneg 2 kr eq_refl Hkr) as Hpk.
  assert (HD1 : 0 < D * 2 ^ kr) by nia.
  pose proof (round_record N (D * 2 ^ kr) r1 HD1 HN Hr1) as Hround.
  cbn zeta in Hround.
  set (m2 := round_nearest_even (shr_m r1) (loc_of_shr_record r1)) in *.
  destruct Hround as (Herr & Hbetween & Hexact).
  (* the shifted mantissa is below 2^prec *)
  assert (Hdig : N / (D * 2 ^ kr) < 2 ^ prec /\ 0 < N / (D * 2 ^ kr)
                 /\ (prec <= Zdigits2 mx
                     -> 2 ^ (prec - 1) <= N / (D * 2 ^ kr))
                 \/ False).
  { left.
    replace (N / (D * 2 ^ kr)) with (mx / 2 ^ kr)
      by (rewrite Hm, Z.div_div by lia; reflexivity).
    destruct mx as [|p|p]; try lia. cbn [Zdigits2] in *.
    pose proof (digits2_bounds p) as [Hlo Hhi].
    destruct (Z.le_gt_cases (Zpos (digits2_pos p)) prec) as [Hc|Hc].
    - replace kr with 0 by (unfold kr; lia). rewrite Z.pow_0_r, Z.div_1_r.
      split; [|split; [lia|]].
      + eapply Z.lt_le_trans; [exact Hhi|]. apply Z.pow_le_mono_r; lia.
      + intros Hge. replace prec with (Zpos (digits2_pos p)) by lia.
        exact Hlo.
    - replace kr with (Zpos (digits2_pos p) - prec) in * by (unfold kr; lia).
      assert (E2 : 2 ^ Zpos (digits2_pos p)
                   = 2 ^ prec * 2 ^ (Zpos (digits2_pos p) - prec))
        by (rewrite <- Z.pow_add_r by lia; f_equal; lia).
      assert (E3 : 2 ^ (Zpos (digits2_pos p) - 1)
                   = 2 ^ (prec - 1) * 2 ^ (Zpos (digits2_pos p) - prec))
        by (rewrite <- Z.pow_add_r by lia; f_equal; lia).
      pose proof (Z.pow_pos_nonneg 2 (prec - 1) eq_refl ltac:(lia)).
      split; [|split].
      + apply Z.div_lt_upper_bound; [lia|]. lia.
      + apply Z.div_str_pos. split; [lia|]. nia.
      + intros _. apply Z.div_le_lower_bound; [lia|]. lia. }
  destruct Hdig as [(Hlt & Hpos & Hnormd)|[]].
  assert (Hm2 : 0 < m2 <= 2 ^ prec) by lia.
  assert (He1 : emin prec emax <= ex + kr) by (unfold kr; lia).
  unfold binary_round_aux. rewrite E1. fold m2.
  destruct (Z.eq_dec m2 (2 ^ prec)) as [Ecarry|Ecarry].
  - (* the rounding carried into a new digit *)
    assert (E4 : fexp prec emax (Zdigits2 m2 + (ex + kr)) - (ex + kr) = 1).
    { rewrite Ecarry, Zdigits2_pow by lia. unfold fexp. lia. }
    unfold shr_fexp, shr. rewrite E4.
    cbn [shr_record_of_loc iter_pos].
    rewrite (shr_1_eq m2 false false) by lia. cbn [shr_m].
    assert (E5 : m2 / 2 = 2 ^ (prec - 1)).
    { rewrite Ecarry.
      replace prec with (Z.succ (prec - 1)) at 1 by lia.
      rewrite Z.pow_succ_r by lia.
      rewrite Z.mul_comm, Z.div_mul by lia. reflexivity. }
    rewrite E5.
    pose proof (Z.pow_pos_nonneg 2 (prec - 1) eq_refl ltac:(lia)) as Hpp.
    destruct (2 ^ (prec - 1)) as [|p|p] eqn:E6; try lia.
    exists p, (kr + 1).
    rewrite Z.add_assoc. split; [reflexivity|].
    split; [lia|]. split.
    { rewrite <- E6. apply Z.pow_lt_mono_r; lia. }
    split; [intros _; lia|].
    split.
    { rewrite <- E6, Z.pow_add_r, Z.pow_1_r by lia.
      replace (2 ^ (prec - 1) * (2 ^ kr * 2) * D)
        with (2 * 2 ^ (prec - 1) * (D * 2 ^ kr)) by ring.
      replace (2 * 2 ^ (prec - 1)) with (2 ^ prec)
        by (replace prec with (Z.succ (prec - 1)) at 1 by lia;
            rewrite Z.pow_succ_r by lia; reflexivity).
      rewrite <- Ecarry. rewrite (Z.mul_comm (2 ^ kr) D). exact Herr. }
    intros Hz Hd. exfalso.
    specialize (Hexact ltac:(replace kr with 0 in * by (unfold kr; lia);
                             rewrite Z.pow_0_r, Z.mul_1_r; exact Hz)).
    lia.
  - assert (E4 : fexp prec emax (Zdigits2 m2 + (ex + kr)) - (ex + kr) <= 0).
    { pose proof (Zdigits2_small prec m2 ltac:(lia) ltac:(lia) ltac:(lia)).
      unfold fexp. lia. }
    unfold shr_fexp, shr.
    destruct (fexp prec emax (Zdigits2 m2 + (ex + kr)) - (ex + kr))
      as [|p|p]; try lia; cbn [shr_record_of_loc shr_m];
      (destruct m2 as [|p2|p2] eqn:E6; try lia;
       exists p2, kr;
       split; [reflexivity|];
       split; [lia|]; split; [lia|];
       split; [intros Hge; specialize (Hnormd Hge); lia|]; split;
       [rewrite <- Z.mul_assoc, (Z.mul_comm (2 ^ kr) D); exact Herr|];
       intros Hz Hd;
       replace kr with 0 in * by (unfold kr; lia);
       rewrite Z.pow_0_r, Z.mul_1_r in *;
       split; [rewrite (Hexact Hz); symmetry; exact Hm|reflexivity]).
Qed.

(** The relative error of the rounding, on the integer side. *)
Lemma relative_error (mx N D m k : Z) :
  0 < D -> 0 <= N -> 0 < mx -> mx = N / D ->
  let kr := Z.max 0 (Zdigits2 mx - prec) in
  2 * Z.abs (m * 2 ^ k * D - N) <= 2 ^ kr * D ->
  (N mod D = 0 -> Zdigits2 mx <= prec -> m = mx /\ k = 0) ->
  prec <= Zdigits2 mx \/ N mod D = 0 ->
  2 ^ prec * Z.abs (m * 2 ^ k * D - N) <= N.
Proof.
  intros HD HN Hmx Hm kr Herr Hexact Hcase.
  pose proof (Z.div_mod N D ltac:(lia)) as Hdm.
  pose proof (Z.mod_pos_bound N D HD) as Hb.
  destruct (Z.le_gt_cases prec (Zdigits2 mx)) as [Hge|Hlt].
  - destruct mx as [|p|p]; try lia. cbn [Zdigits2] in *.
    pose proof (digits2_bounds p) as [Hlo _].
    replace kr with (Zpos (digits2_pos p) - prec) in * by (unfold kr; lia).
    assert (E : 2 ^ prec * 2 ^ (Zpos (digits2_pos p) - prec)
                = 2 * 2 ^ (Zpos (digits2_pos p) - 1)).
    { rewrite <- Z.pow_add_r by lia. rewrite <- Z.pow_succ_r by lia.
      f_equal. lia. }
    pose proof (Z.pow_pos_nonneg 2 prec eq_refl ltac:(lia)).
    nia.
  - destruct Hcase as [Hc|Hz]; [lia|].
    destruct (Hexact Hz ltac:(lia)) as [-> ->].
    rewrite Z.pow_0_r, Z.mul_1_r.
    replace (mx * D - N) with 0 by nia. cbn. lia.
Qed.

Lemma Zdigits2_large (d m : Z) :
  0 < m -> 2 ^ (d - 1) <= m -> d <= Zdigits2 m.
Proof.
  intros Hm Hge. destruct m as [|p|p]; try lia. cbn [Zdigits2].
  pose proof (digits2_bounds p) as [_ Hu].
  destruct (Z.le_gt_cases d (Zpos (digits2_pos p))) as [H|H]; [exact H|].
  exfalso.
  assert (2 ^ Zpos (digits2_pos p) <= 2 ^ (d - 1))
    by (apply Z.pow_le_mono_r; lia).
  lia.
Qed.

Lemma new_location_spec (D r : Z) :
  0 < D -> 0 <= r < D ->
  new_location D r
  = (if r =? 0 then loc_Exact else loc_Inexact (2 * r ?= D)).
Proof.
  intros HD Hr. unfold new_location, new_location_even, new_location_odd.
  destruct (Z.even D) eqn:Hev; [reflexivity|].
  destruct (Z.eqb_spec r 0); [reflexivity|]. f_equal.
  assert (Hodd : D mod 2 = 1).
  { rewrite <- Z.negb_odd in Hev. apply negb_false_iff in Hev.
    rewrite Zodd_mod in Hev. apply Z.eqb_eq in Hev. exact Hev. }
  destruct (Z.compare_spec (2 * r + 1) D);
    destruct (Z.compare_spec (2 * r) D); try reflexivity;
    Z.div_mod_to_equations; lia.
Qed.

Lemma shifted_mantissa (m s : Z) :
  0 <= s ->
  match s with
  | 0 => m
  | Zpos _ => Z.shiftl m s
  | Zneg _ => 0
  end = m * 2 ^ s.
Proof.
  intros Hs. destruct s as [|p|p]; try lia.
  apply Z.shiftl_mul_pow2. lia.
Qed.

(** Division of two finite numbers whose quotient lies in the normal
    range. *)
Lemma SFdiv_normal (s1 s2 : bool) (m1 m2 : positive) (e1 e2 : Z) :
  let z := Zpos (digits2_pos m1) + e1 - Zpos (digits2_pos m2) - e2 in
  emin prec emax + prec <= z -> z + 2 <= emax ->
  exists m e e' k s,
    SFdiv prec emax (S754_finite s1 m1 e1) (S754_finite s2 m2 e2)
    = S754_finite (xorb s1 s2) m e
    /\ 2 ^ (prec - 1) <= Zpos m < 2 ^ prec
    /\ z - prec <= e <= z + 2 - prec
    /\ e = e' + k /\ e1 - e2 = e' + s /\ 0 <= k /\ 0 <= s
    /\ 2 ^ prec * Z.abs (Zpos m * 2 ^ k * Zpos m2 - Zpos m1 * 2 ^ s)
       <= Zpos m1 * 2 ^ s.
Proof.
  intros z Hlo Hhi. unfold SFdiv, SFdiv_core_binary.
  cbn [Zdigits2].
  set (d1 := Zpos (digits2_pos m1)) in *.
  set (d2 := Zpos (digits2_pos m2)) in *.
  replace (d1 + e1 - (d2 + e2)) with z by (unfold z; lia).
  assert (Hf : fexp prec emax z = z - prec) by (unfold fexp; lia).
  rewrite Hf.
  set (e' := Z.min (z - prec) (e1 - e2)).
  set (s := e1 - e2 - e').
  assert (Hs : 0 <= s) by (unfold s, e'; lia).
  set (m' := match s with
             | 0 => Zpos m1
             | Zpos _ => Z.shiftl (Zpos m1) s
             | Zneg _ => 0
             end).
  assert (Em' : m' = Zpos m1 * 2 ^ s)
    by (unfold m'; apply shifted_mantissa; exact Hs).
  clearbody m'.
  pose proof (Z.pow_pos_nonneg 2 s eq_refl Hs) as Hps.
  pose proof (digits2_bounds m1) as [Hl1 Hu1]. fold d1 in Hl1, Hu1.
  pose proof (digits2_bounds m2) as [Hl2 Hu2]. fold d2 in Hl2, Hu2.
  assert (Hd1 : 0 < d1) by (unfold d1; lia).
  assert (Hd2 : 0 < d2) by (unfold d2; lia).
  pose proof (Z_div_mod m' (Zpos m2) eq_refl) as Hdm.
  assert (Hq : Z.div_eucl m' (Zpos m2) = (m' / Zpos m2, m' mod Zpos m2))
    by (unfold Z.div, Z.modulo; destruct (Z.div_eucl m' (Zpos m2));
        reflexivity).
  rewrite Hq.
  set (q := m' / Zpos m2) in *. set (r := m' mod Zpos m2) in *.
  pose proof (Z.mod_pos_bound m' (Zpos m2) eq_refl) as Hr. fold r in Hr.
  pose proof (Z.div_mod m' (Zpos m2) ltac:(lia)) as Hqr.
  fold q r in Hqr.
  (* the quotient has at least prec digits *)
  assert (Hqlo : 2 ^ (prec - 1) <= q /\ 2 ^ (d1 + s - d2 - 1) <= q).
  { assert (Hs2 : prec <= d1 + s - d2) by (unfold s, e', z; lia).
    assert (2 ^ (d1 + s - d2 - 1) <= q).
    { apply Z.div_le_lower_bound; [lia|].
      assert (E : 2 ^ (d1 + s - d2 - 1) * 2 ^ d2 = 2 ^ (d1 - 1) * 2 ^ s).
      { rewrite <- !Z.pow_add_r by lia. f_equal. lia. }
      pose proof (Z.pow_pos_nonneg 2 (d1 + s - d2 - 1) eq_refl ltac:(lia)).
      nia. }
    split; [|assumption].
    eapply Z.le_trans; [|eassumption]. apply Z.pow_le_mono_r; lia. }
  destruct Hqlo as [Hqlo Hqlo2].
  pose proof (Z.pow_pos_nonneg 2 (prec - 1) eq_refl ltac:(lia)) as Hpp.
  assert (Hqpos : 0 < q) by lia.
  assert (Hqhi : q < 2 ^ (d1 + s - d2 + 1)).
  { apply Z.div_lt_upper_bound; [lia|].
    assert (E : 2 ^ (d2 - 1) * 2 ^ (d1 + s - d2 + 1) = 2 ^ d1 * 2 ^ s).
    { rewrite <- !Z.pow_add_r by (unfold s, e', z; lia). f_equal. lia. }
    pose proof (Z.pow_pos_nonneg 2 (d1 + s - d2 + 1) eq_refl
                  ltac:(unfold s, e', z; lia)).
    nia. }
  assert (Hdq1 : prec <= Zdigits2 q) by (apply Zdigits2_large; lia).
  assert (Hdq2 : d1 + s - d2 <= Zdigits2 q)
    by (apply Zdigits2_large; lia).
  assert (Hdq3 : Zdigits2 q <= d1 + s - d2 + 1)
    by (apply Zdigits2_small; unfold s, e', z in *; lia).
  destruct (binary_round_aux_normal (xorb s1 s2) q e' m' (Zpos m2)
              (new_location (Zpos m2) r) eq_refl ltac:(lia) Hqpos eq_refl)
    as (m & k & Hres & Hk & Hmhi & Hmlo & Herr & Hexact).
  { rewrite new_location_spec by lia. reflexivity. }
  { unfold s, e', z in *. lia. }
  exists m, (e' + k), e', k, s.
  replace (Z.max 0 (Zdigits2 q - prec)) with (Zdigits2 q - prec) in *
    by lia.
  split.
  { rewrite Hres.
    destruct (Z.leb_spec (e' + k) (emax - prec)) as [_|Hov];
      [reflexivity|].
    exfalso. unfold s, e', z in *. lia. }
  split; [split; [apply Hmlo; lia|exact Hmhi]|].
  split; [unfold s, e', z in *; lia|].
  split; [reflexivity|]. split; [unfold s; lia|].
  split; [lia|]. split; [exact Hs|].
  rewrite <- Em'.
  apply (relative_error q m' (Zpos m2) (Zpos m) k
           ltac:(lia) ltac:(lia) Hqpos eq_refl).
  - replace (Z.max 0 (Zdigits2 q - prec)) with (Zdigits2 q - prec) by lia.
    exact Herr.
  - exact Hexact.
  - left. exact Hdq1.
Qed.

Lemma digits2_mul (mx my : positive) :
  Zpos (digits2_pos mx) + Zpos (digits2_pos my) - 1
  <= Zpos (digits2_pos (mx * my))
  <= Zpos (digits2_pos mx) + Zpos (digits2_pos my).
Proof.
  pose proof (digits2_bounds mx) as [Hl1 Hu1].
  pose proof (digits2_bounds my) as [Hl2 Hu2].
  pose proof (Z.pow_pos_nonneg 2 (Zpos (digits2_pos mx) - 1) eq_refl
                ltac:(lia)).
  pose proof (Z.pow_pos_nonneg 2 (Zpos (digits2_pos my) - 1) eq_refl
                ltac:(lia)).
  split.
  - change (Zpos (digits2_pos (mx * my))) with (Zdigits2 (Zpos (mx * my))).
    apply Zdigits2_large; [lia|].
    replace (Zpos (digits2_pos mx) + Zpos (digits2_pos my) - 1 - 1)
      with ((Zpos (digits2_pos mx) - 1) + (Zpos (digits2_pos my) - 1))
      by lia.
    rewrite Z.pow_add_r by lia. rewrite Pos2Z.inj_mul. nia.
  - change (Zpos (digits2_pos (mx * my))) with (Zdigits2 (Zpos (mx * my))).
    apply Zdigits2_small; [lia| |lia].
    rewrite Z.pow_add_r by lia. rewrite Pos2Z.inj_mul. nia.
Qed.

(** The product of two finite numbers with full mantissas, in the normal
    range. *)
Lemma SFmul_normal (sx sy : bool) (mx my : positive) (ex ey : Z) :
  let z := Zpos (digits2_pos mx) + ex + Zpos (digits2_pos my) + ey in
  prec <= Zpos (digits2_pos mx) + Zpos (digits2_pos my) - 1 ->
  emin prec emax + prec <= z - 1 -> z + 1 <= emax ->
  exists m k,
    SFmul prec emax (S754_finite sx mx ex) (S754_finite sy my ey)
    = S754_finite (xorb sx sy) m (ex + ey + k)
    /\ 2 ^ (prec - 1) <= Zpos m < 2 ^ prec
    /\ z - 1 - prec <= ex + ey + k <= z + 1 - prec
    /\ 0 <= k
    /\ 2 ^ prec * Z.abs (Zpos m * 2 ^ k - Zpos mx * Zpos my)
       <= Zpos mx * Zpos my.
Proof.
  intros z Hdig Hlo Hhi. unfold SFmul.
  pose proof (digits2_mul mx my) as Hd.
  destruct (binary_round_aux_normal (xorb sx sy) (Zpos (mx * my))
              (ex + ey) (Zpos (mx * my)) 1 loc_Exact
              eq_refl ltac:(lia) ltac:(lia))
    as (m & k & Hres & Hk & Hmhi & Hmlo & Herr & Hexact).
  { rewrite Z.div_1_r. reflexivity. }
  { rewrite Z.mod_1_r. reflexivity. }
  { cbn [Zdigits2]. unfold z in *. lia. }
  cbn [Zdigits2] in *.
  exists m, k.
  split.
  { rewrite Hres.
    destruct (Z.leb_spec (ex + ey + k) (emax - prec)) as [_|Hov];
      [reflexivity|].
    exfalso. unfold z in *. lia. }
  split; [split; [apply Hmlo; lia|exact Hmhi]|].
  split; [unfold z in *; lia|]. split; [lia|].
  pose proof (relative_error (Zpos (mx * my)) (Zpos (mx * my)) 1
                (Zpos m) k eq_refl ltac:(lia) ltac:(lia)
                ltac:(rewrite Z.div_1_r; reflexivity)) as Hrel.
  cbn zeta in Hrel. cbn [Zdigits2] in Hrel.
  rewrite !Z.mul_1_r in Hrel. rewrite Z.mul_1_r in Herr.
  rewrite <- Pos2Z.inj_mul.
  apply Hrel.
  - rewrite Z.mul_1_r in Herr. exact Herr.
  - exact Hexact.
  - left. lia.
Qed.

End Aux.

Lemma rational_bound (A N D P : Z) (t : Q) :
  0 < D -> 0 < P -> (0 < t)%Q ->
  P * Z.abs (A * D - N) <= N ->
  let x := (inject_Z N / inject_Z D * t)%Q in
  (x - x / inject_Z P <= inject_Z A * t
   /\ inject_Z A * t <= x + x / inject_Z P)%Q.
Proof.
  intros HD HP Ht Hb x.
  assert (H1 : P * N <= P * (A * D) + N) by lia.
  assert (H2 : P * (A * D) <= N + P * N) by lia.
  rewrite Zle_Qle in H1, H2.
  rewrite ?inject_Z_plus, ?inject_Z_mult in H1, H2.
  assert (Hd : (0 < inject_Z D)%Q) by (rewrite (Zlt_Qlt 0 D) in HD; exact HD).
  assert (Hp : (0 < inject_Z P)%Q) by (rewrite (Zlt_Qlt 0 P) in HP; exact HP).
  set (a := inject_Z A) in *. set (n := inject_Z N) in *.
  set (d := inject_Z D) in *. set (p := inject_Z P) in *.
  assert (Hk : (0 < t / (d * p))%Q).
  { apply Qlt_shift_div_l; [nra|]. lra. }
  split.
  - apply Qle_minus_iff.
    assert (E : (a * t + - (x - x / p) == t / (d * p) * (p * (a * d - n) + n))%Q).
    { unfold x. field. split; lra. }
    rewrite E. apply Qmult_le_0_compat; lra.
  - apply Qle_minus_iff.
    assert (E : (x + x / p + - (a * t) == t / (d * p) * (n - p * (a * d - n)))%Q).
    { unfold x. field. split; lra. }
    rewrite E. apply Qmult_le_0_compat; lra.
Qed.

Lemma pow2_pos (e : Z) : (0 < 2 ^ e)%Q.
Proof. apply Qpower_0_lt. reflexivity. Qed.

Lemma pow2_add (a b : Z) : (2 ^ (a + b) == 2 ^ a * 2 ^ b)%Q.
Proof. apply Qpower_plus. discriminate. Qed.

Lemma pow2_inject (k : Z) : 0 <= k -> (inject_Z (2 ^ k) == 2 ^ k)%Q.
Proof. intros Hk. apply Zpower_Qpower. exact Hk. Qed.

Lemma magnitude_pos (s : bool) (m : positive) (e : Z) :
  (0 < Float.magnitude (S754_finite s m e))%Q.
Proof.
  cbn [Float.magnitude]. apply Qmult_lt_0_compat; [|apply pow2_pos].
  rewrite <- (Zlt_Qlt 0). lia.
Qed.

Lemma mul_magnitude (sx sy : bool) (mx my : positive) (ex ey : Z) :
  let z := Zpos (digits2_pos mx) + ex + Zpos (digits2_pos my) + ey in
  53 <= Zpos (digits2_pos mx) + Zpos (digits2_pos my) - 1 ->
  -1020 <= z -> z <= 1023 ->
  exists m e,
    SFmul 53 1024 (S754_finite sx mx ex) (S754_finite sy my ey)
    = S754_finite (xorb sx sy) m e
    /\ Zpos (digits2_pos m) = 53
    /\ z - 1 <= 53 + e <= z + 1
    /\ (let x := (Float.magnitude (S754_finite sx mx ex)
                  * Float.magnitude (S754_finite sy my ey))%Q in
        x - x * Float.u <= Float.magnitude (S754_finite (xorb sx sy) m e)
        /\ Float.magnitude (S754_finite (xorb sx sy) m e) <= x + x * Float.u)%Q.
Proof.
  intros z Hd Hlo Hhi.
  destruct (SFmul_normal 53 1024 eq_refl sx sy mx my ex ey Hd)
    as (m & k & Hres & Hm & He & Hk & Hb).
  { unfold emin. fold z. lia. }
  { fold z. lia. }
  fold z in He.
  exists m, (ex + ey + k). split; [exact Hres|].
  split.
  { change (Zpos (digits2_pos m)) with (Zdigits2 (Zpos m)).
    apply Z.le_antisymm;
      [apply Zdigits2_small; lia|apply Zdigits2_large; lia]. }
  split; [lia|].
  pose proof (rational_bound (Zpos m * 2 ^ k) (Zpos mx * Zpos my) 1
                (2 ^ 53) (2 ^ (ex + ey))%Q eq_refl eq_refl
                (pow2_pos _)) as H.
  rewrite Z.mul_1_r in H. specialize (H Hb). cbn zeta in H.
  cbn [Float.magnitude].
  assert (E1 : (inject_Z (Zpos m * 2 ^ k) * 2 ^ (ex + ey)
                == inject_Z (Zpos m) * 2 ^ (ex + ey + k))%Q).
  { rewrite inject_Z_mult, pow2_inject by lia.
    rewrite (pow2_add (ex + ey) k). ring. }
  assert (E2 : (inject_Z (Zpos mx * Zpos my) / inject_Z 1 * 2 ^ (ex + ey)
                == inject_Z (Zpos mx) * 2 ^ ex
                   * (inject_Z (Zpos my) * 2 ^ ey))%Q).
  { rewrite inject_Z_mult, (pow2_add ex ey). field. }
  rewrite E1, E2 in H.
  assert (E3 : (inject_Z (2 ^ 53) == / Float.u)%Q) by reflexivity.
  destruct H as [H1 H2]. unfold Qdiv in H1, H2.
  rewrite E3, Qinv_involutive in H1, H2.
  split; assumption.
Qed.

Lemma div_magnitude (s1 s2 : bool) (m1 m2 : positive) (e1 e2 : Z) :
  let z := Zpos (digits2_pos m1) + e1 - Zpos (digits2_pos m2) - e2 in
  -1021 <= z -> z <= 1022 ->
  exists m e,
    SFdiv 53 1024 (S754_finite s1 m1 e1) (S754_finite s2 m2 e2)
    = S754_finite (xorb s1 s2) m e
    /\ Zpos (digits2_pos m) = 53
    /\ z <= 53 + e <= z + 2
    /\ (let x := (Float.magnitude (S754_finite s1 m1 e1)
                  / Float.magnitude (S754_finite s2 m2 e2))%Q in
        x - x * Float.u <= Float.magnitude (S754_finite (xorb s1 s2) m e)
        /\ Float.magnitude (S754_finite (xorb s1 s2) m e) <= x + x * Float.u)%Q.
Proof.
  intros z Hlo Hhi.
  destruct (SFdiv_normal 53 1024 eq_refl s1 s2 m1 m2 e1 e2)
    as (m & e & e' & k & s & Hres & Hm & He & Hek & Hes & Hk & Hs & Hb).
  { unfold emin. fold z. lia. }
  { fold z. lia. }
  fold z in He.
  exists m, e. split; [exact Hres|].
  split.
  { change (Zpos (digits2_pos m)) with (Zdigits2 (Zpos m)).
    apply Z.le_antisymm;
      [apply Zdigits2_small; lia|apply Zdigits2_large; lia]. }
  split; [lia|].
  pose proof (rational_bound (Zpos m * 2 ^ k) (Zpos m1 * 2 ^ s) (Zpos m2)
                (2 ^ 53) (2 ^ e')%Q eq_refl eq_refl (pow2_pos _) Hb) as H.
  cbn zeta in H. cbn [Float.magnitude].
  assert (E1 : (inject_Z (Zpos m * 2 ^ k) * 2 ^ e'
                == inject_Z (Zpos m) * 2 ^ e)%Q).
  { rewrite inject_Z_mult, pow2_inject by lia.
    rewrite Hek, (pow2_add e' k). ring. }
  assert (Hp2 : ~ (2 ^ e2 == 0)%Q)
    by (pose proof (pow2_pos e2); lra).
  assert (Hm2 : ~ (inject_Z (Zpos m2) == 0)%Q).
  { assert (0 < inject_Z (Zpos m2))%Q by (rewrite <- (Zlt_Qlt 0); lia).
    lra. }
  assert (E2 : (inject_Z (Zpos m1 * 2 ^ s) / inject_Z (Zpos m2) * 2 ^ e'
                == inject_Z (Zpos m1) * 2 ^ e1
                   / (inject_Z (Zpos m2) * 2 ^ e2))%Q).
  { rewrite inject_Z_mult, pow2_inject by lia.
    replace e1 with (e' + s + e2) by lia.
    rewrite !pow2_add. field. split; assumption. }
  rewrite E1, E2 in H.
  assert (E3 : (inject_Z (2 ^ 53) == / Float.u)%Q) by reflexivity.
  destruct H as [H1 H2]. unfold Qdiv in H1, H2.
  rewrite E3, Qinv_involutive in H1, H2.
  split; assumption.
Qed.

Lemma div_half_even_bound (num den : N) :
  (0 < den)%N ->
  let n := Z.of_N (Float.div_half_even num den) in
  2 * Z.abs (n * Z.of_N den - Z.of_N num) <= Z.of_N den
  /\ 0 <= n <= Z.of_N num / Z.of_N den + 1.
Proof.
  intros Hden. unfold Float.div_half_even.
  pose proof (N.div_mod num den ltac:(lia)) as Hdm.
  pose proof (N.mod_lt num den ltac:(lia)) as Hlt.
  assert (Hq : Z.of_N (num / den) = Z.of_N num / Z.of_N den)
    by apply N2Z.inj_div.
  set (q := (num / den)%N) in *. set (r := (num mod den)%N) in *.
  destruct (N.compare_spec (2 * r) den) as [E|E|E];
    [destruct (N.even q)| |]; cbn zeta; rewrite <- Hq; nia.
Qed.

Lemma of_Z_1000 :
  Float.of_Z 1000 = S754_finite false 8796093022208000 (-43).
Proof. reflexivity. Qed.

Lemma magnitude_1000 :
  (Float.magnitude (S754_finite false 8796093022208000 (-43)) == 1000)%Q.
Proof. reflexivity. Qed.

Lemma round2_bound (s : bool) (m : positive) (e : Z) :
  Zpos (digits2_pos m) <= 1000 ->
  exists n : Z,
    0 <= n
    /\ (inject_Z n - (1 # 2) <= 100 * Float.magnitude (S754_finite s m e)
        /\ 100 * Float.magnitude (S754_finite s m e) <= inject_Z n + (1 # 2))%Q
    /\ Float.has_sign s (Float.round2 (S754_finite s m e))
    /\ (let c := (inject_Z n / 100)%Q in
        c - c * Float.u <= Float.magnitude (Float.round2 (S754_finite s m e))
        /\ Float.magnitude (Float.round2 (S754_finite s m e)) <= c + c * Float.u)%Q.
Proof.
  intros Hd. cbn [Float.round2 Float.magnitude].
  destruct (Z.geb_spec e 0) as [He|He].
  - exists (100 * (Zpos m * 2 ^ e)).
    pose proof (Z.pow_pos_nonneg 2 e eq_refl He) as Hp.
    split; [lia|].
    assert (E : (inject_Z (100 * (Zpos m * 2 ^ e))
                 == 100 * (inject_Z (Zpos m) * 2 ^ e))%Q).
    { rewrite !inject_Z_mult, pow2_inject by lia. reflexivity. }
    split; [rewrite E; split; lra|].
    split; [reflexivity|].
    cbn zeta. cbn [Float.magnitude]. rewrite E.
    pose proof (magnitude_pos s m e) as Hpos. cbn [Float.magnitude] in Hpos.
    assert (Hu : (0 < Float.u)%Q) by reflexivity.
    set (x := (inject_Z (Zpos m) * 2 ^ e)%Q) in *.
    assert (E2 : (100 * x / 100 == x)%Q) by field.
    rewrite E2. split; nra.
  - set (den := (2 ^ Z.to_N (- e))%N).
    assert (Hden : Z.of_N den = 2 ^ (- e)).
    { unfold den. rewrite N2Z.inj_pow, Z2N.id by lia. reflexivity. }
    pose proof (Z.pow_pos_nonneg 2 (- e) eq_refl ltac:(lia)) as Hp.
    destruct (div_half_even_bound (Npos m * 100) den ltac:(lia))
      as [Hb Hn].
    cbn zeta in Hb, Hn.
    set (q := Float.div_half_even (Npos m * 100) den) in *.
    exists (Z.of_N q). split; [lia|].
    assert (Hx : (100 * (inject_Z (Zpos m) * 2 ^ e)
                  == inject_Z (Z.of_N (Npos m * 100))
                     / inject_Z (Z.of_N den))%Q).
    { rewrite Hden, pow2_inject by lia.
      replace e with (- - e) at 1 by lia. rewrite Qpower_opp.
      rewrite N2Z.inj_mul, inject_Z_mult. cbn [Z.of_N].
      field. pose proof (pow2_pos (- e)). lra. }
    split.
    { rewrite Hx.
      pose proof (rational_bound (Z.of_N q) (Z.of_N (Npos m * 100))
                    (Z.of_N den) 2 1%Q ltac:(lia) eq_refl eq_refl) as H.
      assert (Hb' : 2 * Z.abs (Z.of_N q * Z.of_N den
                               - Z.of_N (Npos m * 100))
                    <= Z.of_N den) by exact Hb.
      clear H.
      assert (Hd0 : (0 < inject_Z (Z.of_N den))%Q)
        by (rewrite <- (Zlt_Qlt 0); lia).
      assert (H1 : 2 * (Z.of_N q * Z.of_N den)
                   <= 2 * Z.of_N (Npos m * 100) + Z.of_N den) by lia.
      assert (H2 : 2 * Z.of_N (Npos m * 100)
                   <= 2 * (Z.of_N q * Z.of_N den) + Z.of_N den) by lia.
      rewrite Zle_Qle in H1, H2.
      rewrite ?inject_Z_plus, ?inject_Z_mult in H1, H2.
      set (a := inject_Z (Z.of_N q)) in *.
      set (d := inject_Z (Z.of_N den)) in *.
      set (nn := inject_Z (Z.of_N (Npos m * 100))) in *.
      change (inject_Z 2) with 2%Q in H1, H2.
      split.
      - apply Qle_shift_div_l; [exact Hd0|]. nra.
      - apply Qle_shift_div_r; [exact Hd0|]. nra. }
    destruct q as [|q'] eqn:Eq.
    + split; [reflexivity|]. cbn zeta. cbn [Float.magnitude Z.of_N].
      unfold Qdiv. rewrite !Qmult_0_l. split; lra.
    + unfold Float.of_ratio. cbn [Z.of_N].
      assert (Hq : Zpos (digits2_pos q') <= 1010).
      { change (Zpos (digits2_pos q')) with (Zdigits2 (Zpos q')).
        apply Zdigits2_small; [lia| |lia].
        pose proof (digits2_bounds m) as [_ Hu].
        assert (Zpos q' <= Z.of_N (Npos m * 100) + 1).
        { cbn [Z.of_N] in Hn.
          assert (Z.of_N (Npos m * 100) / Z.of_N den
                  <= Z.of_N (Npos m * 100)).
          { apply Z.div_le_upper_bound; [lia|]. nia. }
          lia. }
        assert (2 ^ Zpos (digits2_pos m) <= 2 ^ 1000)
          by (apply Z.pow_le_mono_r; lia).
        change (2 ^ 1010) with (1024 * 2 ^ 1000).
        rewrite N2Z.inj_mul in H. cbn [Z.of_N] in H. lia. }
      destruct (div_magnitude s false q' 100 0 0)
        as (m' & e' & Hres & _ & _ & Hbound).
      { cbn [digits2_pos Pos.succ]. lia. }
      { cbn [digits2_pos Pos.succ]. lia. }
      change (SFdiv Float.fprec Float.femax) with (SFdiv 53 1024).
      rewrite Hres. rewrite xorb_false_r in *.
      split; [reflexivity|].
      cbn zeta in *. cbn [Float.magnitude] in *.
      assert (E : (inject_Z (Zpos q') * 2 ^ 0 / (inject_Z 100 * 2 ^ 0)
                   == inject_Z (Zpos q') / 100)%Q) by (field).
      rewrite E in Hbound. exact Hbound.
Qed.

Lemma chain_bound (P Wk D M c uu : Q) :
  (0 < P -> 0 < Wk -> 0 < uu -> uu < 1 ->
   Wk - Wk * uu <= D -> D <= Wk + Wk * uu ->
   P * D - P * D * uu <= M -> M <= P * D + P * D * uu ->
   100 * c - (1 # 2) <= 100 * M -> 100 * M <= 100 * c + (1 # 2) ->
   P * Wk - P * Wk * (4 * uu) - (1 # 200) <= c
   /\ c <= P * Wk + P * Wk * (4 * uu) + (1 # 200))%Q.
Proof.
  intros HP HW Hu0 Hu1 H1 H2 H3 H4 H5 H6.
  assert (HD : (0 <= D)%Q) by nra.
  assert (A1 : (0 <= P * (1 - uu) * (D - (Wk - Wk * uu)))%Q)
    by (apply Qmult_le_0_compat; nra).
  assert (A2 : (0 <= P * (1 + uu) * (Wk + Wk * uu - D))%Q)
    by (apply Qmult_le_0_compat; nra).
  assert (A3 : (0 <= P * Wk * uu * (1 - uu))%Q)
    by (apply Qmult_le_0_compat; nra).
  assert (A4 : (0 <= P * Wk * uu)%Q) by nra.
  split; nra.
Qed.

Lemma calculated_cost_finite (sp sw : bool) (mp mw : positive) (ep ew : Z) :
  Float.moderate (S754_finite sp mp ep) = true ->
  Float.moderate (S754_finite sw mw ew) = true ->
  exists n : Z,
    0 <= n
    /\ (let X := (Float.magnitude (S754_finite sp mp ep)
                  * Float.magnitude (S754_finite sw mw ew) / 1000)%Q in
        X - X * (4 * Float.u) - (1 # 200) <= inject_Z n / 100
        /\ inject_Z n / 100 <= X + X * (4 * Float.u) + (1 # 200))%Q
    /\ Float.has_sign (xorb sp sw)
         (RealTimeCostSensor.calculated_cost (S754_finite sp mp ep)
            (S754_finite sw mw ew))
    /\ (let c := (inject_Z n / 100)%Q in
        let r := Float.magnitude
                   (RealTimeCostSensor.calculated_cost
                      (S754_finite sp mp ep) (S754_finite sw mw ew)) in
        c - c * Float.u <= r /\ r <= c + c * Float.u)%Q.
Proof.
  intros Hp Hw. cbn [Float.moderate] in Hp, Hw.
  apply andb_true_iff in Hp. destruct Hp as [Hp Hp3].
  apply andb_true_iff in Hp. destruct Hp as [Hp1 Hp2].
  apply andb_true_iff in Hw. destruct Hw as [Hw Hw3].
  apply andb_true_iff in Hw. destruct Hw as [Hw1 Hw2].
  apply Z.eqb_eq in Hp1, Hw1. apply Z.leb_le in Hp2, Hp3, Hw2, Hw3.
  unfold RealTimeCostSensor.calculated_cost. rewrite of_Z_1000.
  unfold Float.div, Float.mul.
  change Float.fprec with 53. change Float.femax with 1024.
  destruct (div_magnitude sw false mw 8796093022208000 ew (-43))
    as (mD & eD & HresD & HdD & HeD & HbD).
  { rewrite Hw1. cbn [digits2_pos Pos.succ]. lia. }
  { rewrite Hw1. cbn [digits2_pos Pos.succ]. lia. }
  rewrite Hw1 in HeD.
  change (Zpos (digits2_pos 8796093022208000)) with 53 in HeD.
  rewrite HresD, xorb_false_r in *.
  destruct (mul_magnitude sp sw mp mD ep eD)
    as (mM & eM & HresM & HdM & HeM & HbM).
  { rewrite Hp1, HdD. lia. }
  { rewrite Hp1, HdD. lia. }
  { rewrite Hp1, HdD. lia. }
  rewrite HresM.
  destruct (round2_bound (xorb sp sw) mM eM ltac:(lia))
    as (n & Hn & Hn2 & Hsign & Hr).
  exists n. split; [exact Hn|].
  split; [|split; [exact Hsign|exact Hr]].
  cbn zeta in *.
  pose proof (magnitude_pos sp mp ep) as HP.
  pose proof (magnitude_pos sw mw ew) as HW.
  set (P := Float.magnitude (S754_finite sp mp ep)) in *.
  set (W := Float.magnitude (S754_finite sw mw ew)) in *.
  set (D := Float.magnitude (S754_finite sw mD eD)) in *.
  set (M := Float.magnitude (S754_finite (xorb sp sw) mM eM)) in *.
  rewrite magnitude_1000 in HbD.
  assert (H := chain_bound P (W / 1000) D M (inject_Z n / 100) Float.u).
  assert (E1 : (100 * (inject_Z n / 100) == inject_Z n)%Q) by field.
  assert (E2 : (P * W / 1000 == P * (W / 1000))%Q) by field.
  rewrite E1 in H. rewrite E2.
  apply H; try reflexivity; try tauto.
  apply Qlt_shift_div_l; [reflexivity|]. lra.
Qed.

(** The rate of line 117 for a price and a power that are zero or of
    moderate size: a whole number of cents that lies within half a cent,
    and the rounding errors of the division and the product, of the exact
    [price * power / 1000]; the rate is that number of cents as a double,
    and its sign is the product of the signs. *)
Lemma calculated_cost_bound (price power : Float.float) (sp sw : bool) :
  Float.moderate price = true -> Float.moderate power = true ->
  Float.has_sign sp price -> Float.has_sign sw power ->
  exists cents : Z,
    0 <= cents
    /\ (let X := (Float.magnitude price * Float.magnitude power / 1000)%Q in
        Float.within X (X * (4 * Float.u) + (1 # 200))
          (inject_Z cents / 100))
    /\ Float.has_sign (xorb sp sw)
         (RealTimeCostSensor.calculated_cost price power)
    /\ (let c := (inject_Z cents / 100)%Q in
        Float.within c (c * Float.u)
          (Float.magnitude
             (RealTimeCostSensor.calculated_cost price power))).
Proof.
  intros Hp Hw Hsp Hsw. unfold Float.within.
  assert (Hzero : forall r : Float.float,
            RealTimeCostSensor.calculated_cost price power = r ->
            r = S754_zero (xorb sp sw) ->
            (Float.magnitude price * Float.magnitude power == 0)%Q ->
            exists cents : Z,
              0 <= cents
              /\ (let X := (Float.magnitude price * Float.magnitude power
                            / 1000)%Q in
                  X - (X * (4 * Float.u) + (1 # 200)) <= inject_Z cents / 100
                  /\ inject_Z cents / 100
                     <= X + (X * (4 * Float.u) + (1 # 200)))%Q
              /\ Float.has_sign (xorb sp sw)
                   (RealTimeCostSensor.calculated_cost price power)
              /\ (let c := (inject_Z cents / 100)%Q in
                  c - c * Float.u
                  <= Float.magnitude
                       (RealTimeCostSensor.calculated_cost price power)
                  /\ Float.magnitude
                       (RealTimeCostSensor.calculated_cost price power)
                     <= c + c * Float.u)%Q).
  { intros r Hr -> HX. exists 0. rewrite Hr. cbn [Float.magnitude].
    split; [lia|]. cbn zeta.
    assert (E : (Float.magnitude price * Float.magnitude power / 1000
                 == 0)%Q) by (rewrite HX; reflexivity).
    rewrite E. split; [split; vm_compute; discriminate|].
    split; [reflexivity|]. split; vm_compute; discriminate. }
  destruct price as [sp'| | |sp' mp ep]; try discriminate Hp;
    destruct power as [sw'| | |sw' mw ew]; try discriminate Hw;
    cbn [Float.has_sign] in Hsp, Hsw; subst sp' sw'.
  - apply (Hzero (S754_zero (xorb sp sw))); try reflexivity.
    unfold RealTimeCostSensor.calculated_cost. rewrite of_Z_1000.
    cbn. rewrite xorb_false_r. reflexivity.
  - apply (Hzero (S754_zero (xorb sp sw))); try reflexivity.
    unfold RealTimeCostSensor.calculated_cost. rewrite of_Z_1000.
    unfold Float.div, Float.mul.
    change Float.fprec with 53. change Float.femax with 1024.
    cbn [Float.moderate] in Hw.
    apply andb_true_iff in Hw. destruct Hw as [Hw Hw3].
    apply andb_true_iff in Hw. destruct Hw as [Hw1 Hw2].
    apply Z.eqb_eq in Hw1. apply Z.leb_le in Hw2, Hw3.
    destruct (div_magnitude sw false mw 8796093022208000 ew (-43))
      as (mD & eD & HresD & _).
    { rewrite Hw1. cbn [digits2_pos Pos.succ]. lia. }
    { rewrite Hw1. cbn [digits2_pos Pos.succ]. lia. }
    rewrite HresD, xorb_false_r. reflexivity.
  - apply (Hzero (S754_zero (xorb sp sw))); try reflexivity.
    + unfold RealTimeCostSensor.calculated_cost. rewrite of_Z_1000.
      cbn. rewrite xorb_false_r. reflexivity.
    + cbn [Float.magnitude]. ring.
  - destruct (calculated_cost_finite sp sw mp mw ep ew Hp Hw)
      as (n & Hn & HX & Hs & Hc).
    exists n. cbn zeta in *.
    split; [exact Hn|]. split; [|split; [exact Hs|exact Hc]].
    destruct HX as [H1 H2]. split; lra.
Qed.

End BinaryRounding.

(** ** The rate calculator *)
Module RateProperties.
Import Eff Host World Decimal RealTimeCostSensor.

Ltac run_handler :=
  unfold handle_state_change, update, attr_state, try_except, logger,
    async_write_ha_state, on_host, set_self, self, Eff.bind, Eff.lift,
    Eff.ret, Eff.raise, DecimalConv.float_ne, Py.bind; cbn [fst snd].

(** A string that [float] accepts is neither empty nor one of the two
    unavailability markers. *)
Lemma float_of_string_available (s : string) (p : Float.float) :
  Float.of_string s = Ok p -> skip s s = false.
Proof.
  intros H. unfold skip, unavailable.
  destruct (String.eqb_spec s "") as [->|_];
    [vm_compute in H; discriminate|].
  destruct (String.eqb_spec s "unknown") as [->|_];
    [vm_compute in H; discriminate|].
  destruct (String.eqb_spec s "unavailable") as [->|_];
    [vm_compute in H; discriminate|].
  reflexivity.
Qed.

Lemma skip_false (ps ws : string) :
  skip ps ps = false -> skip ws ws = false -> skip ps ws = false.
Proof.
  unfold skip, unavailable.
  destruct (String.eqb ps ""), (String.eqb ws ""),
    (String.eqb ps "unknown"), (String.eqb ps "unavailable"),
    (String.eqb ws "unknown"), (String.eqb ws "unavailable");
    cbn; congruence.
Qed.

Lemma eqb_not_snan (a : decimal) (f : Float.float) :
  DecimalConv.is_snan a = false ->
  exists b, DecimalConv.eqb a (DecimalConv.of_float f) = Ok b.
Proof.
  intros Ha. unfold DecimalConv.eqb.
  assert (Hs : DecimalConv.has_snan a (DecimalConv.of_float f) = false).
  { destruct a as [| |? []]; try discriminate;
      destruct f as [| | |? ? e]; cbn; try reflexivity;
      destruct (e >=? 0); reflexivity. }
  rewrite Hs. eexists; reflexivity.
Qed.

(** What the handler does once both strings have been read as floats. *)
Lemma handle_numeric (m : t) (h : hass) (s ps ws : string)
    (p w : Float.float) (b : bool) :
  unavailable s = false ->
  Float.of_string ps = Ok p ->
  Float.of_string ws = Ok w ->
  DecimalConv.eqb (_state m) (DecimalConv.of_float (calculated_cost p w))
    = Ok b ->
  handle_state_change (Some s) (Some ps) (Some ws) (m, h) =
    if b then (Ok tt, (m, h))
    else (Ok tt, (mk (DecimalConv.of_float (calculated_cost p w)),
                  add_log DEBUG "Updated Real Time Energy Cost"
                    (add_write h))).
Proof.
  intros Hs Hp Hw Hb.
  pose proof (skip_false _ _ (float_of_string_available _ _ Hp)
                (float_of_string_available _ _ Hw)) as Hskip.
  run_handler. rewrite Hs, Hskip, Hp, Hw. cbn [fst snd].
  rewrite Hb. destruct b; reflexivity.
Qed.

Lemma of_float_cases (f : Float.float) :
  match DecimalConv.of_float f with
  | Finite _ _ _ | Infinity _ => f <> S754_nan
  | NaN _ sig => f = S754_nan /\ sig = false
  end.
Proof.
  destruct f as [| | |? ? e]; cbn; try congruence; auto.
  destruct (e >=? 0); congruence.
Qed.

(** The hypothesis on the state in what follows holds along every run: the
    state starts as [Decimal(0)] and only ever becomes the decimal of a
    float. *)
Lemma state_never_signaling (new_state price power : option string)
    (m : t) (h : hass) :
  DecimalConv.is_snan (_state init) = false /\
  (DecimalConv.is_snan (_state m) = false ->
   DecimalConv.is_snan
     (_state (fst (snd (handle_state_change new_state price power (m, h)))))
   = false).
Proof.
  split; [reflexivity|]. intros Hm.
  destruct new_state as [s|]; [|exact Hm].
  run_handler. destruct (unavailable s); [exact Hm|].
  destruct price as [ps|]; [|exact Hm].
  destruct power as [ws|]; [|exact Hm]. cbn [fst snd].
  destruct (skip ps ws); [exact Hm|].
  destruct (Float.of_string ps) as [p|e]; cbn [fst snd];
    [|destruct e; exact Hm].
  destruct (Float.of_string ws) as [w|e]; cbn [fst snd];
    [|destruct e; exact Hm].
  destruct (DecimalConv.eqb _ _) as [[]|e]; cbn [fst snd negb];
    [exact Hm| |destruct e; exact Hm].
  cbn. pose proof (of_float_cases (calculated_cost p w)) as Hc.
  destruct (DecimalConv.of_float _) as [| |? sig]; try reflexivity.
  destruct Hc as [_ ->]. reflexivity.
Qed.

(** C2.  For every pair of inputs that [float] reads as numbers, whatever
    event triggered the handler, the handler returns normally and the rate
    it computes, [round(price * (power / 1000), 2)] in float arithmetic,
    either becomes the sensor's state and is written, or the state
    already equalled it.  What that float expression is worth, for a price
    and a power that are zero or of moderate size: the rate is a whole
    number of cents as a double (within a relative [2^-53] of
    [cents / 100]); that number of cents lies within half a cent, and a
    relative [2^-51] for the roundings of [/] and [*], of the exact
    [|price| * |power| / 1000]; and the sign of the rate is the product of
    the signs of price and power. *)
Theorem rate_is_rounded_product (m : t) (h : hass) (s ps ws : string)
    (price power : Float.float) :
  unavailable s = false ->
  Float.of_string ps = Ok price ->
  Float.of_string ws = Ok power ->
  DecimalConv.is_snan (_state m) = false ->
  exists m' h',
    handle_state_change (Some s) (Some ps) (Some ws) (m, h)
      = (Ok tt, (m', h')) /\
    let rate := calculated_cost price power in
    ((_state m' = DecimalConv.of_float rate /\ writes h' = S (writes h))
     \/ (m' = m /\ h' = h /\
         DecimalConv.eqb (_state m) (DecimalConv.of_float rate) = Ok true))
    /\ (Float.moderate price = true -> Float.moderate power = true ->
        forall sp sw : bool,
          Float.has_sign sp price -> Float.has_sign sw power ->
          exists cents : Z,
            0 <= cents
            /\ (let exact :=
                  (Float.magnitude price * Float.magnitude power / 1000)%Q in
                Float.within exact (exact * (4 * Float.u) + (1 # 200))
                  (inject_Z cents / 100))
            /\ Float.has_sign (xorb sp sw) rate
            /\ Float.within (inject_Z cents / 100)
                 (inject_Z cents / 100 * Float.u) (Float.magnitude rate)).
Proof.
  intros Hs Hp Hw Hn.
  destruct (eqb_not_snan (_state m) (calculated_cost price power) Hn)
    as [b Hb].
  rewrite (handle_numeric m h s ps ws price power b Hs Hp Hw Hb).
  assert (Hnum : Float.moderate price = true ->
                 Float.moderate power = true ->
                 forall sp sw : bool,
                   Float.has_sign sp price -> Float.has_sign sw power ->
                   exists cents : Z,
                     0 <= cents
                     /\ (let exact :=
                           (Float.magnitude price * Float.magnitude power
                            / 1000)%Q in
                         Float.within exact
                           (exact * (4 * Float.u) + (1 # 200))
                           (inject_Z cents / 100))
                     /\ Float.has_sign (xorb sp sw)
                          (calculated_cost price power)
                     /\ Float.within (inject_Z cents / 100)
                          (inject_Z cents / 100 * Float.u)
                          (Float.magnitude (calculated_cost price power))).
  { intros Mp Mw sp sw Hsp Hsw.
    exact (BinaryRounding.calculated_cost_bound price power sp sw
             Mp Mw Hsp Hsw). }
  destruct b.
  - exists m, h. split; [reflexivity|]. split; [right; auto|exact Hnum].
  - eexists _, _. split; [reflexivity|].
    split; [left; split; reflexivity|exact Hnum].
Qed.

Lemma rate_is_rounded_product_witness :
  exists m' h',
    handle_state_change (Some "2000") (Some "0.25") (Some "2000")
      (init, Host.empty) = (Ok tt, (m', h')) /\
    let price := S754_finite false 4503599627370496 (-54) in
    let power := S754_finite false 8796093022208000 (-42) in
    let rate := calculated_cost price power in
    ((_state m' = DecimalConv.of_float rate /\
      writes h' = S (writes Host.empty))
     \/ (m' = init /\ h' = Host.empty /\
         DecimalConv.eqb (_state init) (DecimalConv.of_float rate)
           = Ok true))
    /\ (Float.moderate price = true -> Float.moderate power = true ->
        forall sp sw : bool,
          Float.has_sign sp price -> Float.has_sign sw power ->
          exists cents : Z,
            0 <= cents
            /\ (let exact :=
                  (Float.magnitude price * Float.magnitude power / 1000)%Q in
                Float.within exact (exact * (4 * Float.u) + (1 # 200))
                  (inject_Z cents / 100))
            /\ Float.has_sign (xorb sp sw) rate
            /\ Float.within (inject_Z cents / 100)
                 (inject_Z cents / 100 * Float.u) (Float.magnitude rate)).
Proof.
  apply (rate_is_rounded_product init Host.empty "2000" "0.25" "2000"
           (S754_finite false 4503599627370496 (-54))
           (S754_finite false 8796093022208000 (-42)));
    vm_compute; reflexivity.
Defined.

(** The same run, evaluated: 0.25 per kWh at 2000 W is 0.5 per hour. *)
Example rate_example :
  handle_state_change (Some "2000") (Some "0.25") (Some "2000")
    (init, Host.empty)
  = (Ok tt, (mk (Finite false 5 (-1)),
             add_log DEBUG "Updated Real Time Energy Cost"
               (add_write Host.empty))).
Proof. vm_compute. reflexivity. Qed.

(** C3.  An event whose [new_state] is [None] makes the handler raise
    [AttributeError]: the branch taken for a missing state formats
    [new_state.state] into its log message.  Nothing is logged and
    nothing is written; the exception leaves the handler.  The same
    happens when [hass.states.get] finds no entity. *)
Theorem missing_state_raises (price power : option string)
    (w : world t) :
  handle_state_change None price power w = (Raise AttributeError, w) /\
  (forall s, unavailable s = false ->
     handle_state_change (Some s) None power w
       = (Raise AttributeError, w)) /\
  (forall s ps, unavailable s = false ->
     handle_state_change (Some s) (Some ps) None w
       = (Raise AttributeError, w)).
Proof.
  split; [reflexivity|]. split.
  - intros s Hs. run_handler. rewrite Hs. reflexivity.
  - intros s ps Hs. run_handler. rewrite Hs. reflexivity.
Qed.

(** The rest of what the handler does with unusable input: a state that
    is present but marked unknown or unavailable, an empty or marked
    source value, and a source value that [float] rejects are all logged
    and skipped; the sensor's state stays and nothing is written. *)
Lemma invalid_input_skipped (m : t) (h : hass) (s ps ws : string) :
  unavailable s = true \/ skip ps ws = true
  \/ Float.of_string ps = Raise ValueError
  \/ (exists p, Float.of_string ps = Ok p /\
                Float.of_string ws = Raise ValueError) ->
  exists l msg,
    handle_state_change (Some s) (Some ps) (Some ws) (m, h)
      = (Ok tt, (m, add_log l msg h)).
Proof.
  intros H. run_handler.
  destruct (unavailable s); [eexists _, _; reflexivity|].
  destruct (skip ps ws) eqn:Hk; [eexists _, _; reflexivity|].
  destruct H as [H|[H|[H|[p [Hp H]]]]]; try discriminate.
  - rewrite H. cbn. eexists _, _; reflexivity.
  - rewrite Hp, H. cbn. eexists _, _; reflexivity.
Qed.

(** [float] raises nothing but [ValueError]. *)
Lemma float_of_string_raises (s : string) (e : exn) :
  Float.of_string s = Raise e -> e = ValueError.
Proof.
  unfold Float.of_string.
  destruct (Literal.strip_underscores _ _); [|congruence].
  destruct (Literal.parse l) as [[neg c ex|neg|neg [] []]|];
    try congruence.
  destruct c; [congruence|].
  destruct (ex >=? 0); [congruence|].
  destruct (pow10 (- ex)); congruence.
Qed.

(** A float that is a number equals itself as a decimal. *)
Lemma eqb_of_float_refl (f : Float.float) :
  f <> S754_nan ->
  DecimalConv.eqb (DecimalConv.of_float f) (DecimalConv.of_float f)
    = Ok true.
Proof.
  intros Hf. pose proof (of_float_cases f) as Hc.
  destruct (DecimalConv.of_float f) as [sg c e|sg|sg sig].
  - unfold DecimalConv.eqb, DecimalConv.compare; cbn.
    rewrite Z.compare_refl. reflexivity.
  - destruct sg; reflexivity.
  - destruct Hc; contradiction.
Qed.

(** C4, as the code has it.  With both inputs read as numbers: when the
    computed rate equals ([==]) the published one, nothing is written and
    nothing changes; when it differs, the rate is stored and written
    exactly once; and when the rate is a number (not NaN), a second event
    with the same inputs right after the first writes nothing. *)
Theorem change_detection_gate (m : t) (h : hass) (s ps ws : string)
    (price power : Float.float) :
  unavailable s = false ->
  Float.of_string ps = Ok price ->
  Float.of_string ws = Ok power ->
  DecimalConv.is_snan (_state m) = false ->
  let rate :=
    Float.round2 (Float.mul price (Float.div power (Float.of_Z 1000))) in
  let run := handle_state_change (Some s) (Some ps) (Some ws) in
  (DecimalConv.eqb (_state m) (DecimalConv.of_float rate) = Ok true ->
   run (m, h) = (Ok tt, (m, h))) /\
  (DecimalConv.eqb (_state m) (DecimalConv.of_float rate) = Ok false ->
   exists h',
     run (m, h) = (Ok tt, (mk (DecimalConv.of_float rate), h')) /\
     writes h' = S (writes h)) /\
  (rate <> S754_nan ->
   run (snd (run (m, h))) = (Ok tt, snd (run (m, h)))).
Proof.
  intros Hs Hp Hw Hn rate run. subst run.
  repeat split.
  - intros Hb.
    rewrite (handle_numeric m h s ps ws price power true Hs Hp Hw Hb).
    reflexivity.
  - intros Hb.
    rewrite (handle_numeric m h s ps ws price power false Hs Hp Hw Hb).
    eexists. split; reflexivity.
  - intros Hr.
    destruct (eqb_not_snan (_state m) (calculated_cost price power) Hn)
      as [b Hb].
    rewrite (handle_numeric m h s ps ws price power b Hs Hp Hw Hb).
    destruct b; cbn [snd].
    + rewrite (handle_numeric m h s ps ws price power true Hs Hp Hw Hb).
      reflexivity.
    + rewrite (handle_numeric
                 (mk (DecimalConv.of_float (calculated_cost price power)))
                 _ s ps ws price power true Hs Hp Hw
                 (eqb_of_float_refl _ Hr)).
      reflexivity.
Qed.

Lemma change_detection_gate_witness :
  exists price power,
    Float.of_string "0.25" = Ok price /\
    Float.of_string "2000" = Ok power /\
    let rate :=
      Float.round2
        (Float.mul price (Float.div power (Float.of_Z 1000))) in
    let run := handle_state_change (Some "2000") (Some "0.25")
                 (Some "2000") in
    (DecimalConv.eqb (_state init) (DecimalConv.of_float rate) = Ok true ->
     run (init, Host.empty) = (Ok tt, (init, Host.empty))) /\
    (DecimalConv.eqb (_state init) (DecimalConv.of_float rate) = Ok false ->
     exists h',
       run (init, Host.empty)
         = (Ok tt, (mk (DecimalConv.of_float rate), h')) /\
       writes h' = S (writes Host.empty)) /\
    (rate <> S754_nan ->
     run (snd (run (init, Host.empty)))
       = (Ok tt, snd (run (init, Host.empty)))).
Proof.
  eexists _, _.
  split; [vm_compute; reflexivity|].
  split; [vm_compute; reflexivity|].
  apply (change_detection_gate init Host.empty "2000" "0.25" "2000");
    vm_compute; reflexivity.
Defined.

(** C4 as stated fails for a rate that is not a number: [float] reads
    "nan", NaN differs from every published rate, itself included, and two
    consecutive identical events are both written. *)
Lemma nan_rate_published_twice :
  let run := handle_state_change (Some "nan") (Some "nan")
               (Some "1000") in
  let w1 := snd (run (init, Host.empty)) in
  let w2 := snd (run w1) in
  fst (run (init, Host.empty)) = Ok tt /\ fst (run w1) = Ok tt /\
  writes (snd w1) = 1%nat /\ writes (snd w2) = 2%nat.
Proof. vm_compute. repeat split. Qed.

End RateProperties.

(** ** The accumulator: updates and restore *)
Module MeterProperties.
Import Eff Host World Decimal Datetime UtilityMeterSensor Runs.

Ltac run_meter :=
  unfold _handle_real_time_cost_update, accumulate, restore,
    async_added_to_hass, set_state, set_last_update, try_except, logger,
    async_write_ha_state, on_host, set_self, self, Eff.bind, Eff.lift,
    Eff.ret, Eff.raise; cbn [fst snd].

(** The clause [except InvalidOperation] cannot be entered: the name is
    bound neither in the module nor in the builtins. *)
Lemma invalid_operation_unbound (names : list string) :
  Py.lookup_exceptions ("InvalidOperation" :: names) = Raise NameError.
Proof. reflexivity. Qed.

(** The update, step by step, when every step succeeds. *)
Lemma update_succeeds (m : t) (h : hass) (s : string)
    (now1 now2 : datetime) (rate hours q v : decimal) :
  unavailable s = false ->
  DecimalConv.of_string s = Ok rate ->
  hours_passed now1 (_last_update m) = Ok hours ->
  increment rate hours = Ok q ->
  iadd (_state m) q = Ok v ->
  _handle_real_time_cost_update (Some s) now1 now2 (m, h) =
    (Ok tt,
     (mk (_interval m) (Dec v) now2 (_reset_timer m),
      add_log DEBUG "Updated state"
        (add_write
           (add_log DEBUG "Time difference calculated"
              (add_log DEBUG "Current cost retrieved from state" h))))).
Proof.
  intros Hs Hr Hh Hq Hv. run_meter.
  rewrite Hs, Hr. cbn [fst snd]. rewrite Hh. cbn [fst snd].
  rewrite Hq, Hv. reflexivity.
Qed.


(** What an update adds has exactly two decimals (or is a NaN). *)
Lemma increment_has_two_decimals (rate hours q : decimal) :
  increment rate hours = Ok q ->
  match q with
  | Finite _ _ e => e = -2
  | Infinity _ => False
  | NaN _ _ => True
  end.
Proof.
  unfold increment, Py.bind.
  destruct (Decimal.mul rate hours) as [p|]; [|discriminate].
  destruct p as [s c e|s|s []]; cbn [quantize]; try discriminate.
  - change (negb ((Etiny <=? -2) && (-2 <=? Emax))) with false. cbv iota.
    destruct (c =? 0)%N; [vm_compute; intros [= <-]; reflexivity|].
    destruct (_ >? Emax); [discriminate|].
    destruct (_ >? prec); [discriminate|].
    destruct (_ >? Emax); [discriminate|].
    destruct (ndigits (rescale c e (-2)) >? prec) eqn:Hd; [discriminate|].
    unfold fix_finite.
    destruct (rescale c e (-2) =? 0)%N;
      [vm_compute; intros [= <-]; reflexivity|].
    rewrite Z.gtb_ltb in Hd. apply Z.ltb_ge in Hd. cbv zeta.
    destruct (_ >? Etop); [discriminate|].
    match goal with
    | |- context [?a <? ?b] => destruct (Z.ltb_spec a b) as [Hlt|_]
    end.
    + exfalso. unfold Etiny, Emin, prec in *. lia.
    + intros [= <-]. reflexivity.
  - intros [= <-]. exact I.
Qed.




(** Whatever the update raises, the [except] clause turns it into
    [NameError]; the object is as it was, and nothing was written. *)
Lemma failed_update (m : t) (h : hass) (s : string)
    (now1 now2 : datetime) (r : result unit) (m' : t) (h' : hass) :
  unavailable s = false ->
  _handle_real_time_cost_update (Some s) now1 now2 (m, h) = (r, (m', h')) ->
  r = Ok tt \/ (r = Raise NameError /\ m' = m /\ writes h' = writes h).
Proof.
  intros Hs. run_meter. rewrite Hs.
  destruct (DecimalConv.of_string s); cbn [fst snd];
    [|intros [= <- <- <-]; auto].
  destruct (hours_passed now1 (_last_update m)); cbn [fst snd];
    [|intros [= <- <- <-]; auto].
  destruct (increment a a0); cbn [fst snd];
    [|intros [= <- <- <-]; auto].
  destruct (iadd (_state m) a1); cbn [fst snd];
    [|intros [= <- <- <-]; auto].
  intros [= <- <- <-]; auto.
Qed.

(** C6.  A rate state that [Decimal] cannot read, such as "abc", makes
    the update raise [NameError]: [Decimal] raises [InvalidOperation],
    and evaluating the clause [except (InvalidOperation, TypeError)]
    fails on the unbound name.  The total and the timestamp are
    untouched and nothing is logged, but the exception leaves the
    handler.  So it goes for every failure inside the [try]: the handler
    either completes or raises [NameError] with the object as it was. *)
Theorem unparsable_rate_raises (m : t) (h : hass)
    (now1 now2 : datetime) :
  _handle_real_time_cost_update (Some "abc") now1 now2 (m, h)
    = (Raise NameError, (m, h)) /\
  (forall s r m' h',
     unavailable s = false ->
     _handle_real_time_cost_update (Some s) now1 now2 (m, h)
       = (r, (m', h')) ->
     r = Ok tt \/ (r = Raise NameError /\ m' = m /\ writes h' = writes h)).
Proof.
  split; [reflexivity|].
  intros s r m' h' Hs Hr. exact (failed_update m h s now1 now2 r m' h' Hs Hr).
Qed.

(** Every string that [Decimal] rejects takes the same way out. *)
Lemma restore_raises (s : string) (e : exn) (w : world t) :
  unavailable s = false ->
  DecimalConv.of_string s = Raise e ->
  restore (Some s) w = (Raise NameError, w).
Proof.
  intros Hs He. run_meter. rewrite Hs, He. reflexivity.
Qed.

(** C5.  A stored "12.34" is restored as 12.34 and an absent state
    leaves the initial 0.00, both without raising; a stored "abc" makes
    the restore raise [NameError] out of [async_added_to_hass], before
    [schedule_next_reset] is reached: no timer is armed, no listener is
    registered and nothing is logged.  The same holds for every stored
    string that [Decimal] rejects. *)
Theorem restore_unparsable_raises (i : interval) (now0 now : datetime)
    (h : hass) :
  restore (Some "12.34") (init i now0, h)
    = (Ok tt, (mk i (Dec (Finite false 1234 (-2))) now0 None, h)) /\
  restore None (init i now0, h) = (Ok tt, (init i now0, h)) /\
  restore (Some "abc") (init i now0, h)
    = (Raise NameError, (init i now0, h)) /\
  async_added_to_hass (Some "abc") now (init i now0, h)
    = (Raise NameError, (init i now0, h)) /\
  (forall s e w,
     unavailable s = false ->
     DecimalConv.of_string s = Raise e ->
     async_added_to_hass (Some s) now w = (Raise NameError, w)).
Proof.
  repeat split.
  intros s e w Hs He. unfold async_added_to_hass, Eff.bind.
  rewrite (restore_raises s e w Hs He). reflexivity.
Qed.

(** After a restore that returns, the next reset is scheduled. *)
Example startup_schedules :
  async_added_to_hass (Some "12.34") t0 (init daily t0, Host.empty)
  = (Ok tt,
     (mk daily (Dec (Finite false 1234 (-2))) t0 (Some 0%nat),
      mkhass [(DEBUG, "Calculated next reset time");
              (DEBUG, "Scheduling next reset");
              (DEBUG, "Next reset scheduled successfully.");
              (DEBUG, "Registering state change event")]
        0%nat [(0%nat, mkdt 2024 3 16 0 0 0 0)] [] 1%nat 1%nat)).
Proof. vm_compute. reflexivity. Qed.

Lemma restore_frame (last_state : option string) (m : t) (h : hass) :
  let w := snd (restore last_state (m, h)) in
  _last_update (fst w) = _last_update m /\
  _interval (fst w) = _interval m /\
  _reset_timer (fst w) = _reset_timer m /\
  snd w = h.
Proof.
  destruct last_state as [s|]; [|cbn; auto].
  run_meter. destruct (unavailable s); [cbn; auto|].
  destruct (DecimalConv.of_string s); cbn; auto.
Qed.

Lemma schedule_keeps_last_update (now : datetime) (m : t) (h : hass) :
  let w := snd (schedule_next_reset now (m, h)) in
  _last_update (fst w) = _last_update m /\
  _interval (fst w) = _interval m /\
  _state (fst w) = _state m.
Proof.
  unfold schedule_next_reset, calculate_next_reset_time, set_reset_timer,
    track_point_in_time, logger, on_host, set_self, self, Eff.bind,
    Eff.lift, Eff.ret.
  cbn [fst snd].
  destruct (next_reset (_interval m) now); cbn; auto.
  destruct (_reset_timer m); cbn; auto.
Qed.

(** C10.  Restoring changes the total and nothing else: the timestamp,
    the interval, the timer attribute and the host are as before.  After
    construction at the clock reading [now0] and the whole of
    [async_added_to_hass], however it ends, the stored timestamp is still
    [now0]; so the first update integrates from [now0]. *)
Theorem restore_keeps_last_update (i : interval) (now0 now : datetime)
    (last_state : option string) (h : hass) :
  (forall m : t,
     let w := snd (restore last_state (m, h)) in
     _last_update (fst w) = _last_update m /\
     _interval (fst w) = _interval m /\
     _reset_timer (fst w) = _reset_timer m /\
     snd w = h) /\
  (let w := snd (async_added_to_hass last_state now (init i now0, h)) in
   _last_update (fst w) = now0 /\
   forall now1, hours_passed now1 (_last_update (fst w))
                = hours_passed now1 now0).
Proof.
  split; [intros m; apply restore_frame|].
  assert (H : _last_update
                (fst (snd (async_added_to_hass last_state now
                             (init i now0, h)))) = now0).
  { unfold async_added_to_hass, Eff.bind.
    pose proof (restore_frame last_state (init i now0) h) as Hr.
    destruct (restore last_state (init i now0, h)) as [[[]|e] [m1 h1]];
      cbn [fst snd] in *; [|destruct Hr as [Hr _]; exact Hr].
    pose proof (schedule_keeps_last_update now m1 h1) as Hk.
    destruct (schedule_next_reset now (m1, h1)) as [[[]|e] [m2 h2]];
      cbn [fst snd] in *; destruct Hr as [Hr _], Hk as [Hk _];
      cbn in *; congruence. }
  cbn zeta. rewrite H. split; reflexivity.
Qed.

End MeterProperties.

(** ** The reset boundaries *)
Module CalendarProperties.
Import Datetime UtilityMeterSensor.

Lemma days_in_month_bounds (y m : Z) :
  28 <= days_in_month y m <= 31.
Proof.
  unfold days_in_month.
  destruct (m =? 2); [destruct (is_leap y); lia|].
  destruct ((m =? 4) || (m =? 6) || (m =? 9) || (m =? 11)); lia.
Qed.

Lemma iter_days_add (a b : nat) (t : datetime) :
  iter_days (a + b) t = iter_days b (iter_days a t).
Proof.
  revert t. induction a as [|a IH]; intros t; [reflexivity|].
  cbn. apply IH.
Qed.

(** Inside a month, adding days moves the day of the month. *)
Lemma iter_days_within (n : nat) (t : datetime) :
  day t + Z.of_nat n <= days_in_month (year t) (month t) ->
  iter_days n t = replace_day t (day t + Z.of_nat n).
Proof.
  revert t. induction n as [|n IH]; intros t H.
  - destruct t; unfold replace_day; cbn. f_equal. lia.
  - cbn [iter_days].
    assert (Hlt : (day t <? days_in_month (year t) (month t)) = true)
      by (apply Z.ltb_lt; lia).
    unfold next_day at 1. rewrite Hlt.
    rewrite IH; cbn [year month day]; [|lia].
    unfold replace_day; cbn. f_equal. lia.
Qed.

(** 32 days after the first of a month lie in the next month. *)
Lemma thirty_two_days_later (t : datetime) :
  1 <= month t <= 12 ->
  day t = 1 ->
  let n := first_of_next_month t in
  iter_days 32 t =
    mkdt (year n) (month n) (33 - days_in_month (year t) (month t))
         (hour t) (minute t) (second t) (microsecond t).
Proof.
  intros Hm Hd n.
  pose proof (days_in_month_bounds (year t) (month t)) as Hb.
  remember (days_in_month (year t) (month t)) as dim eqn:Hdim.
  replace 32%nat
    with (Z.to_nat (dim - 1) + (1 + Z.to_nat (32 - dim)))%nat by lia.
  rewrite iter_days_add.
  rewrite (iter_days_within (Z.to_nat (dim - 1)) t)
    by (rewrite <- Hdim; lia).
  cbn [Nat.add iter_days].
  unfold next_day at 1. cbn [replace_day year month day].
  rewrite <- Hdim.
  replace (day t + Z.of_nat (Z.to_nat (dim - 1))) with dim by lia.
  rewrite Z.ltb_irrefl.
  subst n. unfold first_of_next_month.
  destruct (Z.eqb_spec (month t) 12) as [H12|H12].
  - assert (Hl : (month t <? 12) = false) by (apply Z.ltb_ge; lia).
    rewrite Hl, iter_days_within; cbn [year month day hour minute second
      microsecond replace_day].
    + unfold replace_day.
      cbn [year month day hour minute second microsecond].
      f_equal. lia.
    + pose proof (days_in_month_bounds (year t + 1) 1). lia.
  - assert (Hl : (month t <? 12) = true) by (apply Z.ltb_lt; lia).
    rewrite Hl, iter_days_within; cbn [year month day hour minute second
      microsecond replace_day].
    + unfold replace_day.
      cbn [year month day hour minute second microsecond].
      f_equal. lia.
    + pose proof (days_in_month_bounds (year t) (month t + 1)). lia.
Qed.

Lemma valid_fields (t : datetime) :
  valid t = true ->
  MINYEAR <= year t <= MAXYEAR /\ 1 <= month t <= 12 /\
  1 <= day t <= days_in_month (year t) (month t) /\
  0 <= hour t < 24 /\ 0 <= minute t < 60 /\ 0 <= second t < 60 /\
  0 <= microsecond t < 1000000.
Proof.
  unfold valid. intros H.
  repeat (apply andb_prop in H; destruct H as [H ?]).
  repeat match goal with
         | H : (_ <=? _) = true |- _ => apply Z.leb_le in H
         | H : (_ <? _) = true |- _ => apply Z.ltb_lt in H
         end.
  lia.
Qed.

Lemma days_before_month_succ (y m : Z) :
  1 <= m ->
  days_before_month y (m + 1) = days_before_month y m + days_in_month y m.
Proof.
  intros Hm. unfold days_before_month.
  replace (Z.to_nat (m + 1 - 1)) with (S (Z.to_nat (m - 1))) by lia.
  cbn [days_before_month_nat]. f_equal. f_equal. lia.
Qed.

Lemma days_before_year_succ (y : Z) :
  days_before_year (y + 1) =
    days_before_year y + (if is_leap y then 366 else 365).
Proof.
  unfold days_before_year, is_leap.
  replace (y + 1 - 1) with y by lia.
  destruct (Z.eqb_spec (y mod 4) 0), (Z.eqb_spec (y mod 100) 0),
    (Z.eqb_spec (y mod 400) 0); cbn [negb andb orb];
    Z.div_mod_to_equations; lia.
Qed.

Lemma days_before_december (y : Z) :
  days_before_month y 12 + 31 = if is_leap y then 366 else 365.
Proof.
  unfold days_before_month. change (Z.to_nat (12 - 1)) with 11%nat.
  cbn [days_before_month_nat]. unfold days_in_month.
  destruct (is_leap y); reflexivity.
Qed.

(** [next_day] advances the ordinal of the date by one. *)
Lemma toordinal_next_day (t : datetime) :
  valid t = true -> toordinal (next_day t) = toordinal t + 1.
Proof.
  intros Hv. apply valid_fields in Hv.
  unfold next_day.
  destruct (Z.ltb_spec (day t) (days_in_month (year t) (month t))).
  - unfold toordinal. cbn [year month day]. lia.
  - destruct (Z.ltb_spec (month t) 12).
    + unfold toordinal. cbn [year month day].
      rewrite days_before_month_succ by lia. lia.
    + unfold toordinal. cbn [year month day].
      rewrite days_before_year_succ.
      replace (month t) with 12 in * by lia.
      pose proof (days_before_december (year t)) as Hd.
      replace (days_in_month (year t) 12) with 31 in * by reflexivity.
      replace (days_before_month (year t + 1) 1) with 0 by reflexivity.
      lia.
Qed.

(** The midnight after [t] is later than [t], by a day at most. *)
Lemma next_midnight_is_next (t : datetime) :
  valid t = true ->
  let r := replace_midnight (next_day t) in
  to_microseconds t < to_microseconds r
    <= to_microseconds t + 86400000000.
Proof.
  intros Hv r. pose proof (toordinal_next_day t Hv) as Ho.
  apply valid_fields in Hv.
  assert (Hr : toordinal r = toordinal t + 1).
  { rewrite <- Ho. subst r. unfold replace_midnight, toordinal. reflexivity. }
  unfold to_microseconds. rewrite Hr.
  subst r. unfold replace_midnight. cbn [hour minute second microsecond].
  lia.
Qed.

(** The method returns what [next_reset] gives for the interval and the
    clock reading, whatever else the object and the host hold, and leaves
    the object as it was. *)
Lemma calculate_is_next_reset (t : datetime) (m : UtilityMeterSensor.t)
    (h : Host.hass) :
  fst (calculate_next_reset_time t (m, h)) = next_reset (_interval m) t /\
  fst (snd (calculate_next_reset_time t (m, h))) = m.
Proof.
  unfold calculate_next_reset_time, World.logger, World.on_host, World.self,
    Eff.bind, Eff.lift, Eff.ret.
  cbn [fst snd]. destruct (next_reset (_interval m) t); auto.
Qed.

(** C8.  The next reset is a function of the interval and the clock
    reading alone.  For every well-formed reading: daily gives the midnight
    that starts the next day, which is the first midnight after the
    reading; monthly gives midnight on the first day of the next calendar
    month; yearly gives midnight on January 1 of the next year; each as
    long as that boundary still lies in the calendar, which ends with the
    year 9999. *)
Theorem next_reset_boundaries (t : datetime) :
  valid t = true ->
  (forall m h,
     fst (calculate_next_reset_time t (m, h)) = next_reset (_interval m) t) /\
  (year t < MAXYEAR \/ month t < 12 \/ day t < 31 ->
   next_reset daily t = Ok (replace_midnight (next_day t)) /\
   to_microseconds t < to_microseconds (replace_midnight (next_day t))
     <= to_microseconds t + 86400000000) /\
  (year t < MAXYEAR \/ month t < 12 ->
   next_reset monthly t =
     Ok (if month t =? 12 then mkdt (year t + 1) 1 1 0 0 0 0
         else mkdt (year t) (month t + 1) 1 0 0 0 0)) /\
  (year t < MAXYEAR ->
   next_reset yearly t = Ok (mkdt (year t + 1) 1 1 0 0 0 0)).
Proof.
  intros Hv. pose proof (valid_fields t Hv) as Hf.
  pose proof (days_in_month_bounds (year t) (month t)) as Hb.
  unfold MAXYEAR, MINYEAR in *.
  split; [intros m h; apply calculate_is_next_reset|].
  split; [|split].
  - intros Hd. split; [|apply (next_midnight_is_next t Hv)].
    unfold next_reset, add_days, Py.bind. cbn [iter_days].
    assert (Hle : (year (next_day t) >? MAXYEAR) = false).
    { unfold MAXYEAR. rewrite Z.gtb_ltb. apply Z.ltb_ge. unfold next_day.
      destruct (Z.ltb_spec (day t) (days_in_month (year t) (month t)))
        as [|Hday]; [cbn; lia|].
      destruct (Z.ltb_spec (month t) 12) as [|Hmon]; cbn; [lia|].
      assert (H12 : month t = 12) by lia. rewrite H12 in Hday.
      change (days_in_month (year t) 12) with 31 in Hday. lia. }
    rewrite Hle. reflexivity.
  - intros Hm. unfold next_reset, add_days, Py.bind.
    rewrite (thirty_two_days_later (replace_day t 1))
      by (cbn [replace_day month day]; lia).
    unfold first_of_next_month. cbn [replace_day year month day].
    destruct (Z.eqb_spec (month t) 12);
      cbn [year month day hour minute second microsecond];
      (replace (_ >? MAXYEAR) with false
        by (symmetry; rewrite Z.gtb_ltb; apply Z.ltb_ge;
            unfold MAXYEAR; lia));
      reflexivity.
  - intros Hy. unfold next_reset, replace_new_year, MINYEAR, MAXYEAR.
    replace ((1 <=? year t + 1) && (year t + 1 <=? 9999)) with true;
      [reflexivity|].
    symmetry. apply andb_true_intro. split; apply Z.leb_le; lia.
Qed.

Lemma next_reset_boundaries_witness :
  let t := mkdt 2024 12 31 23 59 59 0 in
  next_reset daily t = Ok (mkdt 2025 1 1 0 0 0 0) /\
  next_reset monthly t = Ok (mkdt 2025 1 1 0 0 0 0) /\
  next_reset yearly t = Ok (mkdt 2025 1 1 0 0 0 0).
Proof.
  pose proof (next_reset_boundaries (mkdt 2024 12 31 23 59 59 0) eq_refl)
    as (_ & Hd & Hm & Hy).
  split; [|split].
  - exact (proj1 (Hd (or_introl eq_refl))).
  - exact (Hm (or_introl eq_refl)).
  - exact (Hy eq_refl).
Defined.

(** Past those bounds the date arithmetic raises. *)
Example last_day_of_calendar :
  let t := mkdt 9999 12 31 12 0 0 0 in
  next_reset daily t = Raise OverflowError /\
  next_reset monthly t = Raise OverflowError /\
  next_reset yearly t = Raise ValueError.
Proof. vm_compute. repeat split. Qed.

End CalendarProperties.

(** ** Signs through the arithmetic *)
Module SignProperties.
Import Decimal DecimalConv.

Lemma fix_finite_nonneg (s : bool) (c : N) (e : Z) (d : decimal) :
  negb s || (c =? 0)%N = true ->
  fix_finite s c e = Ok d ->
  nonneg d = true.
Proof.
  unfold fix_finite. intros Hs.
  destruct (c =? 0)%N eqn:Hc.
  - intros [= <-]. cbn. apply orb_true_r.
  - rewrite orb_false_r in Hs. apply negb_true_iff in Hs. subst s.
    destruct (_ >? Etop); [discriminate|].
    destruct (e <? _).
    + destruct (if _ >? prec then _ else _) as [c2 e2].
      destruct (e2 >? Etop); [discriminate|].
      intros [= <-]. reflexivity.
    + intros [= <-]. reflexivity.
Qed.

Lemma nonneg_finite (s : bool) (c : N) (e : Z) :
  nonneg (Finite s c e) = true -> s = false \/ c = 0%N.
Proof.
  cbn. destruct s; cbn; [|auto]. intros H. right. now apply N.eqb_eq.
Qed.

Lemma mul_nonneg (a b d : decimal) :
  nonneg a = true -> nonneg b = true ->
  mul a b = Ok d -> nonneg d = true.
Proof.
  intros Ha Hb.
  destruct a as [s1 c1 e1|s1|]; [| |discriminate];
    destruct b as [s2 c2 e2|s2|]; try discriminate; cbn.
  - apply fix_finite_nonneg.
    destruct (nonneg_finite _ _ _ Ha) as [->| ->],
             (nonneg_finite _ _ _ Hb) as [->| ->];
      cbn; rewrite ?N.mul_0_r, ?orb_true_r; reflexivity.
  - destruct (c1 =? 0)%N eqn:Hc; [discriminate|].
    intros [= <-]. cbn in *. rewrite Hc, orb_false_r in Ha.
    apply negb_true_iff in Ha, Hb. now subst.
  - destruct (c2 =? 0)%N eqn:Hc; [discriminate|].
    intros [= <-]. cbn in *. rewrite Hc, orb_false_r in Hb.
    apply negb_true_iff in Ha, Hb. now subst.
  - intros [= <-]. cbn in *.
    apply negb_true_iff in Ha, Hb. now subst.
Qed.

Lemma quantize_nonneg (a d : decimal) (target : Z) :
  nonneg a = true -> quantize a target = Ok d -> nonneg d = true.
Proof.
  intros Ha. destruct a as [s c e|s|]; try discriminate.
  unfold quantize.
  destruct (negb _); [discriminate|].
  destruct (c =? 0)%N eqn:Hc.
  - apply fix_finite_nonneg. apply orb_true_r.
  - destruct (_ >? Emax); [discriminate|].
    destruct (_ >? prec); [discriminate|].
    destruct (_ >? Emax); [discriminate|].
    destruct (_ >? prec); [discriminate|].
    apply fix_finite_nonneg.
    cbn in Ha. rewrite Hc, orb_false_r in Ha. now rewrite Ha.
Qed.

Lemma add_nonneg (a b d : decimal) :
  nonneg a = true -> nonneg b = true ->
  add a b = Ok d -> nonneg d = true.
Proof.
  intros Ha Hb.
  destruct a as [s1 c1 e1|s1|]; [| |discriminate];
    destruct b as [s2 c2 e2|s2|]; try discriminate; cbn.
  - set (z1 := Z.of_N (c1 * pow10 (e1 - Z.min e1 e2))).
    set (z2 := Z.of_N (c2 * pow10 (e2 - Z.min e1 e2))).
    assert (H1 : 0 <= (if s1 then - z1 else z1)).
    { destruct (nonneg_finite _ _ _ Ha) as [->| Hc]; [subst z1; lia|].
      subst z1. rewrite Hc. destruct s1; cbn; lia. }
    assert (H2 : 0 <= (if s2 then - z2 else z2)).
    { destruct (nonneg_finite _ _ _ Hb) as [->| Hc]; [subst z2; lia|].
      subst z2. rewrite Hc. destruct s2; cbn; lia. }
    apply fix_finite_nonneg.
    destruct (Z.ltb_spec ((if s1 then - z1 else z1)
                          + (if s2 then - z2 else z2)) 0); [lia|].
    destruct (Z.ltb_spec 0 ((if s1 then - z1 else z1)
                            + (if s2 then - z2 else z2)));
      [reflexivity|].
    replace ((if s1 then - z1 else z1) + (if s2 then - z2 else z2))
      with 0 by lia.
    cbn. apply orb_true_r.
  - intros [= <-]. exact Hb.
  - intros [= <-]. exact Ha.
  - cbn in Ha, Hb. apply negb_true_iff in Ha, Hb. subst.
    cbn. intros [= <-]. reflexivity.
Qed.

(** Dividing by [Decimal(3600)] keeps the sign. *)
Lemma truediv_3600_nonneg (a d : decimal) :
  nonneg a = true ->
  truediv a (of_Z 3600) = Ok d -> nonneg d = true.
Proof.
  intros Ha.
  destruct a as [s1 c1 e1|s1|]; [| |discriminate];
    unfold truediv, of_Z; cbn [check_nans Z.ltb Z.compare Z.abs_N].
  - rewrite xorb_false_r.
    change (3600 =? 0)%N with false. cbv iota.
    destruct (c1 =? 0)%N eqn:Hc1.
    + apply fix_finite_nonneg. apply orb_true_r.
    + assert (Hs1 : s1 = false).
      { cbn in Ha. rewrite Hc1, orb_false_r in Ha.
        now apply negb_true_iff in Ha. }
      subst s1.
      destruct (if _ >=? 0 then _ else _) as [q r].
      destruct (r =? 0)%N.
      * destruct (strip_zeros _ _ _ _) as [q' e'].
        apply fix_finite_nonneg. reflexivity.
      * apply fix_finite_nonneg. reflexivity.
  - intros [= <-]. cbn in *. now rewrite xorb_false_r.
Qed.

(** Rounding to binary64 keeps a non-negative mantissa non-negative, so
    the result carries the sign it was given and is not a NaN. *)
Lemma shr_1_nonneg (mrs : shr_record) :
  0 <= shr_m mrs -> 0 <= shr_m (shr_1 mrs).
Proof.
  destruct mrs as [m r s]. cbn.
  destruct m as [|[p|p|]|p]; cbn; lia.
Qed.

Lemma iter_shr_1_nonneg (p : positive) (mrs : shr_record) :
  0 <= shr_m mrs -> 0 <= shr_m (iter_pos shr_1 p mrs).
Proof.
  revert mrs. induction p as [p IH|p IH|]; intros mrs H; cbn.
  - apply IH, IH, shr_1_nonneg, H.
  - apply IH, IH, H.
  - apply shr_1_nonneg, H.
Qed.

Lemma shr_fexp_nonneg (prec emax m e : Z) (l : location) :
  0 <= m -> 0 <= shr_m (fst (shr_fexp prec emax m e l)).
Proof.
  intros Hm. unfold shr_fexp, shr.
  assert (H0 : 0 <= shr_m (shr_record_of_loc m l))
    by (destruct l as [|[]]; exact Hm).
  destruct (_ - e); cbn [fst]; auto using iter_shr_1_nonneg.
Qed.

Lemma round_nearest_even_nonneg (m : Z) (l : location) :
  0 <= m -> 0 <= round_nearest_even m l.
Proof.
  intros Hm. destruct l as [|[]]; cbn; try lia.
  destruct (Z.even m); lia.
Qed.

Lemma binary_round_aux_sign (prec emax : Z) (sx : bool) (mx ex : Z)
    (lx : location) :
  0 <= mx -> Float.has_sign sx (binary_round_aux prec emax sx mx ex lx).
Proof.
  intros Hm. unfold binary_round_aux.
  pose proof (shr_fexp_nonneg prec emax mx ex lx Hm) as H1.
  destruct (shr_fexp prec emax mx ex lx) as [mrs1 e1]. cbn [fst] in H1.
  pose proof (shr_fexp_nonneg prec emax
                (round_nearest_even (shr_m mrs1) (loc_of_shr_record mrs1))
                e1 loc_Exact
                (round_nearest_even_nonneg _ _ H1)) as H2.
  destruct (shr_fexp _ _ _ e1 loc_Exact) as [mrs2 e2]. cbn [fst] in H2.
  destruct (shr_m mrs2) as [|p|p]; cbn; try reflexivity; [|lia].
  destruct (e2 <=? emax - prec); reflexivity.
Qed.

Lemma of_ratio_sign (s : bool) (num den : positive) :
  Float.has_sign s (Float.of_ratio s num den).
Proof.
  unfold Float.of_ratio, SFdiv.
  destruct (SFdiv_core_binary _ _ _ _ _ _) as [[mz ez] lz] eqn:Hc.
  rewrite xorb_false_r.
  apply binary_round_aux_sign.
  unfold SFdiv_core_binary in Hc.
  set (m' := match _ - _ with Z0 => _ | Zpos _ => _ | Zneg _ => _ end)
    in Hc.
  assert (Hm' : 0 <= m').
  { subst m'. destruct (_ - _); try lia. apply Z.shiftl_nonneg. lia. }
  pose proof (Z_div_mod m' (Zpos den) eq_refl) as Hd.
  destruct (Z.div_eucl m' (Zpos den)) as [q r].
  injection Hc as <- _ _. nia.
Qed.

(** A non-negative [timedelta] has non-negative [total_seconds()], as a
    float and as the decimal made from it. *)
Lemma total_seconds_nonneg (d : Datetime.timedelta) :
  0 <= d -> nonneg (of_float (Datetime.total_seconds d)) = true.
Proof.
  intros Hd. destruct d as [|p|p]; [reflexivity| |lia].
  unfold Datetime.total_seconds.
  pose proof (of_ratio_sign false p 1000000) as Hs.
  destruct (Float.of_ratio false p 1000000) as [s|s| |s m e];
    cbn in Hs; try contradiction; subst; cbn; try reflexivity.
  destruct (e >=? 0); reflexivity.
Qed.

End SignProperties.

(** ** The sign of the total *)
Module InvariantProperties.
Import Eff Host World Decimal Datetime UtilityMeterSensor.
Import Runs SignProperties MeterProperties.

Lemma iadd_nonneg (v : number) (q d : decimal) :
  value_nonneg v = true -> DecimalConv.nonneg q = true ->
  iadd v q = Ok d -> DecimalConv.nonneg d = true.
Proof.
  intros Hv Hq. destruct v as [z|a]; cbn [iadd].
  - apply add_nonneg; [exact Hq|].
    cbn in Hv. apply Z.leb_le in Hv. unfold DecimalConv.of_Z. cbn.
    destruct (Z.ltb_spec z 0); [lia|reflexivity].
  - apply add_nonneg; assumption.
Qed.

Lemma update_keeps_nonneg (new_state : option string)
    (now1 now2 : datetime) (m : t) (h : hass) :
  value_nonneg (_state m) = true ->
  reads_nonneg new_state = true ->
  to_microseconds (_last_update m) <= to_microseconds now1 ->
  value_nonneg
    (_state (fst (snd (_handle_real_time_cost_update new_state now1 now2
                         (m, h))))) = true.
Proof.
  intros Hv Hr Ht.
  destruct new_state as [s|]; [|exact Hv].
  run_meter. destruct (unavailable s); [exact Hv|].
  cbn [reads_nonneg] in Hr.
  destruct (DecimalConv.of_string s) as [rate|]; cbn [fst snd];
    [|exact Hv].
  destruct (hours_passed now1 (_last_update m)) as [hrs|] eqn:Hh;
    cbn [fst snd]; [|exact Hv].
  destruct (increment rate hrs) as [q|] eqn:Hq; cbn [fst snd];
    [|exact Hv].
  destruct (iadd (_state m) q) as [v|] eqn:Ha; cbn [fst snd];
    [|exact Hv].
  cbn. apply (iadd_nonneg (_state m) q v Hv); [|exact Ha].
  unfold increment, Py.bind in Hq.
  destruct (Decimal.mul rate hrs) as [p|] eqn:Hp; [|discriminate].
  apply (quantize_nonneg p q (-2)); [|exact Hq].
  apply (mul_nonneg rate hrs p Hr); [|exact Hp].
  unfold hours_passed in Hh.
  refine (truediv_3600_nonneg _ hrs (total_seconds_nonneg _ _) Hh).
  unfold sub. lia.
Qed.

Lemma restore_keeps_nonneg (last_state : option string) (m : t)
    (h : hass) :
  value_nonneg (_state m) = true ->
  reads_nonneg last_state = true ->
  value_nonneg (_state (fst (snd (restore last_state (m, h))))) = true.
Proof.
  intros Hv Hr. destruct last_state as [s|]; [|exact Hv].
  run_meter. destruct (unavailable s); [exact Hv|].
  cbn [reads_nonneg] in Hr.
  destruct (DecimalConv.of_string s); cbn; [exact Hr|exact Hv].
Qed.

Lemma schedule_keeps_state (now : datetime) (w : world t) :
  _state (fst (snd (schedule_next_reset now w))) = _state (fst w).
Proof.
  destruct w as [m h].
  apply (schedule_keeps_last_update now m h).
Qed.

Lemma startup_keeps_nonneg (last_state : option string) (now : datetime)
    (m : t) (h : hass) :
  value_nonneg (_state m) = true ->
  reads_nonneg last_state = true ->
  value_nonneg
    (_state (fst (snd (async_added_to_hass last_state now (m, h)))))
    = true.
Proof.
  intros Hv Hr.
  pose proof (restore_keeps_nonneg last_state m h Hv Hr) as H1.
  unfold async_added_to_hass, Eff.bind.
  destruct (restore last_state (m, h)) as [[[]|e] w1];
    cbn [fst snd] in *; [|exact H1].
  pose proof (schedule_keeps_state now w1) as H2.
  destruct (schedule_next_reset now w1) as [[[]|e] w2];
    cbn [fst snd] in *; [|congruence].
  unfold logger, on_host. cbn. congruence.
Qed.

Lemma reset_meter_zero (now1 now2 : datetime) (w : world t) :
  _state (fst (snd (_reset_meter now1 now2 w))) = Dec zero_cents.
Proof.
  destruct w as [m h].
  unfold _reset_meter, set_state, set_last_update, async_write_ha_state,
    logger, on_host, set_self, self, Eff.bind.
  cbn [fst snd].
  match goal with
  | |- context [schedule_next_reset now2 ?w] =>
      pose proof (schedule_keeps_state now2 w) as Hk;
      destruct (schedule_next_reset now2 w) as [[[]|e] w2]
  end; cbn [fst snd] in *; exact Hk.
Qed.

(** C7, as the code has it.  The total is a number that is zero or
    positive (or plus infinity) in every state reached from construction
    through restores and updates whose stored value or rate is absent,
    unreadable, or reads as a number that is zero or positive or as plus
    infinity (so neither negative nor a NaN), at clock readings not
    earlier than the stored timestamp, and through resets. *)
Theorem total_stays_nonneg (i : interval) (now0 : datetime) (h0 : hass)
    (w : world t) :
  reachable i now0 h0 w -> value_nonneg (_state (fst w)) = true.
Proof.
  induction 1 as [|[m h] ls now _ IH Hr|[m h] ns now1 now2 _ IH Hr Ht
                 |w now1 now2 _ IH|w _ IH|w now _ IH].
  - reflexivity.
  - apply startup_keeps_nonneg; assumption.
  - apply update_keeps_nonneg; assumption.
  - rewrite reset_meter_zero. reflexivity.
  - reflexivity.
  - rewrite schedule_keeps_state. exact IH.
Qed.

Lemma total_stays_nonneg_witness :
  value_nonneg
    (_state (fst (snd (_handle_real_time_cost_update (Some "2.00")
                         t0_30min t0_30min
                         (init daily t0, Host.empty))))) = true.
Proof.
  apply (total_stays_nonneg daily t0 Host.empty).
  apply reach_update.
  - apply reach_init.
  - vm_compute. reflexivity.
  - vm_compute. discriminate.
Defined.

(** C7 as stated fails: a negative rate, as a negative price gives, is
    integrated like any other.  From 0.00, half an hour at -2.00 per hour
    leaves the total at -1.00. *)
Lemma negative_rate_makes_total_negative :
  let r := _handle_real_time_cost_update (Some "-2.00") t0_30min t0_30min
             (init daily t0, Host.empty) in
  fst r = Ok tt /\
  _state (fst (snd r)) = Dec (Finite true 100 (-2)) /\
  value_nonneg (_state (fst (snd r))) = false.
Proof. vm_compute. repeat split. Qed.

(** Nor does the invariant survive a rate that is no number: the rate
    sensor publishes "nan" for a NaN rate, [Decimal] reads it, and the
    total becomes a NaN, which is not [>= 0]. *)
Example nan_rate_makes_total_nan :
  let r := _handle_real_time_cost_update (Some "nan") t0_30min t0_30min
             (init daily t0, Host.empty) in
  reads_nonneg (Some "nan") = false /\
  fst r = Ok tt /\
  _state (fst (snd r)) = Dec (NaN false false) /\
  value_nonneg (_state (fst (snd r))) = false.
Proof. vm_compute. repeat split. Qed.

End InvariantProperties.

(** ** The reset timer *)
Module TimerProperties.
Import Eff Host World Decimal Datetime UtilityMeterSensor Runs.
Import MeterProperties.

Ltac run_schedule :=
  unfold _reset_meter, schedule_next_reset, calculate_next_reset_time,
    set_reset_timer, set_state, set_last_update, async_write_ha_state,
    track_point_in_time, create_task, logger, on_host, set_self, self,
    Eff.bind, Eff.lift, Eff.ret; cbn [fst snd].

(** What [schedule_next_reset] does to the host's timers and tasks: it
    removes no timer and creates no task; it arms the new timer when no
    handle is held, and arms nothing when one is. *)
Lemma schedule_pending (now : datetime) (m : t) (h : hass) :
  let h' := snd (snd (schedule_next_reset now (m, h))) in
  tasks h' = tasks h /\
  match next_reset (_interval m) now, _reset_timer m with
  | Ok at_time, None =>
      pending h' = pending h ++ [(next_handle h, at_time)] /\
      next_handle h' = S (next_handle h)
  | _, _ => pending h' = pending h /\ next_handle h' = next_handle h
  end.
Proof.
  run_schedule.
  destruct (next_reset (_interval m) now); cbn; [|auto].
  destruct (_reset_timer m); cbn; auto.
Qed.

(** With a handle held the call raises [AttributeError] once the boundary
    is computed, and leaves the object and the timers as they were. *)
Lemma schedule_with_handle (now at_time : datetime) (m : t) (h : hass)
    (old : handle) :
  _reset_timer m = Some old ->
  next_reset (_interval m) now = Ok at_time ->
  schedule_next_reset now (m, h)
  = (Raise AttributeError, (m, add_log DEBUG "Calculated next reset time" h)).
Proof.
  intros Ht Hn. run_schedule. rewrite Hn. cbn. rewrite Ht. reflexivity.
Qed.

Lemma schedule_reset_timer (now : datetime) (m : t) (h : hass) :
  _reset_timer (fst (snd (schedule_next_reset now (m, h))))
  = match next_reset (_interval m) now, _reset_timer m with
    | Ok _, None => Some (next_handle h)
    | _, _ => _reset_timer m
    end.
Proof.
  run_schedule.
  destruct (next_reset (_interval m) now); cbn; [|reflexivity].
  destruct (_reset_timer m) eqn:Ht; cbn; [rewrite Ht|]; reflexivity.
Qed.

Lemma update_host_frame (new_state : option string) (now1 now2 : datetime)
    (m : t) (h : hass) :
  let w := snd (_handle_real_time_cost_update new_state now1 now2 (m, h)) in
  _reset_timer (fst w) = _reset_timer m /\
  pending (snd w) = pending h /\
  tasks (snd w) = tasks h /\
  next_handle (snd w) = next_handle h.
Proof.
  destruct new_state as [s|]; [|cbn; auto].
  run_meter. destruct (unavailable s); [cbn; auto|].
  destruct (DecimalConv.of_string s); cbn [fst snd]; [|cbn; auto].
  destruct (hours_passed now1 (_last_update m)); cbn [fst snd];
    [|cbn; auto].
  destruct (increment a a0); cbn [fst snd]; [|cbn; auto].
  destruct (iadd (_state m) a1); cbn; auto.
Qed.

(** A reset with a handle held: the timers that are pending stay, none is
    armed, and the handle stays. *)
Lemma reset_meter_with_handle (now1 now2 : datetime) (m : t) (h : hass)
    (old : handle) :
  _reset_timer m = Some old ->
  let w := snd (_reset_meter now1 now2 (m, h)) in
  _reset_timer (fst w) = Some old /\
  pending (snd w) = pending h /\
  tasks (snd w) = tasks h /\
  next_handle (snd w) = next_handle h.
Proof.
  intros Ht. run_schedule. cbn [_interval _reset_timer fst snd].
  destruct (next_reset (_interval m) now2); cbn [fst snd _reset_timer];
    [|cbn; auto].
  rewrite Ht. cbn. auto.
Qed.

Lemma timers_in_runs (i : interval) (now0 : datetime) (w : world t) :
  runs i now0 w -> timers_ok w.
Proof.
  induction 1 as [ls now|w now1 now2 _ IH|[m h] ns now1 now2 _ IH|w _ IH].
  - unfold async_added_to_hass, Eff.bind.
    pose proof (restore_frame ls (init i now0) Host.empty) as Hr.
    destruct (restore ls (init i now0, Host.empty)) as [[[]|e] [m1 h1]];
      cbn [fst snd] in *; destruct Hr as (_ & Hi & Ht & ->);
      [|split; [reflexivity|left; auto]].
    pose proof (schedule_pending now m1 Host.empty) as Hp.
    pose proof (schedule_reset_timer now m1 Host.empty) as Hs.
    cbn zeta in Hp. rewrite Ht in Hp, Hs.
    destruct (schedule_next_reset now (m1, Host.empty))
      as [[[]|e] [m2 h2]]; cbn [fst snd] in *;
      destruct Hp as [Hk Hp];
      destruct (next_reset (_interval m1) now);
      destruct Hp as [Hp Hn]; unfold timers_ok; cbn [fst snd];
      cbn [logger on_host add_log add_listener fst snd tasks pending
           next_handle];
      rewrite ?Hk, ?Hp, ?Hn, ?Hs; cbn; auto.
  - unfold fire. destruct IH as [Hk [(Ht & Hp & Hn)|(Ht & Hp & Hn)]].
    + rewrite Hp. split; [exact Hk|left; auto].
    + destruct (pending (snd w)) as [|p rest] eqn:Hq;
        [split; [exact Hk|right; rewrite Hq; auto]|].
      destruct w as [m h]. cbn [fst snd] in *.
      pose proof (reset_meter_with_handle now1 now2 m
                    (set_pending rest h) 0%nat Ht) as Hr.
      cbn zeta in Hr. destruct Hr as (H1 & H2 & H3 & H4).
      split; [rewrite H3; exact Hk|right].
      rewrite H1, H2, H4. cbn [set_pending pending next_handle].
      cbn in Hp. repeat split; [lia|exact Hn].
  - pose proof (update_host_frame ns now1 now2 m h) as Hf.
    cbn zeta in Hf. destruct Hf as (H1 & H2 & H3 & H4).
    unfold timers_ok in *. cbn [fst snd] in *.
    rewrite H1, H2, H3, H4. exact IH.
  - unfold run_task. destruct IH as [Hk IH]. rewrite Hk.
    split; assumption.
Qed.

(** C9.  [schedule_next_reset] called with a handle held, as it is in
    the callback of the timer that has just fired: the call raises
    [AttributeError] at line 243, where the host has no
    [async_remove_job]; no timer is cancelled and none is armed.  After
    start-up at 10:00 one timer is pending; it fires at midnight, the
    reset zeroes the total and raises, and no timer is pending any more.
    Over every run at most one timer is pending, because at most one is
    ever armed. *)
Theorem reschedule_raises_and_arms_nothing :
  (let w1 := snd (async_added_to_hass None t0 (init daily t0, Host.empty)) in
   let midnight := mkdt 2024 3 16 0 0 0 0 in
   let r := _reset_meter midnight midnight
              (fst w1, set_pending [] (snd w1)) in
   pending (snd w1) = [(0%nat, midnight)] /\
   _reset_timer (fst w1) = Some 0%nat /\
   fst r = Raise AttributeError /\
   _state (fst (snd r)) = Dec zero_cents /\
   pending (snd (snd r)) = [] /\
   fire midnight midnight w1 = snd r) /\
  (forall now i v last old h at_time,
     next_reset i now = Ok at_time ->
     schedule_next_reset now (mk i v last (Some old), h)
     = (Raise AttributeError,
        (mk i v last (Some old),
         add_log DEBUG "Calculated next reset time" h))) /\
  (forall i now0 w,
     runs i now0 w ->
     (List.length (pending (snd w)) <= 1)%nat
     /\ (next_handle (snd w) <= 1)%nat).
Proof.
  split; [vm_compute; repeat split|]. split.
  - intros now i v last old h at_time Hn.
    exact (schedule_with_handle now at_time (mk i v last (Some old)) h old
             eq_refl Hn).
  - intros i now0 w Hr.
    destruct (timers_in_runs i now0 w Hr)
      as [_ [(_ & Hp & Hn)|(_ & Hp & Hn)]];
      rewrite ?Hp, Hn; cbn; lia.
Qed.

End TimerProperties.

(** ** The accumulator: resets, start-up and what updates leave alone *)
Module AccumulatorProperties.
Import Eff Host World Decimal Datetime UtilityMeterSensor Runs Values.
Import MeterProperties.

Ltac run_all :=
  unfold _handle_real_time_cost_update, accumulate, restore,
    async_added_to_hass, _reset_meter, async_reset, schedule_next_reset,
    calculate_next_reset_time, set_reset_timer, set_state, set_last_update,
    try_except, track_point_in_time, create_task, add_listener, logger,
    async_write_ha_state, on_host, set_self, self, Eff.bind, Eff.lift,
    Eff.ret, Eff.raise; cbn [fst snd].

(** What [schedule_next_reset] returns when the boundary exists and no
    handle is held. *)
Lemma schedule_returns (now at_time : datetime) (m : t) (h : hass) :
  _reset_timer m = None ->
  next_reset (_interval m) now = Ok at_time ->
  exists h',
    schedule_next_reset now (m, h) =
      (Ok tt,
       (mk (_interval m) (_state m) (_last_update m) (Some (next_handle h)),
        h')) /\
    writes h' = writes h /\
    listeners h' = listeners h /\
    next_handle h' = S (next_handle h) /\
    pending h' = pending h ++ [(next_handle h, at_time)] /\
    tasks h' = tasks h.
Proof.
  intros Ht Hn. run_all. rewrite Hn. cbn [fst snd]. rewrite Ht.
  cbn. eexists; repeat split; reflexivity.
Qed.

(** What it does when a handle is held. *)
Lemma schedule_raises (now at_time : datetime) (m : t) (h : hass)
    (old : handle) :
  _reset_timer m = Some old ->
  next_reset (_interval m) now = Ok at_time ->
  schedule_next_reset now (m, h)
  = (Raise AttributeError, (m, add_log DEBUG "Calculated next reset time" h)).
Proof.
  intros Ht Hn. run_all. rewrite Hn. cbn [fst snd]. rewrite Ht.
  reflexivity.
Qed.

(** The reset that the armed timer runs, so with the timer's handle held:
    it zeroes the total whatever it was, stamps the first clock reading
    and writes the state once; then [schedule_next_reset] raises
    [AttributeError] at line 243 and the reset ends with it.  No timer is
    armed or removed, the handle and the listeners stay, and the last
    debug record is not written. *)
Theorem reset_meter_effect (now1 now2 at_time : datetime) (m : t)
    (h : hass) (old : handle) :
  _reset_timer m = Some old ->
  next_reset (_interval m) now2 = Ok at_time ->
  exists h',
    _reset_meter now1 now2 (m, h) =
      (Raise AttributeError,
       (mk (_interval m) (Dec zero_cents) now1 (Some old), h'))
    /\ writes h' = S (writes h)
    /\ pending h' = pending h
    /\ next_handle h' = next_handle h
    /\ listeners h' = listeners h
    /\ log h' = log h ++ [(DEBUG, "Calculated next reset time")].
Proof.
  intros Ht Hn.
  unfold _reset_meter, set_state, set_last_update, async_write_ha_state,
    on_host, set_self, self, Eff.bind.
  cbn [fst snd _interval _state _last_update _reset_timer].
  rewrite (schedule_raises now2 at_time
             (mk (_interval m) (Dec zero_cents) now1 (_reset_timer m))
             (add_write h) old Ht Hn).
  rewrite Ht. eexists. split; [reflexivity|].
  cbn. auto.
Qed.

Lemma reset_meter_effect_witness :
  exists h',
    _reset_meter t0 t0
      (mk monthly (Dec (Finite true 1234 (-2))) t0 (Some 0%nat),
       Host.empty) =
      (Raise AttributeError,
       (mk monthly (Dec zero_cents) t0 (Some 0%nat), h'))
    /\ writes h' = 1%nat
    /\ pending h' = []
    /\ next_handle h' = 0%nat
    /\ listeners h' = 0%nat
    /\ log h' = [(DEBUG, "Calculated next reset time")].
Proof.
  apply (reset_meter_effect t0 t0 (mkdt 2024 4 1 0 0 0 0)
           (mk monthly (Dec (Finite true 1234 (-2))) t0 (Some 0%nat))
           Host.empty 0%nat).
  - reflexivity.
  - vm_compute. reflexivity.
Defined.

(** Rounding to the context gives a finite number of the sign it was
    given. *)
Lemma fix_finite_finite (s : bool) (c : N) (e : Z) (d : decimal) :
  fix_finite s c e = Ok d -> exists c' e', d = Finite s c' e'.
Proof.
  unfold fix_finite.
  destruct (c =? 0)%N; [intros [= <-]; eauto|].
  destruct (_ >? Etop); [discriminate|].
  destruct (e <? _); [|intros [= <-]; eauto].
  destruct (if _ >? prec then _ else _) as [c2 e2].
  destruct (e2 >? Etop); [discriminate|]. intros [= <-]; eauto.
Qed.

(** A number within the precision that already has the wanted exponent
    comes out of the rounding unchanged. *)
Lemma fix_finite_fits (s : bool) (c : N) :
  ndigits c <= prec -> fix_finite s c (-2) = Ok (Finite s c (-2)).
Proof.
  intros Hd. unfold fix_finite.
  destruct (c =? 0)%N eqn:Hc; [apply N.eqb_eq in Hc; subst; reflexivity|].
  cbv zeta.
  match goal with
  | |- context [?a >? Etop] => destruct (Z.gtb_spec a Etop) as [Hgt|_]
  end; [unfold Etop, Emax, prec in *; lia|].
  match goal with
  | |- context [?a <? ?b] => destruct (Z.ltb_spec a b) as [Hlt|_]
  end; [exfalso; unfold Etiny, Emin, prec in *; lia|].
  reflexivity.
Qed.

(** A quantized number has two decimals and fits the precision. *)
Lemma quantize_fits (a : decimal) (s : bool) (c : N) (e : Z) :
  quantize a (-2) = Ok (Finite s c e) -> e = -2 /\ ndigits c <= prec.
Proof.
  destruct a as [sa ca ea|sa|sa []]; cbn [quantize]; try discriminate.
  change (negb ((Etiny <=? -2) && (-2 <=? Emax))) with false. cbv iota.
  destruct (ca =? 0)%N;
    [vm_compute; intros [= <- <- <-]; split; [reflexivity|discriminate]|].
  destruct (_ >? Emax); [discriminate|].
  destruct (_ >? prec); [discriminate|].
  destruct (_ >? Emax); [discriminate|].
  destruct (ndigits (rescale ca ea (-2)) >? prec) eqn:Hd; [discriminate|].
  rewrite Z.gtb_ltb in Hd. apply Z.ltb_ge in Hd.
  rewrite (fix_finite_fits sa _ Hd). intros [= <- <- <-]. auto.
Qed.

Lemma quantize_not_snan (a d : decimal) :
  quantize a (-2) = Ok d -> DecimalConv.is_snan d = false.
Proof.
  destruct a as [sa ca ea|sa|sa []]; cbn [quantize]; try discriminate;
    [|intros [= <-]; reflexivity].
  destruct (negb _); [discriminate|].
  assert (Hf : forall c, fix_finite sa c (-2) = Ok d ->
                         DecimalConv.is_snan d = false).
  { intros c H. apply fix_finite_finite in H. destruct H as (c' & e' & ->).
    reflexivity. }
  destruct (ca =? 0)%N; [apply Hf|].
  destruct (_ >? Emax); [discriminate|].
  destruct (_ >? prec); [discriminate|].
  destruct (_ >? Emax); [discriminate|].
  destruct (_ >? prec); [discriminate|]. apply Hf.
Qed.

Lemma add_zero_cents (s : bool) (c : N) :
  ndigits c <= prec ->
  Decimal.add zero_cents (Finite s c (-2))
    = Ok (onto_zero (Finite s c (-2))).
Proof.
  intros Hd. unfold Decimal.add, zero_cents. cbn [check_nans].
  change (Z.min (-2) (-2)) with (-2). change (-2 - -2) with 0.
  change (pow10 0) with 1%N. rewrite N.mul_0_l, N.mul_1_r.
  destruct c as [|pc]; [destruct s; reflexivity|].
  destruct s;
    cbn [Z.of_N Z.opp Z.add Z.ltb Z.compare Z.abs_N N.eqb andb onto_zero];
    apply (fix_finite_fits _ (Npos pc) Hd).
Qed.

Lemma add_int_zero (s : bool) (c : N) :
  ndigits c <= prec ->
  Decimal.add (Finite s c (-2)) (DecimalConv.of_Z 0)
    = Ok (onto_zero (Finite s c (-2))).
Proof.
  intros Hd. unfold Decimal.add, DecimalConv.of_Z. cbn [check_nans].
  change (0 <? 0) with false. change (Z.abs_N 0) with 0%N.
  change (Z.min (-2) 0) with (-2). change (-2 - -2) with 0.
  change (0 - -2) with 2.
  change (pow10 0) with 1%N. rewrite N.mul_0_l, N.mul_1_r.
  destruct c as [|pc]; [destruct s; reflexivity|].
  destruct s;
    cbn [Z.of_N Z.opp Z.add Z.ltb Z.compare Z.abs_N N.eqb andb onto_zero];
    apply (fix_finite_fits _ (Npos pc) Hd).
Qed.

(** Adding a quantized number to a zero total, decimal or [int]. *)
Lemma iadd_onto_zero (v : number) (p q : decimal) :
  v = Dec zero_cents \/ v = Int 0 ->
  quantize p (-2) = Ok q ->
  iadd v q = Ok (onto_zero q).
Proof.
  intros Hv Hq.
  destruct q as [s c e|s|s sig].
  - destruct (quantize_fits p s c e Hq) as [-> Hd].
    destruct Hv as [-> | ->]; cbn [iadd];
      [apply add_zero_cents|apply add_int_zero]; exact Hd.
  - destruct p as [sa ca ea|sa|sa []]; cbn [quantize] in Hq;
      try discriminate.
    destruct (negb _); [discriminate|].
    assert (Hf : forall c, fix_finite sa c (-2) <> Ok (Infinity s)).
    { intros c H. apply fix_finite_finite in H.
      destruct H as (c' & e' & H). discriminate. }
    destruct (ca =? 0)%N; [now apply Hf in Hq|].
    destruct (_ >? Emax); [discriminate|].
    destruct (_ >? prec); [discriminate|].
    destruct (_ >? Emax); [discriminate|].
    destruct (_ >? prec); [discriminate|]. now apply Hf in Hq.
  - pose proof (quantize_not_snan p _ Hq) as Hn.
    destruct sig; [discriminate|].
    destruct Hv as [-> | ->]; reflexivity.
Qed.

Lemma increment_quantized (rate hours q : decimal) :
  increment rate hours = Ok q -> exists p, quantize p (-2) = Ok q.
Proof.
  unfold increment, Py.bind.
  destruct (Decimal.mul rate hours) as [p|]; [eauto|discriminate].
Qed.

Lemma reset_meter_last_update (now1 now2 : datetime) (w : world t) :
  _last_update (fst (snd (_reset_meter now1 now2 w))) = now1.
Proof.
  destruct w as [m h].
  unfold _reset_meter, set_state, set_last_update, async_write_ha_state,
    logger, on_host, set_self, self, Eff.bind.
  cbn [fst snd].
  match goal with
  | |- context [schedule_next_reset now2 (?m1, ?h1)] =>
      pose proof (schedule_keeps_last_update now2 m1 h1) as Hk;
      destruct (schedule_next_reset now2 (m1, h1)) as [[[]|e] w2]
  end; cbn [fst snd] in *; destruct Hk as [Hk _]; exact Hk.
Qed.

(** The first update after a reset leaves exactly its own rounded
    increment as the total, integrated from the reading that the reset
    stamped: whatever was accumulated before is gone, and so is the time
    before the reset.  This holds also when the reset could not arm its
    timer. *)
Theorem first_update_after_reset (w : world t) (r1 r2 now1 now2 : datetime)
    (s : string) (rate hours q : decimal) :
  unavailable s = false ->
  DecimalConv.of_string s = Ok rate ->
  hours_passed now1 r1 = Ok hours ->
  increment rate hours = Ok q ->
  let w1 := snd (_reset_meter r1 r2 w) in
  let w2 := snd (_handle_real_time_cost_update (Some s) now1 now2 w1) in
  fst (_handle_real_time_cost_update (Some s) now1 now2 w1) = Ok tt /\
  _state (fst w2) = Dec (onto_zero q) /\
  _last_update (fst w2) = now2.
Proof.
  intros Hs Hr Hh Hq w1 w2.
  pose proof (InvariantProperties.reset_meter_zero r1 r2 w) as Hz.
  pose proof (reset_meter_last_update r1 r2 w) as Hl.
  fold w1 in Hz, Hl. subst w2. destruct w1 as [m1 h1].
  cbn [fst snd] in Hz, Hl.
  destruct (increment_quantized _ _ _ Hq) as [p Hp].
  assert (Hv : iadd (_state m1) q = Ok (onto_zero q)).
  { apply (iadd_onto_zero _ p); [left; exact Hz|exact Hp]. }
  rewrite <- Hl in Hh.
  rewrite (update_succeeds m1 h1 s now1 now2 rate hours q (onto_zero q)
             Hs Hr Hh Hq Hv).
  cbn. auto.
Qed.

Lemma first_update_after_reset_witness :
  let w1 := snd (_reset_meter t0 t0
                   (mk daily (Dec (Finite false 99999 (-2))) t0 None,
                    Host.empty)) in
  let w2 := snd (_handle_real_time_cost_update (Some "2.00")
                   t0_30min t0_30min w1) in
  fst (_handle_real_time_cost_update (Some "2.00") t0_30min t0_30min w1)
    = Ok tt /\
  _state (fst w2) = Dec (onto_zero (Finite false 100 (-2))) /\
  _last_update (fst w2) = t0_30min.
Proof.
  apply (first_update_after_reset
           (mk daily (Dec (Finite false 99999 (-2))) t0 None, Host.empty)
           t0 t0 t0_30min t0_30min "2.00" (Finite false 200 (-2))
           (Finite false 5 (-1)) (Finite false 100 (-2)));
    vm_compute; reflexivity.
Defined.

(** [async_reset] stores the [int] 0 and writes once, and touches nothing
    else: the timestamp, the timer handle and the host's timers are as
    before.  The next update adds to that [int] without raising and leaves
    its own increment as the total; since the timestamp was not stamped,
    that increment is integrated from the last update before the reset. *)
Theorem async_reset_keeps_timestamp (m : t) (h : hass)
    (now1 now2 : datetime) (s : string) (rate hours q : decimal) :
  unavailable s = false ->
  DecimalConv.of_string s = Ok rate ->
  hours_passed now1 (_last_update m) = Ok hours ->
  increment rate hours = Ok q ->
  async_reset (m, h) =
    (Ok tt,
     (mk (_interval m) (Int 0) (_last_update m) (_reset_timer m),
      add_write (add_log DEBUG "Resetting cost" h))) /\
  let w1 := snd (async_reset (m, h)) in
  let w2 := snd (_handle_real_time_cost_update (Some s) now1 now2 w1) in
  fst (_handle_real_time_cost_update (Some s) now1 now2 w1) = Ok tt /\
  _state (fst w2) = Dec (onto_zero q) /\
  _last_update (fst w2) = now2.
Proof.
  intros Hs Hr Hh Hq. split; [reflexivity|].
  cbn zeta.
  change (snd (async_reset (m, h)))
    with (mk (_interval m) (Int 0) (_last_update m) (_reset_timer m),
          add_write (add_log DEBUG "Resetting cost" h)).
  destruct (increment_quantized _ _ _ Hq) as [p Hp].
  assert (Hv : iadd (Int 0) q = Ok (onto_zero q)).
  { apply (iadd_onto_zero _ p); [right; reflexivity|exact Hp]. }
  rewrite (update_succeeds
             (mk (_interval m) (Int 0) (_last_update m) (_reset_timer m))
             _ s now1 now2 rate hours q (onto_zero q) Hs Hr Hh Hq Hv).
  cbn. auto.
Qed.

Lemma async_reset_keeps_timestamp_witness :
  let m := mk daily (Dec (Finite false 99999 (-2))) t0 (Some 3%nat) in
  async_reset (m, Host.empty) =
    (Ok tt,
     (mk daily (Int 0) t0 (Some 3%nat),
      add_write (add_log DEBUG "Resetting cost" Host.empty))) /\
  let w1 := snd (async_reset (m, Host.empty)) in
  let w2 := snd (_handle_real_time_cost_update (Some "2.00")
                   t0_30min t0_30min w1) in
  fst (_handle_real_time_cost_update (Some "2.00") t0_30min t0_30min w1)
    = Ok tt /\
  _state (fst w2) = Dec (onto_zero (Finite false 100 (-2))) /\
  _last_update (fst w2) = t0_30min.
Proof.
  apply (async_reset_keeps_timestamp
           (mk daily (Dec (Finite false 99999 (-2))) t0 (Some 3%nat))
           Host.empty t0_30min t0_30min "2.00" (Finite false 200 (-2))
           (Finite false 5 (-1)) (Finite false 100 (-2)));
    vm_compute; reflexivity.
Defined.

(** Whatever the event and however the handler ends, an update leaves the
    interval, the timer handle and the host's timers, tasks and listeners
    alone, and it changes the object all at once or not at all: either the
    object and the count of writes are as before, or the handler returned,
    the timestamp is the second clock reading and exactly one write was
    made. *)
Theorem update_frame (new_state : option string) (now1 now2 : datetime)
    (m : t) (h : hass) :
  let r := _handle_real_time_cost_update new_state now1 now2 (m, h) in
  let m' := fst (snd r) in
  let h' := snd (snd r) in
  _interval m' = _interval m /\ _reset_timer m' = _reset_timer m /\
  pending h' = pending h /\ tasks h' = tasks h /\
  listeners h' = listeners h /\ next_handle h' = next_handle h /\
  ((m' = m /\ writes h' = writes h) \/
   (fst r = Ok tt /\ _last_update m' = now2 /\ writes h' = S (writes h))).
Proof.
  cbn zeta. destruct new_state as [s|]; [|cbn; tauto].
  run_meter. destruct (unavailable s); [cbn; tauto|].
  destruct (DecimalConv.of_string s) as [rate|]; cbn [fst snd];
    [|cbn; tauto].
  destruct (hours_passed now1 (_last_update m)) as [hrs|]; cbn [fst snd];
    [|cbn; tauto].
  destruct (increment rate hrs) as [q|]; cbn [fst snd]; [|cbn; tauto].
  destruct (iadd (_state m) q) as [v|]; cbn [fst snd]; [|cbn; tauto].
  cbn. repeat split; auto.
Qed.

Lemma add_nan_l (sg sig : bool) (q v : decimal) :
  Decimal.add (NaN sg sig) q = Ok v -> v = NaN sg sig.
Proof.
  destruct sig, q as [? ? ?|?|? []]; cbn; intros [= <-]; reflexivity.
Qed.

(** A total that is a NaN, as a stored "nan" restores or a NaN rate leaves,
    survives every update: the additions keep it or raise, and only a reset
    replaces it. *)
Theorem nan_total_is_kept (new_state : option string)
    (now1 now2 : datetime) (m : t) (h : hass) :
  is_nan (_state m) = true ->
  _state (fst (snd (_handle_real_time_cost_update new_state now1 now2
                      (m, h)))) = _state m.
Proof.
  intros Hn. destruct new_state as [s|]; [|reflexivity].
  run_meter. destruct (unavailable s); [reflexivity|].
  destruct (DecimalConv.of_string s) as [rate|]; cbn [fst snd];
    [|reflexivity].
  destruct (hours_passed now1 (_last_update m)) as [hrs|]; cbn [fst snd];
    [|reflexivity].
  destruct (increment rate hrs) as [q|]; cbn [fst snd]; [|reflexivity].
  destruct (iadd (_state m) q) as [v|] eqn:Hv; cbn [fst snd];
    [|reflexivity].
  cbn. destruct (_state m) as [z|[? ? ?|?|sg sig]]; try discriminate.
  cbn [iadd] in Hv. apply add_nan_l in Hv. now subst.
Qed.

Lemma nan_total_is_kept_witness :
  _state (fst (snd (_handle_real_time_cost_update (Some "2.00")
                      t0_30min t0_30min
                      (mk daily (Dec (NaN false false)) t0 None,
                       Host.empty))))
  = Dec (NaN false false).
Proof.
  apply (nan_total_is_kept (Some "2.00") t0_30min t0_30min
           (mk daily (Dec (NaN false false)) t0 None) Host.empty).
  reflexivity.
Defined.

Lemma truediv_not_snan (a b d : decimal) :
  Decimal.truediv a b = Ok d -> DecimalConv.is_snan d = false.
Proof.
  assert (Hf : forall s c e, fix_finite s c e = Ok d ->
                             DecimalConv.is_snan d = false).
  { intros s c e H. apply fix_finite_finite in H.
    destruct H as (c' & e' & ->). reflexivity. }
  unfold Decimal.truediv.
  destruct a as [s1 c1 e1|s1|s1 []], b as [s2 c2 e2|s2|s2 []];
    cbn [check_nans]; try discriminate;
    try (intros [= <-]; reflexivity).
  destruct (c2 =? 0)%N; [destruct (c1 =? 0)%N; discriminate|].
  destruct (c1 =? 0)%N; [apply Hf|].
  destruct (if _ >=? 0 then _ else _) as [q r].
  destruct (r =? 0)%N; [|apply Hf].
  destruct (strip_zeros _ _ _ _). apply Hf.
Qed.

(** A rate state that reads as a NaN, which is what the rate sensor
    publishes for a NaN rate ("nan"), turns a total that is a number into that
    NaN: the update returns, writes it and stamps the time. *)
Theorem nan_rate_poisons_total (m : t) (h : hass) (s : string)
    (now1 now2 : datetime) (sg : bool) (hours : decimal) :
  unavailable s = false ->
  DecimalConv.of_string s = Ok (NaN sg false) ->
  hours_passed now1 (_last_update m) = Ok hours ->
  is_nan (_state m) = false ->
  exists h',
    _handle_real_time_cost_update (Some s) now1 now2 (m, h) =
      (Ok tt,
       (mk (_interval m) (Dec (NaN sg false)) now2 (_reset_timer m), h'))
    /\ writes h' = S (writes h).
Proof.
  intros Hs Hr Hh Hn.
  assert (Hq : increment (NaN sg false) hours = Ok (NaN sg false)).
  { unfold hours_passed in Hh. apply truediv_not_snan in Hh.
    unfold increment, Py.bind.
    destruct hours as [? ? ?|?|? []]; try discriminate; reflexivity. }
  assert (Hv : iadd (_state m) (NaN sg false) = Ok (NaN sg false)).
  { destruct (_state m) as [z|[? ? ?|?|? ?]]; try discriminate;
      reflexivity. }
  rewrite (update_succeeds m h s now1 now2 _ hours _ _ Hs Hr Hh Hq Hv).
  eexists. split; reflexivity.
Qed.

Lemma nan_rate_poisons_total_witness :
  exists h',
    _handle_real_time_cost_update (Some "nan") t0_30min t0_30min
      (init daily t0, Host.empty) =
      (Ok tt, (mk daily (Dec (NaN false false)) t0_30min None, h'))
    /\ writes h' = S (writes Host.empty).
Proof.
  apply (nan_rate_poisons_total (init daily t0) Host.empty "nan"
           t0_30min t0_30min false (Finite false 5 (-1)));
    vm_compute; reflexivity.
Defined.

Lemma restore_value (last_state : option string) (v : number) (m : t)
    (h : hass) :
  restored_value last_state (_state m) = Ok v ->
  restore last_state (m, h) =
    (Ok tt, (mk (_interval m) v (_last_update m) (_reset_timer m), h)).
Proof.
  unfold restored_value. destruct last_state as [s|].
  - run_meter. destruct (unavailable s).
    + intros [= <-]. destruct m; reflexivity.
    + unfold Py.bind. destruct (DecimalConv.of_string s); [|discriminate].
      intros [= <-]. reflexivity.
  - intros [= <-]. destruct m; reflexivity.
Qed.

(** Start-up with a stored state that is readable, marked unavailable or
    absent, at a reading whose boundary exists.  On a meter that holds no
    timer handle, as every freshly built one: the total is the restored
    value, the timestamp is untouched, exactly one timer is armed at the
    boundary and its handle kept, one listener is registered, and nothing
    is written.  Were a handle held, the restore would be followed by
    [AttributeError] from line 243, with no timer armed and no listener
    registered. *)
Theorem startup_effect (last_state : option string)
    (now at_time : datetime) (v : number) (m : t) (h : hass) :
  restored_value last_state (_state m) = Ok v ->
  next_reset (_interval m) now = Ok at_time ->
  match _reset_timer m with
  | None =>
      exists h',
        async_added_to_hass last_state now (m, h) =
          (Ok tt,
           (mk (_interval m) v (_last_update m) (Some (next_handle h)), h'))
        /\ writes h' = writes h
        /\ listeners h' = S (listeners h)
        /\ pending h' = pending h ++ [(next_handle h, at_time)]
  | Some old =>
      async_added_to_hass last_state now (m, h) =
        (Raise AttributeError,
         (mk (_interval m) v (_last_update m) (Some old),
          add_log DEBUG "Calculated next reset time" h))
  end.
Proof.
  intros Hv Hn. unfold async_added_to_hass, Eff.bind.
  rewrite (restore_value last_state v m h Hv).
  destruct (_reset_timer m) as [old|] eqn:Ht.
  - rewrite (schedule_raises now at_time
               (mk (_interval m) v (_last_update m) (Some old)) h old
               eq_refl Hn).
    reflexivity.
  - destruct (schedule_returns now at_time
                (mk (_interval m) v (_last_update m) None) h eq_refl Hn)
      as (h1 & Hs & Hw & Hl & _ & Hp & _).
    cbn [_interval _state _last_update _reset_timer] in Hs.
    rewrite Hs. unfold logger, on_host, add_listener. cbn [fst snd].
    eexists. split; [reflexivity|]. cbn. rewrite Hw, Hl, Hp. auto.
Qed.

Lemma startup_effect_witness :
  exists h',
    async_added_to_hass (Some "12.34") t0 (init yearly t0, Host.empty) =
      (Ok tt,
       (mk yearly (Dec (Finite false 1234 (-2))) t0 (Some 0%nat), h'))
    /\ writes h' = 0%nat
    /\ listeners h' = 1%nat
    /\ pending h' = [(0%nat, mkdt 2025 1 1 0 0 0 0)].
Proof.
  apply (startup_effect (Some "12.34") t0 (mkdt 2025 1 1 0 0 0 0)
           (Dec (Finite false 1234 (-2))) (init yearly t0) Host.empty);
    vm_compute; reflexivity.
Defined.

End AccumulatorProperties.

(** ** The reset boundaries among themselves *)
Module BoundaryProperties.
Import Datetime UtilityMeterSensor Runs CalendarProperties.

Lemma next_reset_daily (t : datetime) :
  valid t = true -> year t < MAXYEAR ->
  next_reset daily t = Ok (replace_midnight (next_day t)).
Proof.
  intros Hv Hy. apply valid_fields in Hv. unfold MAXYEAR, MINYEAR in *.
  unfold next_reset, add_days, Py.bind. cbn [iter_days].
  replace (year (next_day t) >? MAXYEAR) with false; [reflexivity|].
  symmetry. rewrite Z.gtb_ltb. apply Z.ltb_ge. unfold MAXYEAR, next_day.
  destruct (_ <? _); [cbn; lia|]. destruct (_ <? _); cbn; lia.
Qed.

Lemma next_reset_monthly (t : datetime) :
  valid t = true -> year t < MAXYEAR ->
  next_reset monthly t = Ok (first_of_next_month t).
Proof.
  intros Hv Hy. apply valid_fields in Hv. unfold MAXYEAR, MINYEAR in *.
  unfold next_reset, add_days, Py.bind.
  rewrite (thirty_two_days_later (replace_day t 1))
    by (cbn [replace_day month day]; lia).
  unfold first_of_next_month. cbn [replace_day year month day].
  destruct (Z.eqb_spec (month t) 12);
    cbn [year month day hour minute second microsecond];
    (replace (_ >? MAXYEAR) with false
      by (symmetry; rewrite Z.gtb_ltb; apply Z.ltb_ge;
          unfold MAXYEAR; lia));
    reflexivity.
Qed.

Lemma next_reset_yearly (t : datetime) :
  valid t = true -> year t < MAXYEAR ->
  next_reset yearly t = Ok (mkdt (year t + 1) 1 1 0 0 0 0).
Proof.
  intros Hv Hy. apply valid_fields in Hv.
  unfold next_reset, replace_new_year, MINYEAR, MAXYEAR in *.
  replace ((1 <=? year t + 1) && (year t + 1 <=? 9999)) with true;
    [reflexivity|].
  symmetry. apply andb_true_intro. split; apply Z.leb_le; lia.
Qed.

Lemma days_before_month_nat_mono (y : Z) (a b : nat) :
  (a <= b)%nat -> days_before_month_nat y a <= days_before_month_nat y b.
Proof.
  induction 1 as [|b _ IH]; [lia|].
  cbn [days_before_month_nat].
  pose proof (days_in_month_bounds y (Z.of_nat (S b))). lia.
Qed.

Lemma days_before_month_le_december (y m : Z) :
  m <= 12 -> days_before_month y m <= days_before_month y 12.
Proof.
  intros Hm. unfold days_before_month.
  apply days_before_month_nat_mono. lia.
Qed.

(** The ordinals of the three boundaries, against the reading's. *)
Lemma boundary_ordinals (t : datetime) :
  valid t = true ->
  toordinal t + 1 <= toordinal (first_of_next_month t)
    <= toordinal (mkdt (year t + 1) 1 1 0 0 0 0).
Proof.
  intros Hv. apply valid_fields in Hv.
  pose proof (days_before_december (year t)) as Hdec.
  pose proof (days_before_year_succ (year t)) as Hsucc.
  assert (H1 : toordinal (mkdt (year t + 1) 1 1 0 0 0 0)
               = days_before_year (year t) + days_before_month (year t) 12
                 + 31 + 1).
  { unfold toordinal. cbn [year month day].
    change (days_before_month (year t + 1) 1) with 0. lia. }
  rewrite H1. unfold first_of_next_month.
  destruct (Z.eqb_spec (month t) 12) as [H12|H12].
  - rewrite H1. unfold toordinal. rewrite H12 in *.
    change (days_in_month (year t) 12) with 31 in Hv. lia.
  - unfold toordinal. cbn [year month day].
    rewrite days_before_month_succ by lia.
    pose proof (days_before_month_le_december (year t) (month t + 1)) as Hle.
    rewrite days_before_month_succ in Hle by lia. lia.
Qed.

Lemma midnight_microseconds (y m d : Z) :
  to_microseconds (mkdt y m d 0 0 0 0)
  = (toordinal (mkdt y m d 0 0 0 0) - 1) * 86400000000.
Proof. unfold to_microseconds. cbn [hour minute second microsecond]. lia. Qed.

(** For every well-formed reading before the calendar's last year the three
    boundaries exist, lie strictly after the reading, and come in order:
    the daily one is never after the monthly one, nor the monthly one after
    the yearly one. *)
Theorem boundaries_ordered (t : datetime) :
  valid t = true ->
  year t < MAXYEAR ->
  exists d mo y,
    next_reset daily t = Ok d /\
    next_reset monthly t = Ok mo /\
    next_reset yearly t = Ok y /\
    to_microseconds t < to_microseconds d /\
    to_microseconds d <= to_microseconds mo /\
    to_microseconds mo <= to_microseconds y.
Proof.
  intros Hv Hy.
  exists (replace_midnight (next_day t)), (first_of_next_month t),
    (mkdt (year t + 1) 1 1 0 0 0 0).
  split; [apply next_reset_daily; assumption|].
  split; [apply next_reset_monthly; assumption|].
  split; [apply next_reset_yearly; assumption|].
  split; [apply (next_midnight_is_next t Hv)|].
  pose proof (boundary_ordinals t Hv) as Ho.
  pose proof (toordinal_next_day t Hv) as Hn.
  assert (Hd : to_microseconds (replace_midnight (next_day t))
               = toordinal t * 86400000000).
  { unfold replace_midnight. rewrite midnight_microseconds.
    replace (toordinal (mkdt (year (next_day t)) (month (next_day t))
                          (day (next_day t)) 0 0 0 0))
      with (toordinal (next_day t)) by reflexivity.
    rewrite Hn. lia. }
  assert (Hm : to_microseconds (first_of_next_month t)
               = (toordinal (first_of_next_month t) - 1) * 86400000000).
  { unfold first_of_next_month.
    destruct (month t =? 12); apply midnight_microseconds. }
  rewrite Hd, Hm, midnight_microseconds. lia.
Qed.

Lemma boundaries_ordered_witness :
  exists d mo y,
    next_reset daily t0 = Ok d /\
    next_reset monthly t0 = Ok mo /\
    next_reset yearly t0 = Ok y /\
    to_microseconds t0 < to_microseconds d /\
    to_microseconds d <= to_microseconds mo /\
    to_microseconds mo <= to_microseconds y.
Proof.
  apply (boundaries_ordered t0); reflexivity.
Defined.

Lemma next_day_of_midnight (t : datetime) :
  next_day (replace_midnight t)
  = mkdt (year (next_day t)) (month (next_day t)) (day (next_day t))
      0 0 0 0.
Proof.
  unfold next_day, replace_midnight.
  cbn [year month day hour minute second microsecond].
  destruct (_ <? _); [reflexivity|]. destruct (_ <? _); reflexivity.
Qed.

(** The daily boundary depends on the calendar date of the reading alone,
    not on its time of day: it is 00:00:00 on the wall clock of the next
    calendar date, and the reading at the midnight that began the day
    gives the same boundary.  So a timer that fires late on its day still
    arms the midnight that follows that day.  This is a statement on the
    wall-clock fields, which is where the code computes: the time that
    really passes between two such midnights is 23 or 25 hours when the
    zone changes its offset in between. *)
Theorem daily_boundary_no_drift (t : datetime) :
  valid t = true ->
  year t < MAXYEAR ->
  exists d,
    next_reset daily t = Ok d /\
    next_reset daily (replace_midnight t) = Ok d /\
    toordinal d = toordinal t + 1 /\
    hour d = 0 /\ minute d = 0 /\ second d = 0 /\ microsecond d = 0.
Proof.
  intros Hv Hy. exists (replace_midnight (next_day t)).
  split; [apply next_reset_daily; assumption|].
  split.
  - pose proof (next_reset_daily t Hv Hy) as Hd.
    unfold next_reset, add_days, Py.bind in *. cbn [iter_days] in *.
    rewrite next_day_of_midnight.
    cbn [year]. destruct (year (next_day t) >? MAXYEAR);
      [discriminate Hd|reflexivity].
  - split; [|cbn; auto].
    rewrite <- (toordinal_next_day t Hv). reflexivity.
Qed.

Lemma daily_boundary_no_drift_witness :
  exists d,
    next_reset daily (mkdt 2024 2 29 23 59 59 750000) = Ok d /\
    next_reset daily (replace_midnight (mkdt 2024 2 29 23 59 59 750000))
      = Ok d /\
    toordinal d = toordinal (mkdt 2024 2 29 23 59 59 750000) + 1 /\
    hour d = 0 /\ minute d = 0 /\ second d = 0 /\ microsecond d = 0.
Proof.
  apply (daily_boundary_no_drift (mkdt 2024 2 29 23 59 59 750000));
    reflexivity.
Defined.

End BoundaryProperties.

(** ** The rate calculator: what it raises, writes and signs *)
Module RateSensorProperties.
Import Eff Host World Decimal RealTimeCostSensor Values.
Import RateProperties.

Lemma invalid_input_skipped_witness :
  exists l msg,
    handle_state_change (Some "12") (Some "abc") (Some "2000")
      (init, Host.empty)
    = (Ok tt, (init, add_log l msg Host.empty)).
Proof.
  apply (invalid_input_skipped init Host.empty "12" "abc" "2000").
  right. right. left. vm_compute. reflexivity.
Defined.

(** From every state a run can reach, the handler raises exactly when it
    meets a missing state object, then [AttributeError] with nothing
    changed; in every other case it returns.  It never touches timers,
    tasks or listeners, and it writes the state at most once. *)
Theorem raises_only_for_missing_state (new_state price power : option string)
    (m : t) (h : hass) :
  DecimalConv.is_snan (_state m) = false ->
  let r := handle_state_change new_state price power (m, h) in
  (if missing_state new_state price power
   then r = (Raise AttributeError, (m, h))
   else fst r = Ok tt) /\
  pending (snd (snd r)) = pending h /\
  tasks (snd (snd r)) = tasks h /\
  listeners (snd (snd r)) = listeners h /\
  (writes (snd (snd r)) = writes h \/ writes (snd (snd r)) = S (writes h)).
Proof.
  intros Hm. cbn zeta. unfold missing_state.
  destruct new_state as [s|]; [|cbn; auto 6].
  run_handler. destruct (unavailable s); [cbn; auto 6|].
  destruct price as [ps|]; [|cbn; auto 6].
  destruct power as [ws|]; [|cbn; auto 6]. cbn [fst snd].
  destruct (skip ps ws); [cbn; auto 6|].
  destruct (Float.of_string ps) as [p|e] eqn:Hp; cbn [fst snd].
  2:{ apply float_of_string_raises in Hp. subst e. cbn. auto 6. }
  destruct (Float.of_string ws) as [w|e] eqn:Hw; cbn [fst snd].
  2:{ apply float_of_string_raises in Hw. subst e. cbn. auto 6. }
  destruct (eqb_not_snan (_state m) (calculated_cost p w) Hm) as [b Hb].
  rewrite Hb. destruct b; cbn; auto 6.
Qed.

Lemma raises_only_for_missing_state_witness :
  let r := handle_state_change (Some "2000") (Some "0.25") None
             (init, Host.empty) in
  (if missing_state (Some "2000") (Some "0.25") None
   then r = (Raise AttributeError, (init, Host.empty))
   else fst r = Ok tt) /\
  pending (snd (snd r)) = pending Host.empty /\
  tasks (snd (snd r)) = tasks Host.empty /\
  listeners (snd (snd r)) = listeners Host.empty /\
  (writes (snd (snd r)) = writes Host.empty \/
   writes (snd (snd r)) = S (writes Host.empty)).
Proof.
  apply (raises_only_for_missing_state (Some "2000") (Some "0.25") None
           init Host.empty).
  reflexivity.
Defined.

Lemma div_finite_sign (sx sy : bool) (mx my : positive) (ex ey : Z) :
  Float.has_sign (xorb sx sy)
    (Float.div (S754_finite sx mx ex) (S754_finite sy my ey)).
Proof.
  unfold Float.div, SFdiv.
  destruct (SFdiv_core_binary _ _ _ _ _ _) as [[mz ez] lz] eqn:Hc.
  apply SignProperties.binary_round_aux_sign.
  unfold SFdiv_core_binary in Hc.
  set (m' := match _ - _ - _ with Z0 => _ | Zpos _ => _ | Zneg _ => _ end)
    in Hc.
  assert (Hm' : 0 <= m').
  { subst m'. destruct (_ - _ - _); try lia. apply Z.shiftl_nonneg. lia. }
  pose proof (Z_div_mod m' (Zpos my) eq_refl) as Hd.
  destruct (Z.div_eucl m' (Zpos my)) as [q r].
  injection Hc as <- _ _. nia.
Qed.

Lemma mul_finite_sign (sx sy : bool) (mx my : positive) (ex ey : Z) :
  Float.has_sign (xorb sx sy)
    (Float.mul (S754_finite sx mx ex) (S754_finite sy my ey)).
Proof.
  unfold Float.mul, SFmul. apply SignProperties.binary_round_aux_sign. lia.
Qed.

Lemma round2_sign (s : bool) (x : Float.float) :
  Float.has_sign s x -> Float.has_sign s (Float.round2 x).
Proof.
  destruct x as [s'|s'| |s' m e]; cbn [Float.round2 Float.has_sign]; auto.
  intros ->. destruct (e >=? 0); [reflexivity|].
  destruct (Float.div_half_even _ _); [reflexivity|].
  apply SignProperties.of_ratio_sign.
Qed.

(** The sign of the rate is the product of the signs of price and power:
    for a finite price other than zero and a finite power, the rate is a
    number (never a NaN) that carries the sign of the price when the power
    is positive and the opposite sign when it is negative.  So a negative
    price gives a rate that is negative or zero, which the accumulator
    then subtracts. *)
Theorem rate_sign_is_product (sp sw : bool) (mp : positive) (ep : Z)
    (power : Float.float) :
  (power = S754_zero sw \/ exists mw ew, power = S754_finite sw mw ew) ->
  Float.has_sign (xorb sp sw)
    (calculated_cost (S754_finite sp mp ep) power).
Proof.
  intros Hw. unfold calculated_cost. apply round2_sign.
  assert (H1000 : exists m e, Float.of_Z 1000 = S754_finite false m e)
    by (vm_compute; eauto).
  destruct H1000 as (m & e & ->).
  destruct Hw as [-> | (mw & ew & ->)].
  - cbn. now rewrite xorb_false_r.
  - pose proof (div_finite_sign sw false mw m ew e) as Hd.
    rewrite xorb_false_r in Hd.
    destruct (Float.div (S754_finite sw mw ew) (S754_finite false m e))
      as [s'|s'| |s' m' e']; cbn in Hd; try contradiction; subst s'.
    + reflexivity.
    + reflexivity.
    + apply mul_finite_sign.
Qed.

Lemma rate_sign_is_product_witness :
  Float.has_sign (xorb true false)
    (calculated_cost (S754_finite true 4503599627370496 (-54))
       (S754_finite false 8796093022208000 (-43))).
Proof.
  apply (rate_sign_is_product true false 4503599627370496 (-54)).
  right. eauto.
Defined.

(** With the power at zero and a finite price, zero or not, the rate is
    a zero, which equals the state the sensor starts with: the handler
    returns and neither stores nor writes anything. *)
Theorem zero_power_writes_nothing (s ps ws : string)
    (price : Float.float) (sw : bool) (h : hass) :
  unavailable s = false ->
  Float.of_string ps = Ok price ->
  (exists sp, price = S754_zero sp
              \/ exists mp ep, price = S754_finite sp mp ep) ->
  Float.of_string ws = Ok (S754_zero sw) ->
  handle_state_change (Some s) (Some ps) (Some ws) (init, h)
    = (Ok tt, (init, h)).
Proof.
  intros Hs Hp (sp & Hfin) Hw.
  assert (Hc : calculated_cost price (S754_zero sw)
               = S754_zero (xorb sp sw)).
  { unfold calculated_cost.
    replace (Float.div (S754_zero sw) (Float.of_Z 1000))
      with (S754_zero sw) by (destruct sw; reflexivity).
    destruct Hfin as [-> | (mp & ep & ->)]; reflexivity. }
  rewrite (handle_numeric init h s ps ws _ _ true Hs Hp Hw);
    [reflexivity|].
  rewrite Hc. destruct (xorb sp sw); reflexivity.
Qed.

Lemma zero_power_writes_nothing_witness :
  handle_state_change (Some "0") (Some "0") (Some "-0.0")
    (init, Host.empty) = (Ok tt, (init, Host.empty)).
Proof.
  apply (zero_power_writes_nothing "0" "0" "-0.0" (S754_zero false) true
           Host.empty).
  - vm_compute. reflexivity.
  - vm_compute. reflexivity.
  - exists false. left. reflexivity.
  - vm_compute. reflexivity.
Defined.

End RateSensorProperties.

(** ** Names and identifiers of the entities *)
Module NamingProperties.
Import Literal Text Entities.

Lemma append_inj_l (u a b : string) : (u ++ a = u ++ b)%string -> a = b.
Proof.
  induction u as [|c u IH]; cbn; intros H; [exact H|].
  injection H as H. exact (IH H).
Qed.

Lemma append_self (u a : string) : (u ++ a)%string = u -> a = "".
Proof.
  induction u as [|c u IH]; cbn; intros H; [exact H|].
  injection H as H. exact (IH H).
Qed.

Lemma append_assoc (a b c : string) :
  ((a ++ b) ++ c = a ++ b ++ c)%string.
Proof.
  induction a as [|x a IH]; cbn; [reflexivity|]. now rewrite IH.
Qed.

Lemma list_of_append (a b : string) :
  list_ascii_of_string (a ++ b)%string
    = list_ascii_of_string a ++ list_ascii_of_string b.
Proof.
  induction a as [|x a IH]; cbn; [reflexivity|]. now rewrite IH.
Qed.

(** The identifiers of the rate sensor and of its three meters differ
    from one another. *)
Lemma ids_distinct (u : string) :
  NoDup [u; u ++ "_" ++ "daily"; u ++ "_" ++ "monthly";
         u ++ "_" ++ "yearly"]%string.
Proof.
  repeat constructor; cbn [In]; intros H;
    repeat match goal with
    | H : _ \/ _ |- _ => destruct H as [H|H]
    | H : False |- _ => exact H
    | H : (?u ++ _)%string = ?u |- _ =>
        apply append_self in H; discriminate H
    | H : ?u = (?u ++ _)%string |- _ =>
        symmetry in H; apply append_self in H; discriminate H
    | H : (?u ++ _ = ?u ++ _)%string |- _ =>
        apply append_inj_l in H; discriminate H
    end.
Qed.

(** *** Stripping a title-cased join of words *)

Lemma lstrip_head_ok (l : list ascii) : head_ok l -> lstrip l = l.
Proof.
  destruct l as [|a l]; cbn; [reflexivity|]. intros ->. reflexivity.
Qed.

Lemma strip_id (l : list ascii) :
  head_ok l -> head_ok (rev l) -> strip l = l.
Proof.
  intros H1 H2. unfold strip.
  rewrite (lstrip_head_ok l H1), (lstrip_head_ok _ H2).
  apply rev_involutive.
Qed.

Lemma head_ok_spaces (l l' : list ascii) :
  map is_space l = map is_space l' -> head_ok l -> head_ok l'.
Proof.
  destruct l as [|a l], l' as [|b l']; cbn; try discriminate; auto.
  intros H Ha. injection H as H _. congruence.
Qed.

Lemma is_space_upper (a : ascii) :
  is_lower a = true -> is_space (upper a) = is_space a.
Proof.
  destruct a as [[] [] [] [] [] [] [] []]; cbn; intros H;
    try reflexivity; discriminate H.
Qed.

Lemma is_space_lower (a : ascii) :
  is_upper a = true -> is_space (lower a) = is_space a.
Proof.
  destruct a as [[] [] [] [] [] [] [] []]; cbn; intros H;
    try reflexivity; discriminate H.
Qed.

Lemma title_spaces (b : bool) (l : list ascii) :
  map is_space (title_from b l) = map is_space l.
Proof.
  revert b. induction l as [|a l IH]; intros b; cbn [title_from map];
    [reflexivity|].
  destruct (is_lower a) eqn:Hl.
  - cbn [map]. rewrite IH. destruct b; [reflexivity|].
    now rewrite (is_space_upper a Hl).
  - destruct (is_upper a) eqn:Hu; cbn [map]; rewrite IH;
      [|reflexivity].
    destruct b; [|reflexivity]. now rewrite (is_space_lower a Hu).
Qed.

Lemma title_edges (l : list ascii) :
  head_ok l -> head_ok (rev l) ->
  head_ok (title l) /\ head_ok (rev (title l)).
Proof.
  intros H1 H2. split.
  - apply (head_ok_spaces l); [|exact H1].
    symmetry. apply title_spaces.
  - apply (head_ok_spaces (rev l)); [|exact H2].
    rewrite !map_rev. f_equal. symmetry. apply title_spaces.
Qed.

Lemma good_head (w : list ascii) : good w -> head_ok w.
Proof.
  intros [Hn Hf]. destruct w as [|a w]; cbn; [exact I|].
  now inversion Hf.
Qed.

Lemma good_rev (w : list ascii) : good w -> good (rev w).
Proof.
  intros [Hn Hf]. split.
  - intros H. apply Hn. rewrite <- (rev_involutive w), H. reflexivity.
  - apply Forall_rev. exact Hf.
Qed.

Lemma words_from_good (l cur : list ascii) :
  Forall (fun a => is_space a = false) cur ->
  Forall good (words_from cur l).
Proof.
  revert cur. induction l as [|a l IH]; intros cur Hc; cbn [words_from].
  - destruct cur as [|c cur]; [constructor|].
    constructor; [|constructor].
    apply good_rev. split; [discriminate|exact Hc].
  - destruct (is_space a) eqn:Ha.
    + destruct cur as [|c cur]; [apply IH; constructor|].
      constructor; [|apply IH; constructor].
      apply good_rev. split; [discriminate|exact Hc].
    + apply IH. constructor; assumption.
Qed.

Lemma filter_good (f : list ascii -> bool) (ws : list (list ascii)) :
  Forall good ws -> Forall good (filter f ws).
Proof.
  intros H. apply Forall_forall. intros w Hw.
  apply filter_In in Hw. destruct Hw as [Hw _].
  exact (proj1 (Forall_forall _ _) H w Hw).
Qed.

Lemma head_ok_app (l l' : list ascii) :
  l <> [] -> head_ok l -> head_ok (l ++ l').
Proof.
  destruct l as [|a l]; [congruence|]. cbn. auto.
Qed.

Lemma join_edges (ws : list (list ascii)) :
  Forall good ws ->
  head_ok (join ws) /\ head_ok (rev (join ws)) /\ (ws <> [] -> join ws <> []).
Proof.
  induction ws as [|w ws IH]; intros H.
  - cbn. repeat split; congruence.
  - inversion H as [|? ? Hw Hws]; subst.
    destruct (IH Hws) as (IH1 & IH2 & IH3).
    destruct ws as [|w2 ws].
    + cbn [join]. repeat split.
      * apply good_head, Hw.
      * apply good_head, good_rev, Hw.
      * intros _. exact (proj1 Hw).
    + change (join (w :: w2 :: ws))
        with (w ++ " "%char :: join (w2 :: ws)).
      repeat split.
      * apply head_ok_app; [exact (proj1 Hw)|apply good_head, Hw].
      * rewrite rev_app_distr. cbn [rev]. rewrite <- !app_assoc.
        apply head_ok_app; [|exact IH2].
        intros E. apply IH3; [discriminate|].
        rewrite <- (rev_involutive (join (w2 :: ws))), E. reflexivity.
      * intros _ E. apply (proj1 Hw).
        destruct w; [reflexivity|discriminate E].
Qed.

(** *** Dropping the phrase from the end of a name *)

Lemma prefix_refl (l : list ascii) : prefix l l = true.
Proof.
  induction l as [|a l IH]; cbn; [reflexivity|].
  now rewrite Ascii.eqb_refl, IH.
Qed.

Lemma remove_from_nil (fuel : nat) (old : list ascii) :
  remove_from fuel old [] = [].
Proof. destruct fuel; reflexivity. Qed.

Lemma forallb_seq_S (g : nat -> bool) (n s : nat) :
  forallb g (seq (S s) n) = forallb (fun k => g (S k)) (seq s n).
Proof.
  revert s. induction n as [|n IH]; intros s; cbn; [reflexivity|].
  now rewrite IH.
Qed.

Lemma only_at_end_cons (old f : list ascii) (a : ascii) :
  only_at_end old (a :: f)
    = negb (prefix old (a :: f ++ old)) && only_at_end old f.
Proof.
  unfold only_at_end. cbn [List.length seq forallb].
  rewrite forallb_seq_S. reflexivity.
Qed.

Lemma remove_from_end (old f : list ascii) (fuel : nat) :
  old <> [] -> only_at_end old f = true ->
  (List.length f < fuel)%nat ->
  remove_from fuel old (f ++ old) = f.
Proof.
  intros Hold. revert fuel.
  induction f as [|a f IH]; intros fuel Hend Hfuel.
  - destruct fuel as [|fuel]; [inversion Hfuel|].
    destruct old as [|b old]; [congruence|].
    cbn [app remove_from]. rewrite prefix_refl, skipn_all.
    apply remove_from_nil.
  - destruct fuel as [|fuel]; [inversion Hfuel|].
    rewrite only_at_end_cons in Hend.
    apply andb_true_iff in Hend. destruct Hend as [H0 Hend].
    apply negb_true_iff in H0.
    cbn [app remove_from]. rewrite H0. f_equal.
    apply IH; [exact Hend|]. cbn in Hfuel. lia.
Qed.

Lemma remove_end (old f : list ascii) :
  old <> [] -> only_at_end old f = true -> remove old (f ++ old) = f.
Proof.
  intros Hold Hend. unfold remove.
  apply remove_from_end; [exact Hold|exact Hend|].
  rewrite length_app. lia.
Qed.

Lemma friendly_name_stripped (p : string) :
  strip (list_ascii_of_string (friendly_name p))
    = list_ascii_of_string (friendly_name p).
Proof.
  unfold friendly_name. rewrite list_ascii_of_string_of_list_ascii.
  match goal with |- strip (title (join ?ws)) = _ =>
    assert (Hws : Forall good ws)
  end.
  { apply filter_good. apply words_from_good. constructor. }
  destruct (join_edges _ Hws) as (H1 & H2 & _).
  destruct (title_edges _ H1 H2) as [T1 T2].
  apply strip_id; assumption.
Qed.

(** A meter is named after the power sensor.  When the friendly name
    made from the power sensor's entity id holds the phrase
    " Real Time Energy Cost" nowhere, the meter that [async_setup_entry]
    builds for an interval is called "<friendly name> <Interval> Energy
    Cost". *)
Theorem meter_named_after_power_sensor (entry p : string)
    (price : option string) (i : UtilityMeterSensor.interval)
    (now : Datetime.datetime) (r : rate_entity) :
  only_at_end (list_ascii_of_string phrase)
    (list_ascii_of_string (friendly_name p)) = true ->
  rate_init entry price (Some p) = Ok r ->
  _name (meter_init r i now)
    = (friendly_name p ++ " "
       ++ match i with
          | UtilityMeterSensor.daily => "Daily"
          | UtilityMeterSensor.monthly => "Monthly"
          | UtilityMeterSensor.yearly => "Yearly"
          end
       ++ " Energy Cost")%string.
Proof.
  intros Hend Hr. injection Hr as <-.
  cbn [meter_init _name _base_name]. unfold meter_name.
  fold phrase. rewrite list_of_append.
  rewrite remove_end; [|discriminate|exact Hend].
  rewrite friendly_name_stripped, string_of_list_ascii_of_string.
  destruct i; reflexivity.
Qed.

Lemma meter_named_after_power_sensor_witness :
  _name (meter_init
           (mkrate RealTimeCostSensor.init "e1" (Some "sensor.price")
              "sensor.heat_pump_power" "Heat Pump Real Time Energy Cost"
              "Heat Pump Dynamic Energy Cost")
           UtilityMeterSensor.monthly Runs.t0)
    = "Heat Pump Monthly Energy Cost".
Proof.
  exact (meter_named_after_power_sensor "e1" "sensor.heat_pump_power"
           (Some "sensor.price") UtilityMeterSensor.monthly Runs.t0 _
           eq_refl eq_refl).
Defined.

(** A power sensor whose own name holds the phrase: the meter's name
    loses it. *)
Example phrase_in_power_sensor_name :
  friendly_name "sensor.x_real_time_energy_cost" = "X Real Time Energy Cost"
  /\ meter_name ("X Real Time Energy Cost" ++ phrase)
       UtilityMeterSensor.daily = "X Daily Energy Cost".
Proof. split; vm_compute; reflexivity. Qed.

(** What [async_setup_entry] builds.  Without a power sensor in the
    entry's data the rate sensor's constructor raises [AttributeError] and
    nothing is built.  With one, the rate sensor and the daily, monthly
    and yearly meters are built, in this order; the four unique ids differ
    from one another, and every meter starts at 0.00 with no timer
    armed. *)
Theorem setup_outcome (entry : string)
    (data : list (string * option string))
    (now_d now_m now_y : Datetime.datetime) :
  match Py.assoc "power_sensor" data with
  | Some (Some p) =>
      exists r ms,
        async_setup_entry entry data now_d now_m now_y = Ok (r, ms)
        /\ _power_sensor_id r = p
        /\ map (fun m => UtilityMeterSensor._interval (meter m)) ms
           = [UtilityMeterSensor.daily; UtilityMeterSensor.monthly;
              UtilityMeterSensor.yearly]
        /\ NoDup (rate_unique_id r :: map meter_unique_id ms)
        /\ Forall (fun m =>
                     UtilityMeterSensor._state (meter m)
                       = UtilityMeterSensor.Dec UtilityMeterSensor.zero_cents
                     /\ UtilityMeterSensor._reset_timer (meter m) = None
                     /\ _real_time_cost_sensor m = r) ms
  | _ =>
      async_setup_entry entry data now_d now_m now_y = Raise AttributeError
  end.
Proof.
  unfold async_setup_entry.
  destruct (Py.assoc "power_sensor" data) as [[p|]|]; try reflexivity.
  cbn [rate_init Py.bind]. eexists _, _. split; [reflexivity|].
  split; [reflexivity|]. split; [reflexivity|]. split.
  - apply ids_distinct.
  - repeat constructor.
Qed.

End NamingProperties.

(** ** The configuration flow *)
Module ConfigFlowProperties.
Import ConfigFlow Entities.

(** [exceptions] is bound neither in the module nor in [builtins]. *)
Lemma exceptions_unbound (attr : exc) :
  raise_from "exceptions" attr = ([], inr (Other NameError)).
Proof. reflexivity. Qed.

Section Table.
Variable accepts : value -> bool.

Lemma item_truthy (u : user_input) (k : string) :
  truthy (get u k) = true -> item u k = ret (get u k).
Proof.
  unfold get, item. destruct (Py.assoc k u) as [v|]; [reflexivity|].
  discriminate.
Qed.

(** The outcomes of the step, by cases. *)
Lemma step_user_table (u : user_input) :
  snd (async_step_user accepts (Some u))
  = match Py.assoc "electricity_price_sensor" u with
    | None => inr KeyError
    | Some price =>
        if all_accepted accepts u price then
          if xorb (truthy (get u "power_sensor"))
               (truthy (get u "energy_sensor"))
          then inl (entry_of u price)
          else inr (Other NameError)
        else inl (show_form "user" [("base", "invalid_entity")])
    end.
Proof.
  unfold async_step_user, validate, all_accepted, entry_of.
  unfold item at 1 4.
  destruct (Py.assoc "electricity_price_sensor" u) as [price|];
    [|reflexivity].
  unfold entity_id. cbn [bind ret].
  destruct (accepts price); [|reflexivity].
  destruct (truthy (get u "power_sensor")) eqn:Hp;
    [rewrite (item_truthy _ _ Hp); cbn [bind ret];
     destruct (accepts (get u "power_sensor")); [|reflexivity]|];
  (destruct (truthy (get u "energy_sensor")) eqn:He;
    [rewrite (item_truthy _ _ He); cbn [bind ret];
     destruct (accepts (get u "energy_sensor")); [|reflexivity]|]);
  reflexivity.
Qed.

End Table.

(** Both sensors filled in, and neither: [NameError], after the warning
    is logged. *)
Example both_sensors_raise :
  async_step_user (fun _ => true)
    (Some [ ("electricity_price_sensor", Some "sensor.price");
            ("power_sensor", Some "sensor.heat_pump_power");
            ("energy_sensor", Some "sensor.heat_pump_energy") ])
  = ([ (DEBUG, "Initiating config flow for user.");
       (INFO, "Received user input: %s");
       (WARNING, "Both power and energy sensors were provided.") ],
     inr (Other NameError)).
Proof. reflexivity. Qed.

Example no_sensor_raises :
  async_step_user (fun _ => true)
    (Some [ ("electricity_price_sensor", Some "sensor.price") ])
  = ([ (DEBUG, "Initiating config flow for user.");
       (INFO, "Received user input: %s");
       (WARNING, "Neither power nor energy sensor was provided.") ],
     inr (Other NameError)).
Proof. reflexivity. Qed.

(** The step creates an entry exactly when the price sensor is given,
    [cv.entity_id] accepts every value it is handed, and one of the power
    and energy sensors is filled in but not both.  The entry then has the
    title "Dynamic Energy Cost" and holds the three values as entered. *)
Theorem entry_created_iff (accepts : value -> bool) (u : user_input)
    (title : string) (data : user_input) :
  snd (async_step_user accepts (Some u)) = inl (create_entry title data)
  <-> exists price,
        Py.assoc "electricity_price_sensor" u = Some price
        /\ all_accepted accepts u price = true
        /\ xorb (truthy (get u "power_sensor"))
             (truthy (get u "energy_sensor")) = true
        /\ title = "Dynamic Energy Cost"
        /\ data = [ ("electricity_price_sensor", price);
                    ("power_sensor", get u "power_sensor");
                    ("energy_sensor", get u "energy_sensor") ].
Proof.
  rewrite step_user_table.
  destruct (Py.assoc "electricity_price_sensor" u) as [price|].
  - destruct (all_accepted accepts u price) eqn:Ha.
    + destruct (xorb _ _) eqn:Hx.
      * split.
        -- intros H. injection H as <- <-. exists price.
           repeat split; try reflexivity; assumption.
        -- intros (price' & Hp & _ & _ & -> & ->).
           injection Hp as <-. reflexivity.
      * split; [discriminate|].
        intros (price' & _ & _ & Hx' & _). discriminate Hx'.
    + split; [discriminate|].
      intros (price' & Hp & Ha' & _). injection Hp as <-. congruence.
  - split; [discriminate|]. intros (price' & Hp & _). discriminate Hp.
Qed.

(** The step raises in two cases only: [KeyError] when the input has no
    price sensor, and [NameError] when every handed value is accepted but
    neither or both of the power and energy sensors are filled in.  The
    message written for that case is never shown: [exceptions] is not a
    name of the module, and [except vol.Invalid] does not catch the
    [NameError]. *)
Theorem step_user_raises_iff (accepts : value -> bool)
    (input : option user_input) (e : exc) :
  snd (async_step_user accepts input) = inr e
  <-> exists u,
        input = Some u
        /\ match Py.assoc "electricity_price_sensor" u with
           | None => e = KeyError
           | Some price =>
               all_accepted accepts u price = true
               /\ xorb (truthy (get u "power_sensor"))
                    (truthy (get u "energy_sensor")) = false
               /\ e = Other NameError
           end.
Proof.
  destruct input as [u|].
  - rewrite step_user_table.
    destruct (Py.assoc "electricity_price_sensor" u) as [price|] eqn:Hp.
    + destruct (all_accepted accepts u price) eqn:Ha.
      * destruct (xorb _ _) eqn:Hx.
        -- split; [discriminate|].
           intros (u' & Hu & H). injection Hu as <-. rewrite Hp in H.
           destruct H as (_ & Hx' & _). congruence.
        -- split.
           ++ intros H. injection H as <-. exists u. rewrite Hp.
              repeat split; try reflexivity; assumption.
           ++ intros (u' & Hu & H). injection Hu as <-. rewrite Hp in H.
              destruct H as (_ & _ & ->). reflexivity.
      * split; [discriminate|].
        intros (u' & Hu & H). injection Hu as <-. rewrite Hp in H.
        destruct H as (Ha' & _). congruence.
    + split.
      * intros H. injection H as <-. exists u. rewrite Hp.
        split; reflexivity.
      * intros (u' & Hu & H). injection Hu as <-. rewrite Hp in H.
        subst e. reflexivity.
  - split; [discriminate|]. intros (u & Hu & _). discriminate Hu.
Qed.

(** The form comes back with an error exactly when the price sensor is
    given and [cv.entity_id] rejects one of the values it is handed; the
    error is then "invalid_entity" under "base".  Without input the form
    has no error, and no other form is ever shown. *)
Theorem form_shown_iff (accepts : value -> bool)
    (input : option user_input) (step : string)
    (errors : list (string * string)) :
  snd (async_step_user accepts input) = inl (show_form step errors)
  <-> step = "user"
      /\ match input with
         | None => errors = []
         | Some u =>
             exists price,
               Py.assoc "electricity_price_sensor" u = Some price
               /\ all_accepted accepts u price = false
               /\ errors = [("base", "invalid_entity")]
         end.
Proof.
  destruct input as [u|].
  - rewrite step_user_table.
    destruct (Py.assoc "electricity_price_sensor" u) as [price|] eqn:Hp.
    + destruct (all_accepted accepts u price) eqn:Ha.
      * destruct (xorb _ _); (split; [discriminate|]);
          intros (_ & price' & Hp' & Ha' & _);
          injection Hp' as <-; congruence.
      * split.
        -- intros H. injection H as <- <-. split; [reflexivity|].
           exists price. repeat split; try reflexivity; assumption.
        -- intros (-> & price' & _ & _ & ->). reflexivity.
    + split; [discriminate|].
      intros (_ & price' & Hp' & _). discriminate Hp'.
  - cbn. split.
    + intros H. injection H as <- <-. split; reflexivity.
    + intros (-> & ->). reflexivity.
Qed.

(** What the user enters is what the sensors watch: an entry that the
    step creates from an input with a power sensor sets up the rate
    sensor and three meters, and the rate sensor holds the price sensor
    and the power sensor of the input. *)
Theorem flow_entry_feeds_setup (accepts : value -> bool) (u : user_input)
    (title entry : string) (data : user_input)
    (now_d now_m now_y : Datetime.datetime) :
  snd (async_step_user accepts (Some u)) = inl (create_entry title data) ->
  truthy (get u "power_sensor") = true ->
  exists r ms,
    async_setup_entry entry data now_d now_m now_y = Ok (r, ms)
    /\ get u "power_sensor" = Some (_power_sensor_id r)
    /\ Py.assoc "electricity_price_sensor" u
       = Some (_electricity_price_sensor_id r)
    /\ truthy (get u "energy_sensor") = false
    /\ List.length ms = 3%nat.
Proof.
  intros H Hp. rewrite step_user_table in H.
  destruct (Py.assoc "electricity_price_sensor" u) as [price|];
    [|discriminate H].
  destruct (all_accepted accepts u price); [|discriminate H].
  rewrite Hp in H.
  destruct (truthy (get u "energy_sensor")); [discriminate H|].
  injection H as _ <-.
  destruct (get u "power_sensor") as [p|] eqn:Hg; [|discriminate Hp].
  eexists _, _. split; [reflexivity|].
  repeat split; reflexivity.
Qed.

Lemma flow_entry_feeds_setup_witness :
  exists r ms,
    async_setup_entry "e1"
      [ ("electricity_price_sensor", Some "sensor.price");
        ("power_sensor", Some "sensor.heat_pump_power");
        ("energy_sensor", None) ] Runs.t0 Runs.t0 Runs.t0 = Ok (r, ms)
    /\ get [ ("electricity_price_sensor", Some "sensor.price");
             ("power_sensor", Some "sensor.heat_pump_power") ]
         "power_sensor" = Some (_power_sensor_id r)
    /\ Py.assoc "electricity_price_sensor"
         [ ("electricity_price_sensor", Some "sensor.price");
           ("power_sensor", Some "sensor.heat_pump_power") ]
       = Some (_electricity_price_sensor_id r)
    /\ truthy
         (get [ ("electricity_price_sensor", Some "sensor.price");
                ("power_sensor", Some "sensor.heat_pump_power") ]
            "energy_sensor") = false
    /\ List.length ms = 3%nat.
Proof.
  exact (flow_entry_feeds_setup (fun _ => true)
           [ ("electricity_price_sensor", Some "sensor.price");
             ("power_sensor", Some "sensor.heat_pump_power") ]
           "Dynamic Energy Cost" "e1" _ Runs.t0 Runs.t0 Runs.t0
           eq_refl eq_refl).
Defined.

End ConfigFlowProperties.
